(** * Verification of the two image-classification notebooks

    The development embeds the original logic of the repository:

    - the 2D chest X-ray notebook: the class mapping, the custom
      [DicomDataset] and its [train_model] loop;
    - the 3D MRI notebook: the transform chains and the two-phase
      [train_model] loop with its checkpoint rule.

    The deep-learning framework (network, loss, automatic differentiation,
    optimizer) is an external collaborator: it enters as a record of
    operations, [Framework], over which the loops are written.  Scalar
    losses and accuracies are exact rationals ([Q]); the rounding of
    machine floats is outside the model of the loops.  The operations of
    the framework, the loaders and the writes to the file system are
    followed where they succeed: a loop can fail in them in ways that are
    not followed here, and what is proved about a run of a loop is proved
    of a run that completes.  Images are
    represented by their container kind, their element type and their
    shape; single pixel values are followed, with the rounding of the
    floats that hold them, where the display code undoes the
    normalization. *)

From Stdlib Require Import QArith Qminmax Qabs Qround ZArith List Lia Ascii String.
From stdpp Require Import gmap strings list fin_maps pretty.

Close Scope Q_scope.

(** ** Python exceptions and fallible computations *)

Inductive exn : Type :=
| IndexError
| KeyError (key : string)
| FileNotFoundError (path : string)
| InvalidDicomError (path : string)
| ZeroDivisionError
| AttributeError
| TypeError
| ValueError
| OverflowError
| RuntimeError.

Inductive result (A : Type) : Type :=
| Ok (a : A)
| Raise (e : exn).

Arguments Ok {A} a.
Arguments Raise {A} e.

(** Sequencing stops at the first exception, as Python does. *)
Global Instance result_ret : MRet result := fun A a => Ok a.
Global Instance result_bind : MBind result := fun A B k c =>
  match c with
  | Ok a => k a
  | Raise e => Raise e
  end.

Definition is_ok {A : Type} (c : result A) : bool :=
  match c with Ok _ => true | Raise _ => false end.

(** [LookupError] is the Python base class of [KeyError] and [IndexError]. *)
Definition is_lookup_error (e : exn) : bool :=
  match e with
  | IndexError | KeyError _ => true
  | _ => false
  end.

(** A [for] loop whose body may raise. *)
Fixpoint for_each {A S : Type} (l : list A) (body : S -> A -> result S) (s : S)
    : result S :=
  match l with
  | [] => Ok s
  | x :: rest => s' ← body s x; for_each rest body s'
  end.

(** ** Transform chains *)

Module Transforms.

Inductive container : Type := PILImage | NdArray | TorchTensor.

(** Element types of arrays and tensors. *)
Inductive dtype : Type := uint8 | uint16 | int16 | int32 | float32 | float64.

Definition is_floating_point (d : dtype) : bool :=
  match d with
  | float32 | float64 => true
  | _ => false
  end.

(** An image as far as the chains are concerned: what holds it, the type
    of its elements and its shape.  A PIL image of height [h] and width [w]
    has shape [[h; w]] when it has one band and [[h; w; c]] when it has
    [c]; its mode shows in its element type: [uint8] for the modes L and
    RGB, [uint16] for I;16, [int32] for I and [float32] for F. *)
Record image : Type := { kind : container; dtype_of : dtype; shape : list nat }.

(** The steps that occur in the notebooks.  The first three are
    torchvision's (2D notebook), the others MONAI's (3D notebook). *)
Inductive tstep : Type :=
| TV_Resize (size : nat)
| TV_ToTensor
| TV_Normalize (mean std : list Q)
| ScaleIntensity
| AddChannel
| Resize (spatial_size : list nat)
| RandRotate90
| EnsureType.

(** What a step does to an image, as one of the five stages the
    specification names.  [ToTensor] converts, moves the channel in front
    and rescales to the unit interval, in that order. *)
Inductive stage : Type :=
| IntensityScaling
| ChannelInsertion
| SpatialResize
| RandomRotation
| TensorConversion.

Definition stages_of (s : tstep) : list stage :=
  match s with
  | TV_Resize _ => [SpatialResize]
  | TV_ToTensor => [TensorConversion; ChannelInsertion; IntensityScaling]
  | TV_Normalize _ _ => [IntensityScaling]
  | ScaleIntensity => [IntensityScaling]
  | AddChannel => [ChannelInsertion]
  | Resize _ => [SpatialResize]
  | RandRotate90 => [RandomRotation]
  | EnsureType => [TensorConversion]
  end.

Definition stages (chain : list tstep) : list stage :=
  concat (map stages_of chain).

Global Instance stage_eq_dec : EqDecision stage.
Proof. solve_decision. Defined.

(** The order the specification gives for a chain. *)
Definition spec_stages (training : bool) : list stage :=
  [IntensityScaling; ChannelInsertion; SpatialResize]
    ++ (if training then [RandomRotation] else [])
    ++ [TensorConversion].

(** torchvision's [Resize] with a single integer: the smaller edge is
    matched to [size] and the aspect ratio is kept. *)
Definition resized (size h w : nat) : result (nat * nat) :=
  let short := if w <=? h then w else h in
  let long := if w <=? h then h else w in
  if short =? 0 then Raise ZeroDivisionError
  else
    let new_long := (size * long) / short in
    Ok (if w <=? h then (new_long, size) else (size, new_long)).

(** It takes a PIL image, with its bands if it has any, or a tensor whose
    last two axes are the height and the width. *)
Definition tv_resize (size : nat) (im : image) : result image :=
  match kind im, shape im with
  | PILImage, [h; w] =>
      hw ← resized size h w;
      Ok {| kind := PILImage; dtype_of := dtype_of im; shape := [hw.1; hw.2] |}
  | PILImage, [h; w; c] =>
      hw ← resized size h w;
      Ok {| kind := PILImage; dtype_of := dtype_of im; shape := [hw.1; hw.2; c] |}
  | TorchTensor, [c; h; w] =>
      hw ← resized size h w;
      Ok {| kind := TorchTensor; dtype_of := dtype_of im; shape := [c; hw.1; hw.2] |}
  | TorchTensor, _ => Raise ValueError
  | _, _ => Raise TypeError
  end.

(** [ToTensor]: the bands or the last axis move in front.  Only 8-bit
    data becomes a float tensor scaled to the unit interval; 16-bit and
    32-bit integer images give integer tensors, as they are. *)
Definition to_tensor_dtype (k : container) (d : dtype) : result dtype :=
  match k, d with
  | _, uint8 => Ok float32
  | PILImage, uint16 => Ok int16
  | NdArray, uint16 => Raise TypeError
  | _, d => Ok d
  end.

Definition tv_to_tensor (im : image) : result image :=
  match kind im, shape im with
  | TorchTensor, _ => Raise TypeError
  | k, [h; w] =>
      d ← to_tensor_dtype k (dtype_of im);
      Ok {| kind := TorchTensor; dtype_of := d; shape := [1; h; w] |}
  | k, [h; w; c] =>
      d ← to_tensor_dtype k (dtype_of im);
      Ok {| kind := TorchTensor; dtype_of := d; shape := [c; h; w] |}
  | _, _ => Raise ValueError
  end.

(** [Normalize(mean, std)]: it wants a float tensor with a channel axis,
    the third from the end, and deviations that are not zero; a list of
    one value is broadcast over the channels, however many, a longer one
    must have one value for each. *)
Definition broadcasts (n channels : nat) : bool := (n =? 1) || (n =? channels).

Definition tv_normalize (mean std : list Q) (im : image) : result image :=
  match kind im with
  | TorchTensor =>
      if is_floating_point (dtype_of im) then
        if length (shape im) <? 3 then Raise ValueError
        else if existsb (fun x => Qeq_bool x 0) std then Raise ValueError
        else
          let channels := nth (length (shape im) - 3) (shape im) 0 in
          if broadcasts (length mean) channels && broadcasts (length std) channels
          then Ok im
          else Raise RuntimeError
      else Raise TypeError
  | _ => Raise TypeError
  end.

(** Whether an array has no element. *)
Definition is_empty (shape : list nat) : bool := existsb (Nat.eqb 0) shape.

(** MONAI's [ScaleIntensity]: the minimum and the maximum of the array
    are taken, which an empty array does not have; the result is a float
    array. *)
Definition scale_intensity (im : image) : result image :=
  if is_empty (shape im) then Raise ValueError
  else Ok {| kind := kind im; dtype_of := float32; shape := shape im |}.

(** MONAI's [Resize]: the leading axis is the channel; an image with fewer
    spatial axes than [spatial_size] gets axes of extent 1 at the end, one
    with more is refused.  An extent of 0 in [spatial_size] stands for the
    extent the image has.  The interpolation refuses an empty image. *)
Definition monai_resize (spatial_size : list nat) (im : image) : result image :=
  let output_ndim := length spatial_size in
  if output_ndim + 1 <? length (shape im) then Raise ValueError
  else
    let padded := shape im ++ replicate (output_ndim + 1 - length (shape im)) 1 in
    match padded with
    | c :: spatial =>
        if is_empty padded then Raise RuntimeError
        else
          Ok {| kind := kind im; dtype_of := dtype_of im;
                shape := c :: zip_with (fun s d => if s =? 0 then d else s)
                                       spatial_size spatial |}
    | [] => Raise ValueError
    end.

(** A quarter turn in the first two spatial axes swaps their extents. *)
Definition rot90 (k : nat) (im : image) : result image :=
  match shape im with
  | c :: a :: b :: rest =>
      Ok {| kind := kind im; dtype_of := dtype_of im;
            shape := if Nat.even k then c :: a :: b :: rest
                     else c :: b :: a :: rest |}
  | _ => Raise ValueError
  end.

(** The random choice of [RandRotate90] for one sample: no rotation, or
    a number of quarter turns. *)
Definition draw : Type := option nat.

Definition apply_step (r : draw) (s : tstep) (im : image) : result image :=
  match s with
  | TV_Resize size => tv_resize size im
  | TV_ToTensor => tv_to_tensor im
  | TV_Normalize mean std => tv_normalize mean std im
  | ScaleIntensity => scale_intensity im
  | AddChannel =>
      Ok {| kind := kind im; dtype_of := dtype_of im; shape := 1 :: shape im |}
  | Resize spatial_size => monai_resize spatial_size im
  | RandRotate90 =>
      match r with
      | None => Ok im
      | Some k => rot90 k im
      end
  | EnsureType =>
      Ok {| kind := TorchTensor; dtype_of := dtype_of im; shape := shape im |}
  end.

(** [Compose]: the steps run in list order, each on the previous result. *)
Fixpoint Compose (chain : list tstep) (r : draw) (im : image) : result image :=
  match chain with
  | [] => Ok im
  | s :: rest => im' ← apply_step r s im; Compose rest r im'
  end.

(** The spatial extents of a channel-first tensor. *)
Definition spatial_shape (im : image) : list nat := tail (shape im).

(** The chains of the 3D notebook. *)
Definition train_transforms : list tstep :=
  [ScaleIntensity; AddChannel; Resize [96; 96; 96]; RandRotate90; EnsureType].
Definition val_transforms : list tstep :=
  [ScaleIntensity; AddChannel; Resize [96; 96; 96]; EnsureType].

(** The chain of the 2D notebook. *)
Definition data_transform : list tstep :=
  [TV_Resize 224; TV_ToTensor; TV_Normalize [(1 # 2)%Q] [(1 # 2)%Q]].

End Transforms.

(** ** The framework interface *)

(** A network: named parameters, named buffers (running statistics) and the
    train/eval mode flag. *)
Record Net (T : Type) : Type := {
  parameters : gmap string T;
  buffers : gmap string T;
  training : bool
}.

Arguments parameters {T} _.
Arguments buffers {T} _.
Arguments training {T} _.

(** What the loops ask of the framework.  [forward] is [model(inputs)] under
    the given gradient-tracking flag; it returns the outputs and the buffers
    after the pass and cannot touch the parameters.  [criterion] is the
    scalar held by the loss ([loss.item()]), [max1] is [torch.max(outputs, 1)]
    and [sum_eq] is [torch.sum(preds == labels.data)].  [backward] adds the
    gradients of the loss of a batch; [step] is the optimizer update. *)
Record Framework : Type := {
  Tensor : Type;
  Inputs : Type;
  Labels : Type;
  Outputs : Type;
  Preds : Type;
  Grads : Type;
  Optimizer : Type;
  size0 : Inputs -> nat;
  forward : Net Tensor -> bool -> Inputs -> Outputs * gmap string Tensor;
  max1 : Outputs -> Preds;
  criterion : Outputs -> Labels -> Q;
  sum_eq : Preds -> Labels -> nat;
  zero_grad : Grads -> Grads;
  backward : Net Tensor -> Inputs -> Labels -> Grads -> Grads;
  step : Optimizer -> gmap string Tensor -> Grads -> Optimizer * gmap string Tensor
}.

(** [state_dict()]: the mapping of names to current values, parameters and
    buffers together. *)
Definition state_dict {T : Type} (m : Net T) : gmap string T :=
  parameters m ∪ buffers m.

(** A Python value handed to [torch.save]: a mapping of names to tensors, or
    a method still bound to its object and not called. *)
Inductive pyobj (T : Type) : Type :=
| DictValue (d : gmap string T)
| BoundMethod (self : Net T) (name : string).

Arguments DictValue {T} d.
Arguments BoundMethod {T} self name.

Inductive phase : Type := Train | Val.

Global Instance phase_eq_dec : EqDecision phase.
Proof. solve_decision. Defined.

(** What a run does to the outside, in order: calls into the framework,
    printed lines and file-system operations. *)
Inductive event (T : Type) : Type :=
| Call_train
| Call_eval
| Call_zero_grad
| Call_forward (grad_enabled : bool)
| Call_backward
| Call_step
| Print_epoch (epoch : nat) (last : Z)
| Print_rule
| Print_stats (ph : option phase) (loss acc : Q)
| Os_mkdir (path : string)
| Torch_save (obj : pyobj T) (path : string)
| Print_saved
| Print_complete (best : Q).

Arguments Call_train {T}.
Arguments Call_eval {T}.
Arguments Call_zero_grad {T}.
Arguments Call_forward {T} grad_enabled.
Arguments Call_backward {T}.
Arguments Call_step {T}.
Arguments Print_epoch {T} epoch last.
Arguments Print_rule {T}.
Arguments Print_stats {T} ph loss acc.
Arguments Os_mkdir {T} path.
Arguments Torch_save {T} obj path.
Arguments Print_saved {T}.
Arguments Print_complete {T} best.

(** [running_corrects] starts as the Python integer 0 and becomes a tensor
    with the first [+=] of a [torch.sum]. *)
Inductive counter : Type :=
| IntZero
| TensorCount (n : nat).

Definition counter_add (c : counter) (n : nat) : counter :=
  match c with
  | IntZero => TensorCount n
  | TensorCount m => TensorCount (m + n)
  end.

Definition Qnat (n : nat) : Q := inject_Z (Z.of_nat n).

(** The two divisions at the end of an epoch: a float by an integer, which
    raises on zero, then [running_corrects.double()], which an integer does
    not have. *)
Definition epoch_stats (running_loss : Q) (running_corrects : counter)
    (size : nat) : result (Q * Q) :=
  if size =? 0 then Raise ZeroDivisionError
  else
    let epoch_loss := (running_loss / Qnat size)%Q in
    match running_corrects with
    | IntZero => Raise AttributeError
    | TensorCount c => Ok (epoch_loss, (Qnat c / Qnat size)%Q)
    end.

(** ** The 2D notebook: class mapping, dataset and training loop *)

Module Xray2D.
Import Transforms.

Definition classes : list string := ["No Pneumothorax"; "Pneumothorax"]%string.

Definition enumerate {A : Type} (l : list A) : list (Z * A) :=
  imap (fun i x => (Z.of_nat i, x)) l.

(** A dict comprehension: items are inserted in order, a later one
    replacing an earlier one with the same key. *)
Definition dict_of `{Countable K} {V : Type} (items : list (K * V)) : gmap K V :=
  foldl (fun m kv => <[kv.1 := kv.2]> m) ∅ items.

(** [idx_to_class] is iterated by the next comprehension, so it is kept as
    its items in insertion order; its keys are distinct by construction. *)
Definition idx_to_class : list (Z * string) := enumerate classes.

Definition class_to_idx : gmap string Z :=
  dict_of (map (fun kv => (kv.2, kv.1)) idx_to_class).

(** The pixel data of a single-frame DICOM image: its grid ([Rows] by
    [Columns]) and what a pixel is made of, one unsigned 8-bit sample, one
    unsigned 16-bit sample or three unsigned 8-bit samples.  These are the
    pixel data PIL makes an image of; files with other pixel data are not
    followed. *)
Inductive pixel_format : Type := Gray8 | Gray16 | RGB8.

Record pixel_array : Type := { Rows : nat; Columns : nat; format : pixel_format }.

(** Files on disk: a DICOM image, a label index with its rows (relative
    image path, class name), or anything else. *)

Inductive file : Type :=
| DicomFile (px : pixel_array)
| CsvFile (rows : list (string * string))
| OtherFile.

Definition read_csv (disk : gmap string file) (path : string)
    : result (list (string * string)) :=
  match disk !! path with
  | None => Raise (FileNotFoundError path)
  | Some (CsvFile rows) => Ok rows
  | Some _ => Raise ValueError
  end.

Definition dcmread (disk : gmap string file) (path : string) : result pixel_array :=
  match disk !! path with
  | None => Raise (FileNotFoundError path)
  | Some (DicomFile px) => Ok px
  | Some _ => Raise (InvalidDicomError path)
  end.

(** [Image.fromarray(dcm.pixel_array)]: the array has the shape rows by
    columns, by three for colour, and the image gets the mode of its
    element type: L, I;16 or RGB. *)
Definition fromarray (px : pixel_array) : image :=
  match format px with
  | Gray8 => {| kind := PILImage; dtype_of := uint8; shape := [Rows px; Columns px] |}
  | Gray16 => {| kind := PILImage; dtype_of := uint16; shape := [Rows px; Columns px] |}
  | RGB8 => {| kind := PILImage; dtype_of := uint8; shape := [Rows px; Columns px; 3] |}
  end.

Definition startswith_sep (s : string) : bool :=
  match s with
  | String c _ => if decide (c = "/"%char) then true else false
  | EmptyString => false
  end.

Fixpoint endswith_sep (s : string) : bool :=
  match s with
  | EmptyString => false
  | String c EmptyString => if decide (c = "/"%char) then true else false
  | String _ rest => endswith_sep rest
  end.

(** [os.path.join] of two components on a POSIX system. *)
Definition os_path_join (a b : string) : string :=
  if startswith_sep b then b
  else if decide (a = ""%string) then b
  else if endswith_sep a then (a +:+ b)
  else (a +:+ "/" +:+ b).

(** First occurrences, in order, as [unique()] gives them. *)
Fixpoint unique_from (seen : list string) (l : list string) : list string :=
  match l with
  | [] => []
  | x :: rest =>
      if decide (x ∈ seen) then unique_from seen rest
      else x :: unique_from (x :: seen) rest
  end.

Record DicomDataset : Type := {
  labels_df : list (string * string);
  transform : option (image -> result image);
  data_dir : string;
  ds_classes : list string;
  classmapper : gmap string Z
}.

(** [DicomDataset.__init__] *)
Definition init (disk : gmap string file) (csv_path data_dir : string)
    (class_mapper : gmap string Z) (transform : option (image -> result image))
    : result DicomDataset :=
  df ← read_csv disk csv_path;
  Ok {| labels_df := df;
        transform := transform;
        data_dir := data_dir;
        ds_classes := unique_from [] (map snd df);
        classmapper := class_mapper |}.

(** [DicomDataset.__len__] *)
Definition len (ds : DicomDataset) : nat := length (labels_df ds).

(** Positional row access: a negative position counts from the end, a
    position outside the frame raises [IndexError], and one that does not
    fit a signed 64-bit integer raises [OverflowError]. *)
Definition fits_int64 (idx : Z) : bool :=
  ((- 2 ^ 63 <=? idx) && (idx <? 2 ^ 63))%Z.

Definition iloc {A : Type} (df : list A) (idx : Z) : result A :=
  if fits_int64 idx then
    let n := Z.of_nat (length df) in
    let i := if (idx <? 0)%Z then (n + idx)%Z else idx in
    if (i <? 0)%Z then Raise IndexError
    else match df !! Z.to_nat i with
         | Some row => Ok row
         | None => Raise IndexError
         end
  else Raise OverflowError.

(** [DicomDataset.__getitem__]: load the image, then map the label, then
    transform. *)
Definition getitem (disk : gmap string file) (ds : DicomDataset) (idx : Z)
    : result (image * Z) :=
  row ← iloc (labels_df ds) idx;
  let img_path := os_path_join (data_dir ds) row.1 in
  px ← dcmread disk img_path;
  let image := fromarray px in
  row' ← iloc (labels_df ds) idx;
  let label := row'.2 in
  label ← match classmapper ds !! label with
           | Some k => Ok k
           | None => Raise (KeyError label)
           end;
  image ← match transform ds with
           | Some t => t image
           | None => Ok image
           end;
  Ok (image, label).

(** The dataset of the notebook, over whatever the disk holds. *)
Definition notebook_data_dir : string := "data/siim_small".

Definition train_dataset (disk : gmap string file) : result DicomDataset :=
  init disk (os_path_join notebook_data_dir "labels.csv") notebook_data_dir
       class_to_idx (Some (Compose data_transform None)).

(** *** The training loop of the 2D notebook *)

Section Loop.
Context (F : Framework).

Record state : Type := {
  model : Net (Tensor F);
  optimizer : Optimizer F;
  grads : Grads F;
  trace : list (event (Tensor F))
}.

(** The body of [for i, data in enumerate(loader)]. *)
Definition batch_body (st : state) (data : Inputs F * Labels F)
    (running_loss : Q) (running_corrects : counter) : state * Q * counter :=
  let inputs := data.1 in
  let labels := data.2 in
  let g := zero_grad F (grads st) in
  let '(outputs, bufs) := forward F (model st) true inputs in
  let preds := max1 F outputs in
  let loss := criterion F outputs labels in
  let g := backward F (model st) inputs labels g in
  let '(opt, params) := step F (optimizer st) (parameters (model st)) g in
  let running_loss := (running_loss + loss)%Q in
  let running_loss := (running_loss + loss * Qnat (size0 F inputs))%Q in
  let running_corrects := counter_add running_corrects (sum_eq F preds labels) in
  ({| model := {| parameters := params; buffers := bufs;
                  training := training (model st) |};
      optimizer := opt;
      grads := g;
      trace := trace st ++ [Call_zero_grad; Call_forward true; Call_backward; Call_step] |},
   running_loss, running_corrects).

Fixpoint batch_loop (bs : list (Inputs F * Labels F)) (st : state)
    (running_loss : Q) (running_corrects : counter) : state * Q * counter :=
  match bs with
  | [] => (st, running_loss, running_corrects)
  | data :: rest =>
      let '(st', running_loss', running_corrects') :=
        batch_body st data running_loss running_corrects in
      batch_loop rest st' running_loss' running_corrects'
  end.

(** The body of [for epoch in range(n_epochs)].  [len_train_dataset] is
    [len(train_dataset)], a global of the notebook; [loader epoch] is what
    the loader yields in that pass. *)
Definition epoch_body (len_train_dataset : nat)
    (loader : nat -> list (Inputs F * Labels F))
    (acc : state * list Q) (epoch : nat) : result (state * list Q) :=
  let '(st, loss_over_time) := acc in
  let '(st, running_loss, running_corrects) :=
    batch_loop (loader epoch) st 0%Q IntZero in
  '(epoch_loss, epoch_acc) ← epoch_stats running_loss running_corrects len_train_dataset;
  Ok ({| model := model st; optimizer := optimizer st; grads := grads st;
         trace := trace st ++ [Print_stats None epoch_loss epoch_acc] |},
      loss_over_time ++ [epoch_loss]).

(** The state when the loop over the epochs is entered, after
    [model.train()]. *)
Definition init_state (model : Net (Tensor F)) (optimizer : Optimizer F)
    (grads0 : Grads F) : state :=
  {| model := {| parameters := parameters model; buffers := buffers model;
                 training := true |};
     optimizer := optimizer; grads := grads0;
     trace := [Call_train] |}.

Definition train_model (len_train_dataset : nat)
    (model : Net (Tensor F)) (optimizer : Optimizer F)
    (loader : nat -> list (Inputs F * Labels F)) (n_epochs : nat)
    (grads0 : Grads F) : result (state * list Q) :=
  let loss_over_time := [] in
  for_each (seq 0 n_epochs) (epoch_body len_train_dataset loader)
           (init_state model optimizer grads0, loss_over_time).

End Loop.

End Xray2D.

(** ** The 3D notebook: two-phase training loop with checkpoints *)

Module Mri3D.

(** The part of the file system the loop touches. *)
Record filesystem (T : Type) : Type := {
  dirs : gset string;
  files : gmap string (pyobj T)
}.

Arguments dirs {T} _.
Arguments files {T} _.

Definition os_path_exists {T : Type} (fs : filesystem T) (path : string) : bool :=
  bool_decide (path ∈ dirs fs) || bool_decide (is_Some (files fs !! path)).

Definition os_mkdir {T : Type} (fs : filesystem T) (path : string) : filesystem T :=
  {| dirs := {[path]} ∪ dirs fs; files := files fs |}.

(** [torch.save(obj, path)] where the write succeeds: the file holds the
    object afterwards.  A write that fails, under a path that is not a
    directory for one, is not followed. *)
Definition torch_save {T : Type} (fs : filesystem T) (obj : pyobj T) (path : string)
    : filesystem T :=
  {| dirs := dirs fs; files := <[path := obj]> (files fs) |}.

Definition models_dir : string := "./models".
Definition checkpoint_path : string := "models/3d_classification_model.pth".

(** The name of a phase, the key of the dictionaries of the notebook. *)
Definition phase_name (ph : phase) : string :=
  match ph with
  | Train => "train"
  | Val => "val"
  end.

Section Loop.
Context (F : Framework).

Record state : Type := {
  model : Net (Tensor F);
  optimizer : Optimizer F;
  grads : Grads F;
  iter_num : gmap string nat;
  best_metric : Q;
  fs : filesystem (Tensor F);
  trace : list (event (Tensor F))
}.

(** [model.train()] and [model.eval()] *)
Definition set_mode (ph : phase) (st : state) : state :=
  {| model := {| parameters := parameters (model st);
                 buffers := buffers (model st);
                 training := bool_decide (ph = Train) |};
     optimizer := optimizer st;
     grads := grads st;
     iter_num := iter_num st;
     best_metric := best_metric st;
     fs := fs st;
     trace := trace st ++ [if bool_decide (ph = Train) then Call_train else Call_eval] |}.

(** The body of [for inputs, labels in dataloaders[phase]]. *)
Definition batch_body (ph : phase) (st : state) (data : Inputs F * Labels F)
    (running_loss : Q) (running_corrects : counter) : state * Q * counter :=
  let inputs := data.1 in
  let labels := data.2 in
  let g := zero_grad F (grads st) in
  let grad_enabled := bool_decide (ph = Train) in
  let '(outputs, bufs) := forward F (model st) grad_enabled inputs in
  let preds := max1 F outputs in
  let loss := criterion F outputs labels in
  let '(params, opt, g, calls) :=
    if bool_decide (ph = Train) then
      let g := backward F (model st) inputs labels g in
      let '(opt, params) := step F (optimizer st) (parameters (model st)) g in
      (params, opt, g, [Call_backward; Call_step])
    else (parameters (model st), optimizer st, g, []) in
  let running_loss := (running_loss + loss * Qnat (size0 F inputs))%Q in
  let running_corrects := counter_add running_corrects (sum_eq F preds labels) in
  ({| model := {| parameters := params; buffers := bufs;
                  training := training (model st) |};
      optimizer := opt;
      grads := g;
      iter_num := alter S (phase_name ph) (iter_num st);
      best_metric := best_metric st;
      fs := fs st;
      trace := trace st ++ [Call_zero_grad; Call_forward grad_enabled] ++ calls |},
   running_loss, running_corrects).

Fixpoint batch_loop (ph : phase) (bs : list (Inputs F * Labels F)) (st : state)
    (running_loss : Q) (running_corrects : counter) : state * Q * counter :=
  match bs with
  | [] => (st, running_loss, running_corrects)
  | data :: rest =>
      let '(st', running_loss', running_corrects') :=
        batch_body ph st data running_loss running_corrects in
      batch_loop ph rest st' running_loss' running_corrects'
  end.

Definition print (st : state) (lines : list (event (Tensor F))) : state :=
  {| model := model st; optimizer := optimizer st; grads := grads st;
     iter_num := iter_num st; best_metric := best_metric st; fs := fs st;
     trace := trace st ++ lines |}.

(** One phase of an epoch up to its printed statistics.  [dataset_sizes] is
    a global of the notebook; [dataloaders ph epoch] is what the loader of
    the phase yields in that pass. *)
Definition run_phase (dataloaders : phase -> nat -> list (Inputs F * Labels F))
    (dataset_sizes : phase -> nat) (epoch : nat) (ph : phase) (st : state)
    : result (state * Q * Q) :=
  let st := set_mode ph st in
  let '(st, running_loss, running_corrects) :=
    batch_loop ph (dataloaders ph epoch) st 0%Q IntZero in
  '(epoch_loss, epoch_acc) ← epoch_stats running_loss running_corrects (dataset_sizes ph);
  Ok (print st [Print_stats (Some ph) epoch_loss epoch_acc], epoch_loss, epoch_acc).

(** The block under [# Save weights if accuracy is best].  The argument of
    [torch.save] is [model.state_dict], the method itself. *)
Definition save_if_best (ph : phase) (epoch_acc : Q) (st : state) : state :=
  if bool_decide (ph = Val) then
    match (best_metric st ?= epoch_acc)%Q with
    | Lt =>
        let fs1 := if os_path_exists (fs st) models_dir then fs st
                   else os_mkdir (fs st) models_dir in
        let made := if os_path_exists (fs st) models_dir then []
                    else [Os_mkdir models_dir] in
        let obj := BoundMethod (model st) "state_dict" in
        {| model := model st; optimizer := optimizer st; grads := grads st;
           iter_num := iter_num st;
           best_metric := epoch_acc;
           fs := torch_save fs1 obj checkpoint_path;
           trace := trace st ++ made ++ [Torch_save obj checkpoint_path; Print_saved] |}
    | _ => st
    end
  else st.

(** The body of [for phase in ['train', 'val']]. *)
Definition phase_body (dataloaders : phase -> nat -> list (Inputs F * Labels F))
    (dataset_sizes : phase -> nat) (epoch : nat) (st : state) (ph : phase)
    : result state :=
  '(st, _, epoch_acc) ← run_phase dataloaders dataset_sizes epoch ph st;
  Ok (save_if_best ph epoch_acc st).

(** The body of [for epoch in range(num_epochs)]. *)
Definition epoch_body (dataloaders : phase -> nat -> list (Inputs F * Labels F))
    (dataset_sizes : phase -> nat) (num_epochs : nat) (st : state) (epoch : nat)
    : result state :=
  let st := print st [Print_epoch epoch (Z.of_nat num_epochs - 1); Print_rule] in
  for_each [Train; Val] (phase_body dataloaders dataset_sizes epoch) st.

(** The state when the loop over the epochs is entered. *)
Definition init_state (model : Net (Tensor F)) (optimizer : Optimizer F)
    (grads0 : Grads F) (fs0 : filesystem (Tensor F)) : state :=
  {| model := model; optimizer := optimizer; grads := grads0;
     iter_num := <["train" := 0]> (<["val" := 0]> ∅);
     best_metric := (-1)%Q;
     fs := fs0;
     trace := [] |}.

(** The state after the first [k] epochs of a run of [num_epochs]. *)
Definition after_epochs (dataloaders : phase -> nat -> list (Inputs F * Labels F))
    (dataset_sizes : phase -> nat) (num_epochs k : nat) (st : state)
    : result state :=
  for_each (seq 0 k) (epoch_body dataloaders dataset_sizes num_epochs) st.

Definition train_model (model : Net (Tensor F)) (optimizer : Optimizer F)
    (dataloaders : phase -> nat -> list (Inputs F * Labels F))
    (num_epochs : nat) (dataset_sizes : phase -> nat)
    (grads0 : Grads F) (fs0 : filesystem (Tensor F)) : result state :=
  st ← after_epochs dataloaders dataset_sizes num_epochs num_epochs
         (init_state model optimizer grads0 fs0);
  Ok (print st [Print_complete (best_metric st)]).

(** Observations of a trace: the validation accuracies printed, and the
    number of checkpoint writes. *)
Definition val_acc_of (e : event (Tensor F)) : option Q :=
  match e with
  | Print_stats (Some Val) _ acc => Some acc
  | _ => None
  end.

Definition val_accs (tr : list (event (Tensor F))) : list Q :=
  omap val_acc_of tr.

Definition is_save (e : event (Tensor F)) : bool :=
  match e with
  | Torch_save _ _ => true
  | _ => false
  end.

Definition n_saves (tr : list (event (Tensor F))) : nat :=
  length (filter (fun e => is_save e = true) tr).

(** Further observations: the gradient-tracking flag of each forward pass,
    and the number of optimizer updates. *)
Definition forward_flag_of (e : event (Tensor F)) : option bool :=
  match e with
  | Call_forward g => Some g
  | _ => None
  end.

Definition forward_flags (tr : list (event (Tensor F))) : list bool :=
  omap forward_flag_of tr.

Definition is_step (e : event (Tensor F)) : bool :=
  match e with
  | Call_step => true
  | _ => false
  end.

Definition n_steps (tr : list (event (Tensor F))) : nat :=
  length (filter (fun e => is_step e = true) tr).

(** The framework calls of one batch, and of a pass over [n] batches. *)
Definition batch_calls (ph : phase) : list (event (Tensor F)) :=
  [Call_zero_grad; Call_forward (bool_decide (ph = Train))]
    ++ (if bool_decide (ph = Train) then [Call_backward; Call_step] else []).

Fixpoint pass_calls (ph : phase) (n : nat) : list (event (Tensor F)) :=
  match n with
  | 0 => []
  | S n' => batch_calls ph ++ pass_calls ph n'
  end.

End Loop.

End Mri3D.

(** ** Per-batch values and the averages of the specification *)

(** One logged batch: its scalar mean loss, its size and its number of
    correct predictions. *)
Record batch_record : Type := {
  b_loss : Q;
  b_size : nat;
  b_corrects : nat
}.

Definition weighted_loss_sum (log : list batch_record) : Q :=
  foldr (fun b acc => (b_loss b * Qnat (b_size b) + acc)%Q) 0%Q log.

Definition loss_sum (log : list batch_record) : Q :=
  foldr (fun b acc => (b_loss b + acc)%Q) 0%Q log.

Definition samples_seen (log : list batch_record) : nat :=
  foldr (fun b acc => b_size b + acc) 0 log.

Definition corrects_seen (log : list batch_record) : nat :=
  foldr (fun b acc => b_corrects b + acc) 0 log.

(** The length-weighted mean of the per-batch losses over a dataset of
    [size] samples. *)
Definition length_weighted_mean (log : list batch_record) (size : nat) : Q :=
  (weighted_loss_sum log / Qnat size)%Q.

(** The per-sample averages over the samples a loader really yielded. *)
Definition true_mean_loss (log : list batch_record) : Q :=
  (weighted_loss_sum log / Qnat (samples_seen log))%Q.

Definition true_accuracy (log : list batch_record) : Q :=
  (Qnat (corrects_seen log) / Qnat (samples_seen log))%Q.

Section Logs.
Context (F : Framework).

(** What a logger placed in the 2D loop records for the batches of a pass. *)
Definition batch_record_2d (st : Xray2D.state F) (data : Inputs F * Labels F)
    : batch_record :=
  let outputs := (forward F (Xray2D.model F st) true data.1).1 in
  {| b_loss := criterion F outputs data.2;
     b_size := size0 F data.1;
     b_corrects := sum_eq F (max1 F outputs) data.2 |}.

Fixpoint batch_log_2d (bs : list (Inputs F * Labels F)) (st : Xray2D.state F)
    : list batch_record :=
  match bs with
  | [] => []
  | data :: rest =>
      batch_record_2d st data
        :: batch_log_2d rest (Xray2D.batch_body F st data 0%Q IntZero).1.1
  end.

(** The same for a phase of the 3D loop. *)
Definition batch_record_3d (ph : phase) (st : Mri3D.state F)
    (data : Inputs F * Labels F) : batch_record :=
  let outputs :=
    (forward F (Mri3D.model F st) (bool_decide (ph = Train)) data.1).1 in
  {| b_loss := criterion F outputs data.2;
     b_size := size0 F data.1;
     b_corrects := sum_eq F (max1 F outputs) data.2 |}.

Fixpoint batch_log_3d (ph : phase) (bs : list (Inputs F * Labels F))
    (st : Mri3D.state F) : list batch_record :=
  match bs with
  | [] => []
  | data :: rest =>
      batch_record_3d ph st data
        :: batch_log_3d ph rest (Mri3D.batch_body F ph st data 0%Q IntZero).1.1
  end.

End Logs.

(** ** A small framework instance for concrete runs *)

Module Toy.

(** A batch is its size; its label carries the number of correct
    predictions and the loss the criterion reports.  The parameter [w]
    counts the optimizer steps taken. *)
Definition toy_step (opt : nat) (params : gmap string Z) (g : nat)
    : nat * gmap string Z :=
  (S opt, (fun w => (w + 1)%Z) <$> params).

Definition toy : Framework :=
  {| Tensor := Z;
     Inputs := nat;
     Labels := nat * Q;
     Outputs := nat;
     Preds := nat;
     Grads := nat;
     Optimizer := nat;
     size0 := fun n => n;
     forward := fun m _ n => (n, buffers m);
     max1 := fun o => o;
     criterion := fun _ lab => lab.2;
     sum_eq := fun _ lab => lab.1;
     zero_grad := fun _ => 0;
     backward := fun _ _ _ g => S g;
     step := toy_step |}.

Definition toy_net : Net Z :=
  {| parameters := {["w"%string := 0%Z]}; buffers := ∅; training := false |}.

Definition empty_fs : Mri3D.filesystem Z :=
  {| Mri3D.dirs := ∅; Mri3D.files := ∅ |}.

(** Ten samples in five batches of two, with the given numbers of correct
    predictions per batch. *)
Definition batches_of (corrects : list nat) : list (nat * (nat * Q)) :=
  map (fun c => (2, (c, 1%Q))) corrects.

(** Three epochs whose validation accuracies are 0.5, 0.7 and 0.6. *)
Definition scenario_loaders (ph : phase) (epoch : nat) : list (nat * (nat * Q)) :=
  match ph, epoch with
  | Train, _ => batches_of [1; 1; 1; 1; 1]
  | Val, 0 => batches_of [1; 1; 1; 1; 1]
  | Val, 1 => batches_of [2; 2; 1; 1; 1]
  | Val, _ => batches_of [2; 1; 1; 1; 1]
  end.

Definition scenario_sizes (ph : phase) : nat := 10.

Abbreviation scenario_init := (Mri3D.init_state toy toy_net 0 0 empty_fs).

Abbreviation scenario_after k :=
  (Mri3D.after_epochs toy scenario_loaders scenario_sizes 3 k scenario_init).

Definition state_after (k : nat) : Mri3D.state toy :=
  match scenario_after k with
  | Ok st => st
  | Raise _ => scenario_init
  end.

Abbreviation scenario_run :=
  (Mri3D.train_model toy toy_net 0 scenario_loaders 3 scenario_sizes 0 empty_fs).

(** The validation phase of the first epoch, run from the initial state. *)
Abbreviation val_phase_run :=
  (Mri3D.phase_body toy scenario_loaders scenario_sizes 0 scenario_init Val).

Definition val_phase_state : Mri3D.state toy :=
  match val_phase_run with
  | Ok st => st
  | Raise _ => scenario_init
  end.

(** An epoch of the 2D loop over a dataset of two samples, with a given
    loader. *)
Abbreviation init_2d := (Xray2D.init_state toy toy_net 0 0).

Abbreviation epoch_2d loader := (Xray2D.epoch_body toy 2 loader (init_2d, []) 0).

Definition state_2d (loader : nat -> list (nat * (nat * Q))) : Xray2D.state toy :=
  match epoch_2d loader with
  | Ok (st, _) => st
  | Raise _ => init_2d
  end.

Definition losses_2d (loader : nat -> list (nat * (nat * Q))) : list Q :=
  match epoch_2d loader with
  | Ok (_, loss_over_time) => loss_over_time
  | Raise _ => []
  end.

Abbreviation log_2d loader := (batch_log_2d toy (loader 0) init_2d).

(** A loader that yields the two samples in one batch whose mean loss is 1. *)
Definition one_batch_loader (epoch : nat) : list (nat * (nat * Q)) :=
  [(2, (1, 1%Q))].

(** A loader that yields a single sample although the dataset has two. *)
Definition short_loader (epoch : nat) : list (nat * (nat * Q)) :=
  [(1, (0, 1%Q))].

(** A disk with a label index of four rows: a square image, an image that
    is not square, a row whose label is not a class, and a row with neither
    a file nor a known label. *)
Definition disk : gmap string Xray2D.file :=
  <["data/siim_small/labels.csv"%string :=
      Xray2D.CsvFile [("a.dcm", "Pneumothorax"); ("b.dcm", "No Pneumothorax");
                      ("c.dcm", "Effusion"); ("d.dcm", "Effusion")]%string]>
  (<["data/siim_small/a.dcm"%string :=
      Xray2D.DicomFile {| Xray2D.Rows := 1024; Xray2D.Columns := 1024; Xray2D.format := Xray2D.Gray8 |}]>
  (<["data/siim_small/b.dcm"%string :=
      Xray2D.DicomFile {| Xray2D.Rows := 1024; Xray2D.Columns := 512; Xray2D.format := Xray2D.Gray8 |}]>
  (<["data/siim_small/c.dcm"%string :=
      Xray2D.DicomFile {| Xray2D.Rows := 1024; Xray2D.Columns := 1024; Xray2D.format := Xray2D.Gray8 |}]> ∅))).

Definition access (idx : Z) : result (Transforms.image * Z) :=
  ds ← Xray2D.train_dataset disk; Xray2D.getitem disk ds idx.

End Toy.

(** ** The other cells of the notebooks *)

Module Cells.
Import Transforms Xray2D.

(** *** Version strings *)

(** [s.split(sep)] for a separator of one character: the pieces between
    the occurrences of [sep], in order; there is always at least one. *)
Fixpoint split (sep : ascii) (s : string) : list string :=
  match s with
  | EmptyString => [EmptyString]
  | String c rest =>
      if decide (c = sep) then EmptyString :: split sep rest
      else match split sep rest with
           | [] => [String c EmptyString]
           | piece :: pieces => String c piece :: pieces
           end
  end.

(** [sep.join(parts)] *)
Fixpoint join (sep : string) (parts : list string) : string :=
  match parts with
  | [] => EmptyString
  | [p] => p
  | p :: rest => p +:+ sep +:+ join sep rest
  end.

(** [parts[-1]] *)
Definition last_item {A : Type} (parts : list A) : result A :=
  match last parts with
  | Some x => Ok x
  | None => Raise IndexError
  end.

(** [".".join(torch.__version__.split(".")[:2])] *)
Definition TORCH_VERSION (version : string) : string :=
  join "." (take 2 (split "." version)).

(** [torch.__version__.split("+")[-1]] *)
Definition CUDA_VERSION (version : string) : result string :=
  last_item (split "+" version).

Fixpoint count_char (c : ascii) (s : string) : nat :=
  match s with
  | EmptyString => 0
  | String c' rest => (if decide (c' = c) then 1 else 0) + count_char c rest
  end.

(** *** The class mapping of any list of class names *)

Definition idx_to_class_of (classes : list string) : gmap Z string :=
  dict_of (enumerate classes).

Definition class_to_idx_of (classes : list string) : gmap string Z :=
  dict_of (map (fun kv => (kv.2, kv.1)) (enumerate classes)).

(** *** The file lists of the 3D notebook and their split *)

(** A slice bound as Python clamps it for a sequence of length [len]. *)
Definition slice_bound (len : nat) (i : Z) : nat :=
  if (i <? 0)%Z then Z.to_nat (Z.max 0 (Z.of_nat len + i))
  else Z.to_nat (Z.min i (Z.of_nat len)).

(** [l[start:stop]], a bound left out being [None]. *)
Definition slice {A : Type} (start stop : option Z) (l : list A) : list A :=
  let a := match start with Some i => slice_bound (length l) i | None => 0 end in
  let b := match stop with Some i => slice_bound (length l) i | None => length l end in
  take (b - a) (drop a l).

Definition image_names : list string :=
  ["IXI314-IOP-0889-T1.nii.gz"; "IXI249-Guys-1072-T1.nii.gz";
   "IXI609-HH-2600-T1.nii.gz"; "IXI173-HH-1590-T1.nii.gz";
   "IXI020-Guys-0700-T1.nii.gz"; "IXI342-Guys-0909-T1.nii.gz";
   "IXI134-Guys-0780-T1.nii.gz"; "IXI577-HH-2661-T1.nii.gz";
   "IXI066-Guys-0731-T1.nii.gz"; "IXI130-HH-1528-T1.nii.gz";
   "IXI607-Guys-1097-T1.nii.gz"; "IXI175-HH-1570-T1.nii.gz";
   "IXI385-HH-2078-T1.nii.gz"; "IXI344-Guys-0905-T1.nii.gz";
   "IXI409-Guys-0960-T1.nii.gz"; "IXI584-Guys-1129-T1.nii.gz";
   "IXI253-HH-1694-T1.nii.gz"; "IXI092-HH-1436-T1.nii.gz";
   "IXI574-IOP-1156-T1.nii.gz"; "IXI585-Guys-1130-T1.nii.gz"]%string.

Definition datapath : string := os_path_join "data" "ixi".

(** [[os.sep.join([datapath, f]) for f in images]] *)
Definition image_paths (names : list string) : list string :=
  map (fun f => join "/" [datapath; f]) names.

Definition images : list string := image_paths image_names.

Definition labels : list Z :=
  [0; 0; 0; 1; 0; 0; 0; 1; 1; 0; 0; 0; 1; 0; 1; 0; 1; 0; 1; 0]%Z.

(** What the two datasets are given: [images[:10]], [labels[:10]] and
    [images[-10:]], [labels[-10:]]. *)
Definition train_part {A : Type} (l : list A) : list A := slice None (Some 10%Z) l.
Definition val_part {A : Type} (l : list A) : list A := slice (Some (-10)%Z) None l.

(** [dataset_sizes], a dataset being as long as its list of files. *)
Definition dataset_sizes (files : list string) (ph : phase) : nat :=
  match ph with
  | Train => length (train_part files)
  | Val => length (val_part files)
  end.

(** *** Pixel values: normalization and its inverse for display *)

(** Binary floating-point numbers as the rationals they are.  [round_float
    prec emin q] is the number with [prec] bits of precision and an
    exponent of at least [emin] that is nearest to [q], the one with an
    even last bit when two are equally near.  Overflow is left out: no
    pixel value comes near it. *)
Definition Qpow2 (e : Z) : Q := Qpower 2 e.

(** The exponent [e] with [2^e <= q < 2^(e+1)], for a positive [q]. *)
Definition Qfloor_log2 (q : Q) : Z :=
  let e := (Z.log2 (Qnum q) - Z.log2 (Zpos (Qden q)))%Z in
  if Qle_bool (Qpow2 e) q then e else (e - 1)%Z.

Definition round_half_even (q : Q) : Z :=
  let f := Qfloor q in
  match (q - inject_Z f ?= 1 # 2)%Q with
  | Lt => f
  | Gt => (f + 1)%Z
  | Eq => if Z.even f then f else (f + 1)%Z
  end.

Definition round_float (prec emin : Z) (q : Q) : Q :=
  if Qeq_bool q 0 then 0%Q
  else
    let e := Z.max (Qfloor_log2 (Qabs q)) emin in
    let ulp := Qpow2 (e - prec + 1) in
    (inject_Z (round_half_even (q / ulp)) * ulp)%Q.

Definition round32 (q : Q) : Q := Qred (round_float 24 (-126) q).
Definition round64 (q : Q) : Q := Qred (round_float 53 (-1022) q).

(** [ToTensor] on an 8-bit pixel divides the pixel as a 32-bit float by
    255; [Normalize(mean, std)] subtracts and divides in 32-bit floats; the
    two lines of [visualize_results] that undo it multiply and add in
    64-bit floats, [std] and [mean] being NumPy arrays of that type. *)
Definition to_tensor_pixel (v : Z) : Q := round32 (inject_Z v / 255).

Definition normalize_pixel (mean std x : Q) : Q :=
  round32 (round32 (x - mean) / std).

Definition denormalize_pixel (mean std x : Q) : Q :=
  round64 (round64 (std * x) + mean).

(** [np.clip(x, lo, hi)] *)
Definition clip (lo hi x : Q) : Q := Qmin (Qmax x lo) hi.

Definition display_pixel (x : Q) : Q :=
  clip 0 1 (denormalize_pixel (1 # 2) (1 # 2) x).

(** *** The display loops *)

(** [fig.add_subplot(nrows, ncols, index)]: the grid must not be empty and
    the index must name one of its cells, counted from 1. *)
Definition add_subplot (nrows ncols index : nat) : result unit :=
  if (nrows =? 0) || (ncols =? 0) then Raise ValueError
  else if (index =? 0) || (nrows * ncols <? index) then Raise ValueError
  else Ok ().

(** [a[idx]] on an array or tensor, for an index that is not negative. *)
Definition item {A : Type} (a : list A) (idx : nat) : result A :=
  match a !! idx with
  | Some x => Ok x
  | None => Raise IndexError
  end.

(** [d[k]] on a dictionary with integer keys. *)
Definition class_name (d : gmap Z string) (k : Z) : result string :=
  match d !! k with
  | Some c => Ok c
  | None => Raise (KeyError (pretty k))
  end.

(** [np.squeeze(a)]: the axes of extent 1 go. *)
Definition squeeze (shape : list nat) : list nat :=
  filter (fun n => n <> 1) shape.

(** [ax.imshow(a)]: the array is a grid of scalars, with or without a
    last axis of extent 1, or a grid of pixels of three or four values. *)
Definition imshow (shape : list nat) : result unit :=
  match shape with
  | [_; _] => Ok ()
  | [_; _; c] => if (c =? 1) || (c =? 3) || (c =? 4) then Ok () else Raise TypeError
  | _ => Raise TypeError
  end.

(** [t.permute(1, 2, 0)] on a tensor, which must have three axes. *)
Definition permute_1_2_0 (shape : list nat) : result (list nat) :=
  match shape with
  | [c; h; w] => Ok [h; w; c]
  | _ => Raise RuntimeError
  end.

(** One drawn subplot: its place in the grid, its title and, in
    [visualize_results], whether the title is green. *)
Record subplot_drawn : Type := {
  place : nat;
  title : string;
  green : bool
}.

(** The cell that plots the first batch with its labels. *)
Definition show_batch (d : gmap Z string) (batch_size : nat)
    (images : list image) (labels : list Z) : result (list subplot_drawn) :=
  for_each (seq 0 batch_size)
    (fun drawn idx =>
       _ ← add_subplot 2 (batch_size / 2) (idx + 1);
       im ← item images idx;
       _ ← imshow (squeeze (shape im));
       label ← item labels idx;
       name ← class_name d label;
       Ok (drawn ++ [{| place := idx + 1; title := name; green := false |}]))
    [].

(** [len(np.squeeze(preds))]: one prediction squeezes to a scalar, which
    has no length. *)
Definition squeezed_len (preds : list Z) : result nat :=
  match preds with
  | [_] => Raise TypeError
  | _ => Ok (length preds)
  end.

(** The plotting loop of [visualize_results], given the batch, the
    predictions and the labels. *)
Definition visualize_results (d : gmap Z string)
    (images : list image) (preds labels : list Z) : result (list subplot_drawn) :=
  n ← squeezed_len preds;
  for_each (seq 0 n)
    (fun drawn idx =>
       _ ← add_subplot 2 (n / 2) (idx + 1);
       image ← item images idx;
       image ← permute_1_2_0 (shape image);
       _ ← imshow image;
       pred ← item preds idx;
       pred_name ← class_name d pred;
       label ← item labels idx;
       label_name ← class_name d label;
       Ok (drawn ++ [{| place := idx + 1;
                        title := pred_name +:+ " (" +:+ label_name +:+ ")";
                        green := bool_decide (pred = label) |}]))
    [].

(** What one pass of each loop draws at an index, taken by itself. *)
Definition batch_plot (d : gmap Z string) (batch_size : nat)
    (images : list image) (labels : list Z) (idx : nat) : result subplot_drawn :=
  _ ← add_subplot 2 (batch_size / 2) (idx + 1);
  im ← item images idx;
  _ ← imshow (squeeze (shape im));
  label ← item labels idx;
  name ← class_name d label;
  Ok {| place := idx + 1; title := name; green := false |}.

Definition result_plot (d : gmap Z string) (n : nat)
    (images : list image) (preds labels : list Z) (idx : nat) : result subplot_drawn :=
  _ ← add_subplot 2 (n / 2) (idx + 1);
  image ← item images idx;
  image ← permute_1_2_0 (shape image);
  _ ← imshow image;
  pred ← item preds idx;
  pred_name ← class_name d pred;
  label ← item labels idx;
  label_name ← class_name d label;
  Ok {| place := idx + 1;
        title := pred_name +:+ " (" +:+ label_name +:+ ")";
        green := bool_decide (pred = label) |}.

(** *** The model set-up of the 2D notebook *)

(** A parameter as far as the set-up is concerned: its shape and whether
    it is trained. *)
Record parameter : Type := {
  p_shape : list nat;
  requires_grad : bool
}.

(** A network: its parameters by qualified name and, for the child modules
    that have the attribute [in_features], its value. *)
Record network : Type := {
  params : gmap string parameter;
  in_features : gmap string nat
}.

(** A new layer: the shapes of its parameters and its attribute
    [in_features], if it is of a kind that has one. *)
Record layer : Type := {
  layer_params : list (string * list nat);
  layer_in_features : option nat
}.

(** [for param in model.parameters(): param.requires_grad = False] *)
Definition freeze (m : network) : network :=
  {| params := (fun p => {| p_shape := p_shape p; requires_grad := false |})
                 <$> params m;
     in_features := in_features m |}.

(** Whether a qualified parameter name lies under a child module. *)
Definition under (child name : string) : bool :=
  String.prefix (child +:+ ".") name.

(** [model.child = layer]: the parameters under the child go, those of the
    new layer come, under the child's name and trainable; the attributes
    of the child are those of the new layer. *)
Definition set_child (child : string) (l : layer) (m : network) : network :=
  {| params :=
       foldr (fun kv acc =>
                <[child +:+ "." +:+ kv.1 :=
                    {| p_shape := kv.2; requires_grad := true |}]> acc)
             (filter (fun kv => under child kv.1 = false) (params m))
             (layer_params l);
     in_features :=
       match layer_in_features l with
       | Some n => <[child := n]> (in_features m)
       | None => delete child (in_features m)
       end |}.

(** [nn.Conv2d(in_channels, 64, kernel_size=7, ..., bias=False)] and
    [nn.Linear(num_ftrs, 2)] *)
Definition Conv2d (in_channels out_channels kernel : nat) : layer :=
  {| layer_params := [("weight"%string, [out_channels; in_channels; kernel; kernel])];
     layer_in_features := None |}.

Definition Linear (in_features out_features : nat) : layer :=
  {| layer_params := [("weight"%string, [out_features; in_features]);
                      ("bias"%string, [out_features])];
     layer_in_features := Some in_features |}.

(** [model.fc.in_features]: the attribute, which a network without a child
    [fc], or with one of another kind than a linear layer, does not
    have. *)
Definition fc_in_features (m : network) : result nat :=
  match in_features m !! "fc"%string with
  | Some n => Ok n
  | None => Raise AttributeError
  end.

(** A network with the layers of a ResNet at both ends. *)
Definition small_resnet : network :=
  {| params :=
       list_to_map
         [("conv1.weight", {| p_shape := [64; 3; 7; 7]; requires_grad := true |});
          ("bn1.weight", {| p_shape := [64]; requires_grad := true |});
          ("layer1.0.conv1.weight",
           {| p_shape := [64; 64; 3; 3]; requires_grad := true |});
          ("fc.weight", {| p_shape := [1000; 512]; requires_grad := true |});
          ("fc.bias", {| p_shape := [1000]; requires_grad := true |})]%string;
     in_features := {["fc"%string := 512]} |}.

(** The same network with an embedding in the place of the last layer: its
    weight has two axes and it has no attribute [in_features]. *)
Definition embedding_net : network :=
  {| params :=
       list_to_map
         [("conv1.weight", {| p_shape := [64; 3; 7; 7]; requires_grad := true |});
          ("fc.weight", {| p_shape := [10; 5]; requires_grad := true |})]%string;
     in_features := ∅ |}.

(** The cell: freeze the pretrained network, give it a first layer for one
    input channel and a last layer with two outputs. *)
Definition setup_model (pretrained : network) : result network :=
  let m := freeze pretrained in
  let in_channels := 1 in
  let m := set_child "conv1" (Conv2d in_channels 64 7) m in
  num_ftrs ← fc_in_features m;
  Ok (set_child "fc" (Linear num_ftrs 2) m).

(** *** The datasets of the 3D notebook *)

(** A Python sequence indexed by an integer: a negative index counts from
    the end, an index outside the sequence raises. *)
Definition py_index {A : Type} (l : list A) (idx : Z) : result A :=
  let n := Z.of_nat (length l) in
  let i := if (idx <? 0)%Z then (n + idx)%Z else idx in
  if (i <? 0)%Z then Raise IndexError
  else match l !! Z.to_nat i with
       | Some x => Ok x
       | None => Raise IndexError
       end.

(** MONAI's [ImageDataset], as the notebook constructs it: files, labels
    and a transform. *)
Record ImageDataset : Type := {
  image_files : list string;
  ds_labels : list Z;
  ds_transform : list tstep
}.

(** [ImageDataset.__len__] *)
Definition image_dataset_len (ds : ImageDataset) : nat := length (image_files ds).

(** The loader of the dataset reads the volume a file holds. *)
Definition LoadImage (disk : gmap string image) (path : string) : result image :=
  match disk !! path with
  | Some vol => Ok vol
  | None => Raise (FileNotFoundError path)
  end.

(** MONAI's [apply_transform]: whatever a transform raises is raised again
    as a [RuntimeError]. *)
Definition apply_transform {A : Type} (c : result A) : result A :=
  match c with
  | Ok a => Ok a
  | Raise _ => Raise RuntimeError
  end.

(** [ImageDataset.__getitem__]: load the image, transform it, then take
    the label.  [r] is what [RandRotate90] draws for this access. *)
Definition image_dataset_getitem (disk : gmap string image) (ds : ImageDataset)
    (r : draw) (index : Z) : result (image * Z) :=
  path ← py_index (image_files ds) index;
  img ← LoadImage disk path;
  img ← apply_transform (Compose (ds_transform ds) r img);
  label ← py_index (ds_labels ds) index;
  Ok (img, label).

(** The two datasets of the notebook, and the number of classes the
    network is built for ([out_channels=2]). *)
Definition train_ds : ImageDataset :=
  {| image_files := train_part images; ds_labels := train_part labels;
     ds_transform := train_transforms |}.

Definition val_ds : ImageDataset :=
  {| image_files := val_part images; ds_labels := val_part labels;
     ds_transform := val_transforms |}.

Definition out_channels : nat := 2.

(** *** Further observations of the traces of the loops *)

Definition is_mkdir {T : Type} (e : event T) : bool :=
  match e with
  | Os_mkdir _ => true
  | _ => false
  end.

Definition n_mkdirs {T : Type} (tr : list (event T)) : nat :=
  length (filter (fun e => is_mkdir e = true) tr).

(** The number of batches the loader of a phase yields in the first [k]
    passes. *)
Definition total_batches {B : Type} (loader : nat -> list B) (k : nat) : nat :=
  sum_list (map (fun e => length (loader e)) (seq 0 k)).

End Cells.

(** ** Whole runs of the small framework instance *)

Module ToyRuns.
Import Toy.

(** What the run of three epochs returns: the state after the third epoch
    with the closing line printed. *)
Definition final_state : Mri3D.state toy :=
  Mri3D.print toy (state_after 3)
    [Print_complete (Mri3D.best_metric toy (state_after 3))].

(** A disk with a label index of one row, whose image is square and has
    16-bit pixels. *)
Definition disk16 : gmap string Xray2D.file :=
  <["data/siim_small/labels.csv"%string :=
      Xray2D.CsvFile [("a.dcm", "Pneumothorax")]%string]>
  (<["data/siim_small/a.dcm"%string :=
      Xray2D.DicomFile {| Xray2D.Rows := 1024; Xray2D.Columns := 1024;
                          Xray2D.format := Xray2D.Gray16 |}]> ∅).

Definition access16 (idx : Z) : result (Transforms.image * Z) :=
  ds ← Xray2D.train_dataset disk16; Xray2D.getitem disk16 ds idx.

(** A disk that holds the last volume of the 3D notebook. *)
Definition volumes : gmap string Transforms.image :=
  {["data/ixi/IXI585-Guys-1130-T1.nii.gz"%string :=
      {| Transforms.kind := Transforms.NdArray;
         Transforms.dtype_of := Transforms.float32;
         Transforms.shape := [256; 256; 150] |}]}.

End ToyRuns.

(** * Properties *)

(** ** Sequencing *)

Lemma bind_Ok {A B : Type} (a : A) (k : A -> result B) :
  (Ok a ≫= k) = k a.
Proof. reflexivity. Qed.

Lemma bind_inv_Ok {A B : Type} (c : result A) (k : A -> result B) (b : B) :
  (c ≫= k) = Ok b -> exists a, c = Ok a /\ k a = Ok b.
Proof. destruct c as [a|e]; [eauto | discriminate]. Qed.

Lemma bind_ret_r {A : Type} (c : result A) : (c ≫= Ok) = c.
Proof. by destruct c. Qed.

Lemma result_Ok_default {A : Type} (c : result A) (d : A) :
  is_ok c = true -> c = Ok (match c with Ok a => a | Raise _ => d end).
Proof. by destruct c. Qed.

Lemma result_Ok_pair {A B : Type} (c : result (A * B)) (a : A) (b : B) :
  is_ok c = true ->
  c = Ok (match c with Ok (x, _) => x | Raise _ => a end,
          match c with Ok (_, y) => y | Raise _ => b end).
Proof. by destruct c as [[x y]|e]. Qed.

Lemma for_each_app {A S : Type} (l1 l2 : list A) (body : S -> A -> result S) (s : S) :
  for_each (l1 ++ l2) body s = (for_each l1 body s ≫= for_each l2 body).
Proof.
  revert s. induction l1 as [|x l1 IH]; intros s; simpl; [done|].
  destruct (body s x) as [s'|e]; simpl; [apply IH | done].
Qed.

Lemma for_each_snoc {A S : Type} (l : list A) (x : A) (body : S -> A -> result S) (s : S) :
  for_each (l ++ [x]) body s = (for_each l body s ≫= fun s' => body s' x).
Proof.
  rewrite for_each_app. destruct (for_each l body s) as [s'|e]; simpl; [|done].
  apply bind_ret_r.
Qed.

(** ** Transform chains *)

Section TransformFacts.
Import Transforms.

Lemma Compose_cons (s : tstep) (rest : list tstep) (r : draw) (im : image) :
  Compose (s :: rest) r im = (apply_step r s im ≫= Compose rest r).
Proof. reflexivity. Qed.

Lemma resized_square (size n : nat) :
  n <> 0 -> resized size n n = Ok (size, size).
Proof.
  intros Hn. unfold resized.
  rewrite Nat.leb_refl.
  destruct (Nat.eqb_spec n 0) as [->|_]; [done|].
  by rewrite Nat.div_mul.
Qed.

(** An 8-bit grayscale image with a square grid comes out of the 2D chain
    as a float tensor of one channel, 224 by 224. *)
Lemma data_transform_square (r : draw) (n : nat) :
  n <> 0 ->
  Compose data_transform r {| kind := PILImage; dtype_of := uint8; shape := [n; n] |}
  = Ok {| kind := TorchTensor; dtype_of := float32; shape := [1; 224; 224] |}.
Proof.
  intros Hn. unfold data_transform.
  rewrite Compose_cons. cbn [apply_step]. unfold tv_resize.
  cbn [kind shape dtype_of]. by rewrite resized_square.
Qed.

Lemma is_empty_3d (c h w d : nat) :
  c <> 0 -> h <> 0 -> w <> 0 -> d <> 0 -> is_empty [c; h; w; d] = false.
Proof. intros. unfold is_empty. simpl. by destruct c, h, w, d. Qed.

(** A volume that is not empty comes out of either 3D chain as a float
    tensor of one channel, 96 by 96 by 96, whatever rotation is drawn. *)
Lemma monai_chain_shape (training : bool) (r : draw) (k : container) (t : dtype)
    (h w d : nat) :
  h <> 0 -> w <> 0 -> d <> 0 ->
  Compose (if training then train_transforms else val_transforms) r
          {| kind := k; dtype_of := t; shape := [h; w; d] |}
  = Ok {| kind := TorchTensor; dtype_of := float32; shape := [1; 96; 96; 96] |}.
Proof.
  intros Hh Hw Hd. destruct h, w, d; try done.
  destruct training; [|reflexivity].
  destruct r as [q|]; [|reflexivity].
  cbn. unfold rot90; cbn. by destruct (Nat.even q).
Qed.

(** C4, amended.  The 3D chains run intensity scaling, channel insertion,
    spatial resize, the random quarter-turn rotation (training chain only)
    and tensor conversion, in this order.  The 2D chain runs the spatial
    resize first, then the tensor conversion (which also puts the channel in
    front and rescales), then the normalization; it has no rotation.  Each
    chain applies its steps one after the other, each to the previous
    result. *)
Theorem transform_chain_order :
  stages train_transforms = spec_stages true
  /\ stages val_transforms = spec_stages false
  /\ stages data_transform
     = [SpatialResize; TensorConversion; ChannelInsertion; IntensityScaling;
        IntensityScaling]
  /\ (forall r im,
        Compose train_transforms r im
        = (im1 ← apply_step r ScaleIntensity im;
           im2 ← apply_step r AddChannel im1;
           im3 ← apply_step r (Resize [96; 96; 96]) im2;
           im4 ← apply_step r RandRotate90 im3;
           apply_step r EnsureType im4))
  /\ (forall r im,
        Compose val_transforms r im
        = (im1 ← apply_step r ScaleIntensity im;
           im2 ← apply_step r AddChannel im1;
           im3 ← apply_step r (Resize [96; 96; 96]) im2;
           apply_step r EnsureType im3))
  /\ (forall r im,
        Compose data_transform r im
        = (im1 ← apply_step r (TV_Resize 224) im;
           im2 ← apply_step r TV_ToTensor im1;
           apply_step r (TV_Normalize [(1 # 2)%Q] [(1 # 2)%Q]) im2)).
Proof.
  repeat split; try reflexivity; intros r im.
  all: unfold train_transforms, val_transforms, data_transform;
    rewrite ?Compose_cons; cbn [Compose apply_step].
  all: repeat (let c := fresh "c" in
               match goal with
               | |- context [mbind _ ?x] => destruct x as [c|c] eqn:?; cbn [mbind result_bind]
               end; rewrite ?Compose_cons; cbn [Compose apply_step]); try done.
Qed.

(** The 2D chain is in neither of the orders the specification gives: its
    first stage is the resize. *)
Lemma data_transform_order_differs :
  stages data_transform <> spec_stages true
  /\ stages data_transform <> spec_stages false
  /\ head (stages data_transform) = Some SpatialResize.
Proof. repeat split; discriminate. Qed.

End TransformFacts.

(** ** The dataset of the 2D notebook *)

Section DatasetFacts.
Import Transforms Xray2D.

Lemma class_to_idx_lookup (lbl : string) :
  lbl ∈ classes ->
  exists k, class_to_idx !! lbl = Some k /\ (0 <= k < Z.of_nat (length classes))%Z.
Proof.
  unfold classes. rewrite !elem_of_cons, elem_of_nil.
  intros [->|[->|[]]]; eexists; (split; [reflexivity | simpl; lia]).
Qed.

Lemma class_to_idx_range (lbl : string) (k : Z) :
  class_to_idx !! lbl = Some k ->
  lbl ∈ classes /\ (0 <= k < Z.of_nat (length classes))%Z.
Proof.
  unfold class_to_idx, idx_to_class, classes, enumerate, dict_of. simpl.
  intros H.
  destruct (decide (lbl = "Pneumothorax"%string)) as [->|Hp].
  { rewrite lookup_insert_eq in H. injection H as <-. split; [set_solver | simpl; lia]. }
  rewrite lookup_insert_ne in H by congruence.
  destruct (decide (lbl = "No Pneumothorax"%string)) as [->|Hn].
  { rewrite lookup_insert_eq in H. injection H as <-. split; [set_solver | simpl; lia]. }
  rewrite lookup_insert_ne in H by congruence. by rewrite lookup_empty in H.
Qed.

Lemma fits_int64_spec (idx : Z) :
  fits_int64 idx = true <-> (- 2 ^ 63 <= idx < 2 ^ 63)%Z.
Proof.
  unfold fits_int64. rewrite andb_true_iff, Z.leb_le, Z.ltb_lt. tauto.
Qed.

Lemma fits_int64_nat (i : nat) :
  (Z.of_nat i < 2 ^ 63)%Z -> fits_int64 (Z.of_nat i) = true.
Proof. intros Hi. apply fits_int64_spec. lia. Qed.

Lemma iloc_nat {A : Type} (df : list A) (i : nat) (row : A) :
  df !! i = Some row ->
  (Z.of_nat i < 2 ^ 63)%Z ->
  iloc df (Z.of_nat i) = Ok row.
Proof.
  intros H Hi. unfold iloc. rewrite fits_int64_nat by done. cbv zeta.
  destruct (Z.ltb_spec (Z.of_nat i) 0) as [Hneg|_]; [lia|].
  destruct (Z.ltb_spec (Z.of_nat i) 0) as [Hneg|_]; [lia|].
  by rewrite Nat2Z.id, H.
Qed.

Lemma py_index_nat {A : Type} (l : list A) (i : nat) (x : A) :
  l !! i = Some x -> Cells.py_index l (Z.of_nat i) = Ok x.
Proof.
  intros H. unfold Cells.py_index. cbv zeta.
  destruct (Z.ltb_spec (Z.of_nat i) 0) as [Hneg|_]; [lia|].
  destruct (Z.ltb_spec (Z.of_nat i) 0) as [Hneg|_]; [lia|].
  by rewrite Nat2Z.id, H.
Qed.

(** An 8-bit image, gray or in colour, with a square grid comes out of the
    2D chain as a float tensor, 224 by 224 after its channels. *)
Lemma data_transform_8bit (px : pixel_array) :
  format px = Gray8 \/ format px = RGB8 ->
  Rows px = Columns px ->
  Rows px <> 0 ->
  exists c,
    Compose data_transform None (fromarray px)
    = Ok {| kind := TorchTensor; dtype_of := float32; shape := [c; 224; 224] |}.
Proof.
  intros Hfmt Hsq Hnz. unfold fromarray. rewrite <- Hsq.
  destruct (format px); [| by destruct Hfmt |].
  - exists 1. by apply data_transform_square.
  - exists 3. unfold data_transform.
    rewrite Compose_cons. cbn [apply_step]. unfold tv_resize.
    cbn [kind shape dtype_of]. by rewrite resized_square.
Qed.

(** The two datasets of the 3D notebook have ten files and ten labels
    each, and the labels are 0 or 1. *)
Lemma notebook_datasets (training : bool) :
  let ds := if training then Cells.train_ds else Cells.val_ds in
  length (Cells.image_files ds) = 10
  /\ length (Cells.ds_labels ds) = 10
  /\ Forall (fun y => (0 <= y < Z.of_nat Cells.out_channels)%Z) (Cells.ds_labels ds)
  /\ Cells.ds_transform ds = (if training then train_transforms else val_transforms).
Proof.
  destruct training; (split_and!; [reflexivity | reflexivity | | reflexivity]);
    vm_compute; repeat constructor; discriminate.
Qed.

Lemma train_dataset_fields (disk : gmap string file) (ds : DicomDataset) :
  train_dataset disk = Ok ds ->
  transform ds = Some (Compose data_transform None)
  /\ data_dir ds = notebook_data_dir
  /\ classmapper ds = class_to_idx.
Proof.
  unfold train_dataset, init. intros H.
  apply bind_inv_Ok in H as (df & _ & H). by injection H as <-.
Qed.

(** What [__getitem__] does once the row is found and the image decoded. *)
Lemma getitem_decoded (disk : gmap string file) (ds : DicomDataset) (idx : Z)
    (row : string * string) (px : pixel_array) :
  iloc (labels_df ds) idx = Ok row ->
  dcmread disk (os_path_join (data_dir ds) row.1) = Ok px ->
  getitem disk ds idx
  = (label ← match classmapper ds !! row.2 with
              | Some k => Ok k
              | None => Raise (KeyError row.2)
              end;
     image ← match transform ds with
              | Some t => t (fromarray px)
              | None => Ok (fromarray px)
              end;
     Ok (image, label)).
Proof.
  intros Hrow Hpx. unfold getitem. rewrite Hrow. simpl. by rewrite Hpx.
Qed.

(** C5, amended.  For every valid index of the 2D dataset whose row
    carries a label of the class list and whose image file decodes to a
    square, non-empty grid of 8-bit pixels, gray or in colour, access
    returns a tensor of spatial shape 224 by 224 and the integer the class
    mapping gives the label, which lies in [0, number of classes).  For
    every valid index of either dataset of the 3D notebook whose file
    loads as a volume of three axes that is not empty, access returns a
    tensor of spatial shape 96 by 96 by 96, whatever the rotation drawn,
    and a label in [0, number of classes). *)
Theorem getitem_valid_index :
  (forall (disk : gmap string file) (ds : DicomDataset) (i : nat)
          (path lbl : string) (px : pixel_array),
      train_dataset disk = Ok ds ->
      i < len ds ->
      (Z.of_nat (len ds) <= 2 ^ 63)%Z ->
      labels_df ds !! i = Some (path, lbl) ->
      lbl ∈ classes ->
      dcmread disk (os_path_join (data_dir ds) path) = Ok px ->
      format px = Gray8 \/ format px = RGB8 ->
      Rows px = Columns px ->
      Rows px <> 0 ->
      exists img k,
        getitem disk ds (Z.of_nat i) = Ok (img, k)
        /\ kind img = TorchTensor
        /\ spatial_shape img = [224; 224]
        /\ class_to_idx !! lbl = Some k
        /\ (0 <= k < Z.of_nat (length classes))%Z)
  /\ (forall (training : bool) (disk : gmap string image) (r : draw) (i : nat)
             (path : string) (vol : image) (h w d : nat),
        i < Cells.image_dataset_len (if training then Cells.train_ds else Cells.val_ds) ->
        Cells.image_files (if training then Cells.train_ds else Cells.val_ds) !! i
        = Some path ->
        disk !! path = Some vol ->
        shape vol = [h; w; d] ->
        h <> 0 -> w <> 0 -> d <> 0 ->
        exists img y,
          Cells.image_dataset_getitem disk
            (if training then Cells.train_ds else Cells.val_ds) r (Z.of_nat i)
          = Ok (img, y)
          /\ kind img = TorchTensor
          /\ spatial_shape img = [96; 96; 96]
          /\ (0 <= y < Z.of_nat Cells.out_channels)%Z).
Proof.
  split.
  - intros disk ds i path lbl px Hds Hi Hlen Hrow Hlbl Hpx Hfmt Hsq Hnz.
    apply train_dataset_fields in Hds as (Ht & Hdir & Hmap).
    destruct (class_to_idx_lookup lbl Hlbl) as (k & Hk & Hrange).
    destruct (data_transform_8bit px Hfmt Hsq Hnz) as [c Hc].
    exists {| kind := TorchTensor; dtype_of := float32; shape := [c; 224; 224] |}, k.
    split; [|split_and!; [reflexivity | reflexivity | exact Hk | apply Hrange..]].
    assert (Hiloc : iloc (labels_df ds) (Z.of_nat i) = Ok (path, lbl)).
    { apply iloc_nat; [done | lia]. }
    rewrite (getitem_decoded disk ds _ (path, lbl) px Hiloc Hpx).
    cbn [fst snd]. by rewrite Hmap, Ht, Hk, Hc.
  - intros training disk r i path vol h w d _ Hfile Hvol Hshape Hh Hw Hd.
    destruct (notebook_datasets training) as (Hfiles & Hlabels & Hrange & Htr).
    cbv zeta in Hfiles, Hlabels, Hrange, Htr.
    assert (Hi : i < 10).
    { rewrite <- Hfiles. by apply lookup_lt_Some in Hfile. }
    destruct (lookup_lt_is_Some_2
                (Cells.ds_labels (if training then Cells.train_ds else Cells.val_ds)) i)
      as [y Hy]; [lia|].
    exists {| kind := TorchTensor; dtype_of := float32; shape := [1; 96; 96; 96] |}, y.
    split; [|split_and!; [reflexivity | reflexivity | |]].
    + unfold Cells.image_dataset_getitem.
      rewrite (py_index_nat _ _ _ Hfile), bind_Ok.
      unfold Cells.LoadImage. rewrite Hvol, bind_Ok, Htr.
      destruct vol as [k t sh]. cbn [shape] in Hshape. subst sh.
      rewrite monai_chain_shape by done. cbn [Cells.apply_transform]. rewrite bind_Ok.
      by rewrite (py_index_nat _ _ _ Hy).
    + eapply Forall_lookup_1 in Hrange; [|exact Hy]. apply Hrange.
    + eapply Forall_lookup_1 in Hrange; [|exact Hy]. apply Hrange.
Qed.

Lemma getitem_valid_index_witness :
  (exists img k,
      getitem Toy.disk
        {| labels_df := [("a.dcm", "Pneumothorax"); ("b.dcm", "No Pneumothorax");
                         ("c.dcm", "Effusion"); ("d.dcm", "Effusion")]%string;
           transform := Some (Compose data_transform None);
           data_dir := notebook_data_dir;
           ds_classes := ["Pneumothorax"; "No Pneumothorax"; "Effusion"]%string;
           classmapper := class_to_idx |} (Z.of_nat 0) = Ok (img, k)
      /\ kind img = TorchTensor
      /\ spatial_shape img = [224; 224]
      /\ class_to_idx !! "Pneumothorax"%string = Some k
      /\ (0 <= k < Z.of_nat (length classes))%Z)
  /\ (exists img y,
        Cells.image_dataset_getitem ToyRuns.volumes Cells.val_ds (Some 1) (Z.of_nat 9)
        = Ok (img, y)
        /\ kind img = TorchTensor
        /\ spatial_shape img = [96; 96; 96]
        /\ (0 <= y < Z.of_nat Cells.out_channels)%Z).
Proof.
  split.
  - refine (proj1 getitem_valid_index Toy.disk _ 0 "a.dcm" "Pneumothorax"
              {| Rows := 1024; Columns := 1024; format := Gray8 |} _ _ _ _ _ _ _ _ _).
    + reflexivity.
    + unfold len. simpl. lia.
    + unfold len. simpl. lia.
    + reflexivity.
    + unfold classes. apply list_elem_of_In. simpl. tauto.
    + reflexivity.
    + by left.
    + reflexivity.
    + simpl. lia.
  - refine (proj2 getitem_valid_index false ToyRuns.volumes (Some 1) 9
              "data/ixi/IXI585-Guys-1130-T1.nii.gz"
              {| kind := NdArray; dtype_of := float32; shape := [256; 256; 150] |}
              256 256 150 _ _ _ _ _ _ _).
    + vm_compute. lia.
    + vm_compute. reflexivity.
    + vm_compute. reflexivity.
    + reflexivity.
    + lia.
    + lia.
    + lia.
Defined.

(** A valid index need not yield a sample, and a sample need not have the
    target shape: row 2 carries a label outside the class mapping, the
    image of row 1 is 1024 by 512, and a square image of 16-bit pixels is
    refused by the normalization, which wants a float tensor. *)
Lemma getitem_valid_index_fails :
  2 < 4
  /\ Toy.access 2 = Raise (KeyError "Effusion")
  /\ Toy.access 1
     = Ok ({| kind := TorchTensor; dtype_of := float32; shape := [1; 448; 224] |}, 0%Z)
  /\ ToyRuns.access16 0 = Raise TypeError.
Proof. split; [lia | split_and!; reflexivity]. Qed.

(** C6, amended.  An access whose row carries a label that is not a key of
    the class mapping returns no sample.  It fails with the lookup error
    when the image file of the row decodes; when it does not, the decode
    error comes first, the image being loaded before the label is mapped. *)
Theorem getitem_unknown_label (disk : gmap string file) (ds : DicomDataset)
    (idx : Z) (row : string * string) :
  iloc (labels_df ds) idx = Ok row ->
  classmapper ds !! row.2 = None ->
  is_ok (getitem disk ds idx) = false
  /\ (forall px, dcmread disk (os_path_join (data_dir ds) row.1) = Ok px ->
                 getitem disk ds idx = Raise (KeyError row.2))
  /\ (forall e, dcmread disk (os_path_join (data_dir ds) row.1) = Raise e ->
                getitem disk ds idx = Raise e).
Proof.
  intros Hrow Hkey.
  assert (Hok : forall px,
             dcmread disk (os_path_join (data_dir ds) row.1) = Ok px ->
             getitem disk ds idx = Raise (KeyError row.2)).
  { intros px Hpx. rewrite (getitem_decoded disk ds idx row px Hrow Hpx).
    by rewrite Hkey. }
  assert (Herr : forall e,
             dcmread disk (os_path_join (data_dir ds) row.1) = Raise e ->
             getitem disk ds idx = Raise e).
  { intros e He. unfold getitem. rewrite Hrow. simpl. by rewrite He. }
  split; [|by split].
  destruct (dcmread disk (os_path_join (data_dir ds) row.1)) as [px|e] eqn:Hd.
  - by rewrite (Hok px).
  - by rewrite (Herr e).
Qed.

Lemma getitem_unknown_label_witness :
  is_ok (Toy.access 2) = false
  /\ Toy.access 2 = Raise (KeyError "Effusion").
Proof.
  pose proof (getitem_unknown_label Toy.disk
    {| labels_df := [("a.dcm", "Pneumothorax"); ("b.dcm", "No Pneumothorax");
                     ("c.dcm", "Effusion"); ("d.dcm", "Effusion")]%string;
       transform := Some (Compose data_transform None);
       data_dir := notebook_data_dir;
       ds_classes := ["Pneumothorax"; "No Pneumothorax"; "Effusion"]%string;
       classmapper := class_to_idx |} 2 ("c.dcm", "Effusion")%string
    eq_refl eq_refl) as (H1 & H2 & _).
  split; [exact H1|].
  exact (H2 {| Rows := 1024; Columns := 1024; format := Gray8 |} eq_refl).
Defined.

(** Row 3 carries an unknown label and names a file that does not exist:
    the access fails, but not with a lookup error. *)
Lemma getitem_unknown_label_decode_first :
  Toy.access 3 = Raise (FileNotFoundError "data/siim_small/d.dcm")
  /\ is_lookup_error (FileNotFoundError "data/siim_small/d.dcm") = false.
Proof. split; reflexivity. Qed.

End DatasetFacts.

(** ** Counters and averages *)

Lemma Qnat_nonneg (n : nat) : (0 <= Qnat n)%Q.
Proof. unfold Qnat, Qle. simpl. lia. Qed.

Lemma Qnat_pos (n : nat) : n <> 0 -> (0 < Qnat n)%Q.
Proof. intros Hn. unfold Qnat, Qlt. simpl. lia. Qed.

Lemma Qnat_nonzero (n : nat) : n <> 0 -> ~ (Qnat n == 0)%Q.
Proof. intros Hn H. apply Qnat_pos in Hn. rewrite H in Hn. by apply Qlt_irrefl in Hn. Qed.

Lemma Qnat_inj (m n : nat) : (Qnat m == Qnat n)%Q -> m = n.
Proof. unfold Qnat, Qeq. simpl. lia. Qed.

Lemma Qnat_mult (m n : nat) : (Qnat (m * n) == Qnat m * Qnat n)%Q.
Proof. unfold Qnat. rewrite Nat2Z.inj_mul, inject_Z_mult. reflexivity. Qed.

Lemma accuracy_nonneg (c size : nat) : (0 <= Qnat c / Qnat size)%Q.
Proof.
  destruct (decide (size = 0)) as [->|Hs].
  - unfold Qdiv, Qinv, Qnat. simpl. rewrite Qmult_0_r. apply Qle_refl.
  - apply Qle_shift_div_l; [by apply Qnat_pos|].
    rewrite Qmult_0_l. apply Qnat_nonneg.
Qed.

Lemma weighted_loss_sum_cons (b : batch_record) (log : list batch_record) :
  weighted_loss_sum (b :: log) = (b_loss b * Qnat (b_size b) + weighted_loss_sum log)%Q.
Proof. reflexivity. Qed.

Lemma corrects_seen_cons (b : batch_record) (log : list batch_record) :
  corrects_seen (b :: log) = b_corrects b + corrects_seen log.
Proof. reflexivity. Qed.

Lemma epoch_stats_Ok (rl : Q) (rc : counter) (size : nat) (loss acc : Q) :
  epoch_stats rl rc size = Ok (loss, acc) ->
  size <> 0 /\ loss = (rl / Qnat size)%Q
  /\ exists c, rc = TensorCount c /\ acc = (Qnat c / Qnat size)%Q.
Proof.
  unfold epoch_stats. destruct (Nat.eqb_spec size 0) as [|Hs]; [done|].
  destruct rc as [|c]; [done|]. intros [= <- <-]. eauto.
Qed.

Lemma epoch_stats_total (rl : Q) (c size : nat) :
  size <> 0 ->
  epoch_stats rl (TensorCount c) size = Ok ((rl / Qnat size)%Q, (Qnat c / Qnat size)%Q).
Proof.
  intros Hs. unfold epoch_stats. by destruct (Nat.eqb_spec size 0).
Qed.

(** ** The training loop of the 3D notebook *)

Section Loop3DFacts.
Import Mri3D.
Context (F : Framework).

Implicit Types (st : state F) (ph : phase) (bs : list (Inputs F * Labels F)).
Implicit Types (tr : list (event (Tensor F))).

Lemma val_accs_app tr1 tr2 : val_accs F (tr1 ++ tr2) = val_accs F tr1 ++ val_accs F tr2.
Proof. apply omap_app. Qed.

Lemma forward_flags_app tr1 tr2 :
  forward_flags F (tr1 ++ tr2) = forward_flags F tr1 ++ forward_flags F tr2.
Proof. apply omap_app. Qed.

Lemma n_saves_app tr1 tr2 : n_saves F (tr1 ++ tr2) = n_saves F tr1 + n_saves F tr2.
Proof. unfold n_saves. by rewrite filter_app, length_app. Qed.

Lemma n_steps_app tr1 tr2 : n_steps F (tr1 ++ tr2) = n_steps F tr1 + n_steps F tr2.
Proof. unfold n_steps. by rewrite filter_app, length_app. Qed.

Lemma n_saves_cons (e : event (Tensor F)) tr :
  n_saves F (e :: tr) = (if is_save F e then 1 else 0) + n_saves F tr.
Proof.
  unfold n_saves. rewrite filter_cons.
  destruct (is_save F e); by case_decide.
Qed.

Lemma n_steps_cons (e : event (Tensor F)) tr :
  n_steps F (e :: tr) = (if is_step F e then 1 else 0) + n_steps F tr.
Proof.
  unfold n_steps. rewrite filter_cons.
  destruct (is_step F e); by case_decide.
Qed.

Lemma n_saves_nil : n_saves F [] = 0.
Proof. reflexivity. Qed.

Lemma n_steps_nil : n_steps F [] = 0.
Proof. reflexivity. Qed.

Lemma pass_calls_observed ph (n : nat) :
  val_accs F (pass_calls F ph n) = []
  /\ n_saves F (pass_calls F ph n) = 0
  /\ forward_flags F (pass_calls F ph n) = replicate n (bool_decide (ph = Train))
  /\ n_steps F (pass_calls F ph n) = if bool_decide (ph = Train) then n else 0.
Proof.
  induction n as [|n (IH1 & IH2 & IH3 & IH4)]; [by destruct ph|].
  cbn [pass_calls].
  rewrite val_accs_app, n_saves_app, forward_flags_app, n_steps_app, IH1, IH2, IH3, IH4.
  by destruct ph.
Qed.

Lemma batch_body_eq ph st (data : Inputs F * Labels F) (rl : Q) (rc : counter) :
  batch_body F ph st data rl rc
  = ((batch_body F ph st data 0%Q IntZero).1.1,
     (rl + b_loss (batch_record_3d F ph st data)
           * Qnat (b_size (batch_record_3d F ph st data)))%Q,
     counter_add rc (b_corrects (batch_record_3d F ph st data))).
Proof.
  unfold batch_body, batch_record_3d.
  destruct (forward F (model F st) (bool_decide (ph = Train)) data.1) as [outputs bufs].
  destruct (bool_decide (ph = Train)); [|reflexivity].
  by destruct (step F _ _ _).
Qed.

Lemma batch_body_state ph st (data : Inputs F * Labels F) :
  let st' := (batch_body F ph st data 0%Q IntZero).1.1 in
  best_metric F st' = best_metric F st
  /\ fs F st' = fs F st
  /\ trace F st' = trace F st ++ batch_calls F ph
  /\ (ph = Val -> parameters (model F st') = parameters (model F st)
                  /\ optimizer F st' = optimizer F st).
Proof.
  unfold batch_body, batch_calls.
  destruct (forward F (model F st) (bool_decide (ph = Train)) data.1) as [outputs bufs].
  destruct ph; simpl.
  - destruct (step F _ _ _); simpl. by split_and!.
  - by split_and!.
Qed.

Lemma batch_loop_cons ph (data : Inputs F * Labels F) bs st (rl : Q) (rc : counter) :
  batch_loop F ph (data :: bs) st rl rc
  = batch_loop F ph bs (batch_body F ph st data 0%Q IntZero).1.1
      (rl + b_loss (batch_record_3d F ph st data)
            * Qnat (b_size (batch_record_3d F ph st data)))%Q
      (counter_add rc (b_corrects (batch_record_3d F ph st data))).
Proof. cbn [batch_loop]. by rewrite batch_body_eq. Qed.

(** The pass over the batches leaves the best metric and the file system
    alone, and adds framework calls only. *)
Lemma batch_loop_state ph bs st (rl : Q) (rc : counter) :
  let st' := (batch_loop F ph bs st rl rc).1.1 in
  best_metric F st' = best_metric F st
  /\ fs F st' = fs F st
  /\ trace F st' = trace F st ++ pass_calls F ph (length bs)
  /\ (ph = Val -> parameters (model F st') = parameters (model F st)
                  /\ optimizer F st' = optimizer F st).
Proof.
  revert st rl rc. induction bs as [|data bs IH]; intros st rl rc.
  { simpl. rewrite app_nil_r. by split_and!. }
  rewrite batch_loop_cons. cbv zeta.
  destruct (IH (batch_body F ph st data 0%Q IntZero).1.1
               (rl + b_loss (batch_record_3d F ph st data)
                     * Qnat (b_size (batch_record_3d F ph st data)))%Q
               (counter_add rc (b_corrects (batch_record_3d F ph st data))))
    as (IHb & IHf & IHt & IHp).
  destruct (batch_body_state ph st data) as (Hb & Hf & Ht & Hp).
  split_and!.
  - by rewrite IHb.
  - by rewrite IHf.
  - rewrite IHt, Ht. cbn [length pass_calls]. by rewrite <- app_assoc.
  - intros Hval. destruct (IHp Hval) as [-> ->]. by apply Hp.
Qed.

(** The accumulated loss is the sum of the per-batch losses weighted by the
    batch sizes. *)
Lemma batch_loop_running_loss ph bs st (rl : Q) (rc : counter) :
  ((batch_loop F ph bs st rl rc).1.2
   == rl + weighted_loss_sum (batch_log_3d F ph bs st))%Q.
Proof.
  revert st rl rc. induction bs as [|data bs IH]; intros st rl rc.
  { simpl. ring. }
  rewrite batch_loop_cons, IH. cbn [batch_log_3d].
  rewrite weighted_loss_sum_cons. ring.
Qed.

Lemma batch_loop_running_corrects ph bs st (rl : Q) (c : nat) :
  (batch_loop F ph bs st rl (TensorCount c)).2
  = TensorCount (c + corrects_seen (batch_log_3d F ph bs st)).
Proof.
  revert st rl c. induction bs as [|data bs IH]; intros st rl c.
  { simpl. by rewrite Nat.add_0_r. }
  rewrite batch_loop_cons. cbn [counter_add]. rewrite IH.
  cbn [batch_log_3d]. by rewrite corrects_seen_cons, Nat.add_assoc.
Qed.

Lemma batch_loop_corrects_from_zero ph bs st (rl : Q) :
  bs <> [] ->
  (batch_loop F ph bs st rl IntZero).2
  = TensorCount (corrects_seen (batch_log_3d F ph bs st)).
Proof.
  destruct bs as [|data bs]; [done|]. intros _.
  rewrite batch_loop_cons. cbn [counter_add].
  by rewrite batch_loop_running_corrects.
Qed.

(** *** One phase *)

Lemma run_phase_Ok (dl : phase -> nat -> list (Inputs F * Labels F))
    (sizes : phase -> nat) (epoch : nat) ph st st' (loss acc : Q) :
  run_phase F dl sizes epoch ph st = Ok (st', loss, acc) ->
  sizes ph <> 0
  /\ dl ph epoch <> []
  /\ st' = print F (batch_loop F ph (dl ph epoch) (set_mode F ph st) 0%Q IntZero).1.1
                 [Print_stats (Some ph) loss acc]
  /\ loss = ((batch_loop F ph (dl ph epoch) (set_mode F ph st) 0%Q IntZero).1.2
             / Qnat (sizes ph))%Q
  /\ acc = (Qnat (corrects_seen (batch_log_3d F ph (dl ph epoch) (set_mode F ph st)))
            / Qnat (sizes ph))%Q.
Proof.
  unfold run_phase. intros H.
  pose proof (batch_loop_corrects_from_zero ph (dl ph epoch) (set_mode F ph st) 0%Q) as Hc.
  destruct (batch_loop F ph (dl ph epoch) (set_mode F ph st) 0%Q IntZero)
    as [[st1 rl] rc] eqn:Hloop.
  apply bind_inv_Ok in H as ([l a] & Hstats & H).
  injection H as <- <- <-.
  apply epoch_stats_Ok in Hstats as (Hsize & -> & c & -> & ->).
  assert (Hbs : dl ph epoch <> []).
  { intros Hnil. rewrite Hnil in Hloop. simpl in Hloop. congruence. }
  specialize (Hc Hbs). simpl in Hc. injection Hc as ->.
  by split_and!.
Qed.

Lemma run_phase_total (dl : phase -> nat -> list (Inputs F * Labels F))
    (sizes : phase -> nat) (epoch : nat) ph st :
  sizes ph <> 0 -> dl ph epoch <> [] ->
  exists st' loss acc, run_phase F dl sizes epoch ph st = Ok (st', loss, acc).
Proof.
  intros Hsize Hbs. unfold run_phase.
  pose proof (batch_loop_corrects_from_zero ph (dl ph epoch) (set_mode F ph st) 0%Q Hbs) as Hc.
  destruct (batch_loop F ph (dl ph epoch) (set_mode F ph st) 0%Q IntZero)
    as [[st1 rl] rc]. simpl in Hc. subst rc.
  rewrite epoch_stats_total by done. simpl. eauto.
Qed.

(** What a phase leaves alone and what it adds to the trace. *)
Lemma run_phase_state (dl : phase -> nat -> list (Inputs F * Labels F))
    (sizes : phase -> nat) (epoch : nat) ph st st' (loss acc : Q) :
  run_phase F dl sizes epoch ph st = Ok (st', loss, acc) ->
  best_metric F st' = best_metric F st
  /\ fs F st' = fs F st
  /\ trace F st'
     = trace F st
         ++ [if bool_decide (ph = Train) then Call_train else Call_eval]
         ++ pass_calls F ph (length (dl ph epoch))
         ++ [Print_stats (Some ph) loss acc]
  /\ (ph = Val -> parameters (model F st') = parameters (model F st)
                  /\ optimizer F st' = optimizer F st)
  /\ (0 <= acc)%Q.
Proof.
  intros H. apply run_phase_Ok in H as (_ & _ & -> & _ & ->).
  destruct (batch_loop_state ph (dl ph epoch) (set_mode F ph st) 0%Q IntZero)
    as (Hb & Hf & Ht & Hp).
  cbn [print best_metric fs trace model optimizer].
  split_and!.
  - by rewrite Hb.
  - by rewrite Hf.
  - rewrite Ht. cbn [set_mode trace]. by rewrite <- !app_assoc.
  - intros Hval. by destruct (Hp Hval) as [-> ->].
  - apply accuracy_nonneg.
Qed.

(** *** The checkpoint block *)

Lemma save_if_best_Train (acc : Q) st : save_if_best F Train acc st = st.
Proof. reflexivity. Qed.

Lemma save_if_best_Val (acc : Q) st :
  let st' := save_if_best F Val acc st in
  best_metric F st' = Qmax (best_metric F st) acc
  /\ model F st' = model F st
  /\ optimizer F st' = optimizer F st
  /\ exists tr,
       trace F st' = trace F st ++ tr
       /\ val_accs F tr = []
       /\ forward_flags F tr = []
       /\ n_steps F tr = 0
       /\ (((best_metric F st < acc)%Q
            /\ n_saves F tr = 1
            /\ best_metric F st' = acc
            /\ files (fs F st') !! checkpoint_path
               = Some (BoundMethod (model F st) "state_dict"))
           \/ (~ (best_metric F st < acc)%Q /\ tr = [] /\ st' = st)).
Proof.
  assert (Hno : (best_metric F st ?= acc)%Q <> Lt -> ~ (best_metric F st < acc)%Q).
  { intros Hne Hlt. by apply Qlt_alt in Hlt. }
  unfold save_if_best, Qmax, GenericMinMax.gmax.
  rewrite (bool_decide_eq_true_2 (Val = Val)) by done. cbv zeta.
  destruct (best_metric F st ?= acc)%Q eqn:Hcmp.
  - split_and!; try done. exists []. rewrite app_nil_r.
    split_and!; try done. right. split_and!; try done. by apply Hno.
  - apply Qlt_alt in Hcmp. split_and!; try done.
    eexists. split; [reflexivity|].
    destruct (os_path_exists (fs F st) models_dir);
      (split_and!; try done; left; split_and!; try done;
       cbn [fs torch_save files]; by rewrite lookup_insert_eq).
  - split_and!; try done. exists []. rewrite app_nil_r.
    split_and!; try done. right. split_and!; try done. by apply Hno.
Qed.

(** *** One epoch *)

Lemma phase_body_Ok (dl : phase -> nat -> list (Inputs F * Labels F))
    (sizes : phase -> nat) (epoch : nat) st ph st' :
  phase_body F dl sizes epoch st ph = Ok st' ->
  exists st1 loss acc,
    run_phase F dl sizes epoch ph st = Ok (st1, loss, acc)
    /\ st' = save_if_best F ph acc st1.
Proof.
  unfold phase_body. intros H.
  apply bind_inv_Ok in H as ([[st1 loss] acc] & Hrun & H).
  injection H as <-. eauto.
Qed.

Lemma epoch_body_Ok (dl : phase -> nat -> list (Inputs F * Labels F))
    (sizes : phase -> nat) (N : nat) st (epoch : nat) st' :
  epoch_body F dl sizes N st epoch = Ok st' ->
  exists st1 l1 a1 st2 l2 acc,
    run_phase F dl sizes epoch Train
      (print F st [Print_epoch epoch (Z.of_nat N - 1); Print_rule]) = Ok (st1, l1, a1)
    /\ run_phase F dl sizes epoch Val st1 = Ok (st2, l2, acc)
    /\ st' = save_if_best F Val acc st2.
Proof.
  unfold epoch_body. cbn [for_each]. intros H.
  apply bind_inv_Ok in H as (sa & Ha & H).
  apply bind_inv_Ok in H as (sb & Hb & H). injection H as <-.
  apply phase_body_Ok in Ha as (st1 & l1 & a1 & Hrun1 & ->).
  apply phase_body_Ok in Hb as (st2 & l2 & acc & Hrun2 & ->).
  rewrite save_if_best_Train in Hrun2. by exists st1, l1, a1, st2, l2, acc.
Qed.

(** What one epoch does to the best metric, to the validation accuracies
    printed and to the number of checkpoint writes. *)
Lemma epoch_body_summary (dl : phase -> nat -> list (Inputs F * Labels F))
    (sizes : phase -> nat) (N : nat) st (epoch : nat) st' :
  epoch_body F dl sizes N st epoch = Ok st' ->
  exists acc,
    (0 <= acc)%Q
    /\ val_accs F (trace F st') = val_accs F (trace F st) ++ [acc]
    /\ best_metric F st' = Qmax (best_metric F st) acc
    /\ (((best_metric F st < acc)%Q
         /\ n_saves F (trace F st') = S (n_saves F (trace F st))
         /\ best_metric F st' = acc
         /\ files (fs F st') !! checkpoint_path
            = Some (BoundMethod (model F st') "state_dict"))
        \/ (~ (best_metric F st < acc)%Q
            /\ n_saves F (trace F st') = n_saves F (trace F st))).
Proof.
  intros H.
  apply epoch_body_Ok in H as (st1 & l1 & a1 & st2 & l2 & acc & Hrun1 & Hrun2 & ->).
  apply run_phase_state in Hrun1 as (Hb1 & _ & Ht1 & _ & _).
  apply run_phase_state in Hrun2 as (Hb2 & _ & Ht2 & _ & Hacc).
  cbn [print best_metric trace] in Hb1, Ht1.
  destruct (pass_calls_observed Train (length (dl Train epoch))) as (Va1 & Sa1 & _ & _).
  destruct (pass_calls_observed Val (length (dl Val epoch))) as (Va2 & Sa2 & _ & _).
  assert (Hbest : best_metric F st2 = best_metric F st) by congruence.
  assert (Hva : val_accs F (trace F st2) = val_accs F (trace F st) ++ [acc]).
  { rewrite Ht2, Ht1. rewrite !val_accs_app, Va1, Va2. cbn. by rewrite !app_nil_r. }
  assert (Hns : n_saves F (trace F st2) = n_saves F (trace F st)).
  { rewrite Ht2, Ht1. rewrite !n_saves_app, Sa1, Sa2.
    rewrite !n_saves_cons, !n_saves_nil. simpl. lia. }
  destruct (save_if_best_Val acc st2) as (Hmax & Hm & _ & tr & Htr & Vtr & _ & _ & Hcase).
  exists acc. rewrite Htr, val_accs_app, Vtr, app_nil_r, n_saves_app, Hmax, Hbest, Hva, Hns.
  split_and!; try done.
  destruct Hcase as [(Hlt & Hn & Hacc' & Hfile) | (Hge & -> & _)].
  - left. rewrite Hbest in Hlt. rewrite Hm.
    split_and!; [done | lia | by rewrite <- Hbest, <- Hmax | done].
  - right. rewrite Hbest in Hge. split; [done | cbn; lia].
Qed.

(** *** The run *)

Lemma epochs_snoc (dl : phase -> nat -> list (Inputs F * Labels F))
    (sizes : phase -> nat) (N e n : nat) st0 :
  for_each (seq e (S n)) (epoch_body F dl sizes N) st0
  = (for_each (seq e n) (epoch_body F dl sizes N) st0
       ≫= fun s => epoch_body F dl sizes N s (e + n)).
Proof. by rewrite seq_S, for_each_snoc. Qed.

Lemma after_epochs_S (dl : phase -> nat -> list (Inputs F * Labels F))
    (sizes : phase -> nat) (N k : nat) st0 :
  after_epochs F dl sizes N (S k) st0
  = (after_epochs F dl sizes N k st0 ≫= fun s => epoch_body F dl sizes N s k).
Proof. unfold after_epochs. by rewrite epochs_snoc. Qed.

Lemma after_epochs_S_inv (dl : phase -> nat -> list (Inputs F * Labels F))
    (sizes : phase -> nat) (N k : nat) st0 s' :
  after_epochs F dl sizes N (S k) st0 = Ok s' ->
  exists s, after_epochs F dl sizes N k st0 = Ok s
            /\ epoch_body F dl sizes N s k = Ok s'.
Proof. rewrite after_epochs_S. apply bind_inv_Ok. Qed.

(** Over any stretch of epochs: one validation accuracy is printed per
    epoch, none is negative, and the best metric is the largest of its
    starting value and these accuracies. *)
Lemma epochs_invariant (dl : phase -> nat -> list (Inputs F * Labels F))
    (sizes : phase -> nat) (N e n : nat) st0 s :
  for_each (seq e n) (epoch_body F dl sizes N) st0 = Ok s ->
  exists accs,
    val_accs F (trace F s) = val_accs F (trace F st0) ++ accs
    /\ length accs = n
    /\ Forall (fun a => (0 <= a)%Q) accs
    /\ (best_metric F st0 <= best_metric F s)%Q
    /\ (forall q, (best_metric F s < q)%Q
                  <-> (best_metric F st0 < q)%Q /\ Forall (fun a => (a < q)%Q) accs).
Proof.
  revert s. induction n as [|n IH]; intros s H.
  { simplify_eq/=. exists []. rewrite app_nil_r.
    split_and!; try done; [apply Qle_refl |].
    intros q. split; [intros Hq; split; [done | constructor] | by intros [Hq _]]. }
  rewrite epochs_snoc in H. apply bind_inv_Ok in H as (s1 & H1 & H).
  destruct (IH s1 H1) as (accs & Hva & Hlen & Hpos & Hle & Hlt).
  apply epoch_body_summary in H as (acc & Hacc & Hva' & Hmax & _).
  exists (accs ++ [acc]). split_and!.
  - by rewrite Hva', Hva, app_assoc.
  - rewrite length_app. simpl. lia.
  - apply Forall_app. split; [done | by constructor].
  - rewrite Hmax. eapply Qle_trans; [exact Hle | apply Q.le_max_l].
  - intros q. rewrite Hmax, Q.max_lub_lt_iff, Hlt, Forall_app, Forall_singleton.
    tauto.
Qed.

Lemma epochs_prefix (dl : phase -> nat -> list (Inputs F * Labels F))
    (sizes : phase -> nat) (N j k : nat) st0 sk :
  j <= k ->
  after_epochs F dl sizes N k st0 = Ok sk ->
  exists sj, after_epochs F dl sizes N j st0 = Ok sj
             /\ for_each (seq j (k - j)) (epoch_body F dl sizes N) sj = Ok sk.
Proof.
  intros Hjk. unfold after_epochs.
  replace k with (j + (k - j)) at 1 by lia.
  rewrite seq_app, for_each_app. intros H.
  apply bind_inv_Ok in H as (sj & Hj & H). by exists sj.
Qed.

(** *** Checkpoint decisions *)

Lemma init_state_observed (m : Net (Tensor F)) (opt : Optimizer F)
    (g0 : Grads F) (fs0 : filesystem (Tensor F)) :
  val_accs F (trace F (init_state F m opt g0 fs0)) = []
  /\ n_saves F (trace F (init_state F m opt g0 fs0)) = 0
  /\ best_metric F (init_state F m opt g0 fs0) = (-1)%Q.
Proof. by split_and!. Qed.

Lemma below_nonneg (q : Q) : (0 <= q)%Q -> (-1 < q)%Q.
Proof. intros H. eapply Qlt_le_trans; [|exact H]. reflexivity. Qed.

(** In a run from the initial state, the checkpoint of an epoch is written
    exactly when its validation accuracy exceeds those of all the epochs
    before it. *)
Lemma checkpoint_decision (m : Net (Tensor F)) (opt : Optimizer F)
    (dl : phase -> nat -> list (Inputs F * Labels F)) (sizes : phase -> nat)
    (g0 : Grads F) (fs0 : filesystem (Tensor F)) (N e : nat) (s s' : state F) :
  after_epochs F dl sizes N e (init_state F m opt g0 fs0) = Ok s ->
  epoch_body F dl sizes N s e = Ok s' ->
  exists acc,
    val_accs F (trace F s') = val_accs F (trace F s) ++ [acc]
    /\ length (val_accs F (trace F s)) = e
    /\ (n_saves F (trace F s') = S (n_saves F (trace F s))
        <-> Forall (fun a => (a < acc)%Q) (val_accs F (trace F s)))
    /\ (n_saves F (trace F s') = n_saves F (trace F s)
        \/ n_saves F (trace F s') = S (n_saves F (trace F s))).
Proof.
  intros Hs Hs'.
  apply epochs_invariant in Hs as (accs & Hva & Hlen & _ & _ & Hlt).
  destruct (init_state_observed m opt g0 fs0) as (Hva0 & _ & Hb0).
  rewrite Hva0 in Hva. simpl in Hva. rewrite Hb0 in Hlt.
  apply epoch_body_summary in Hs' as (acc & Hacc & Hva' & _ & Hcase).
  exists acc. rewrite Hva. split_and!; [by rewrite Hva', Hva | done | |].
  - destruct Hcase as [(Hbest & -> & _) | (Hbest & ->)].
    + split; [intros _ | done]. by apply Hlt in Hbest as [_ ?].
    + split; [lia | intros Hall]. destruct Hbest. apply Hlt.
      split; [by apply below_nonneg | done].
  - destruct Hcase as [(_ & -> & _) | (_ & ->)]; auto.
Qed.

(** C2, amended.  In the 3D loop a checkpoint is written after the
    validation phase of an epoch if and only if the validation accuracy of
    that epoch strictly exceeds that of every previous epoch; the first
    epoch has no previous one and always writes.  In particular, for a run
    of three epochs with validation accuracies 0.5, 0.7 and 0.6, exactly
    two checkpoints are written, after epoch 1 and after epoch 2. *)
Theorem checkpoint_iff_improves (m : Net (Tensor F)) (opt : Optimizer F)
    (dl : phase -> nat -> list (Inputs F * Labels F)) (sizes : phase -> nat)
    (g0 : Grads F) (fs0 : filesystem (Tensor F)) :
  (forall (N e : nat) (s s' : state F),
      after_epochs F dl sizes N e (init_state F m opt g0 fs0) = Ok s ->
      epoch_body F dl sizes N s e = Ok s' ->
      exists acc,
        val_accs F (trace F s') = val_accs F (trace F s) ++ [acc]
        /\ length (val_accs F (trace F s)) = e
        /\ (n_saves F (trace F s') = S (n_saves F (trace F s))
            <-> Forall (fun a => (a < acc)%Q) (val_accs F (trace F s))))
  /\ (forall s3 : state F,
        after_epochs F dl sizes 3 3 (init_state F m opt g0 fs0) = Ok s3 ->
        Forall2 Qeq (val_accs F (trace F s3)) [(1 # 2)%Q; (7 # 10)%Q; (3 # 5)%Q] ->
        exists s1 s2 : state F,
          after_epochs F dl sizes 3 1 (init_state F m opt g0 fs0) = Ok s1
          /\ after_epochs F dl sizes 3 2 (init_state F m opt g0 fs0) = Ok s2
          /\ n_saves F (trace F s1) = 1
          /\ n_saves F (trace F s2) = 2
          /\ n_saves F (trace F s3) = 2).
Proof.
  split.
  - intros N e s s' Hs Hs'.
    destruct (checkpoint_decision m opt dl sizes g0 fs0 N e s s' Hs Hs')
      as (acc & ? & ? & ? & _). by exists acc.
  - intros s3 H3 Haccs.
    apply after_epochs_S_inv in H3 as (s2 & H2 & E2).
    pose proof H2 as H2'.
    apply after_epochs_S_inv in H2' as (s1 & H1 & E1).
    pose proof H1 as H1'.
    apply after_epochs_S_inv in H1' as (s0 & H0 & E0).
    pose proof H0 as H0'. unfold after_epochs in H0'. simplify_eq/=.
    destruct (checkpoint_decision m opt dl sizes g0 fs0 3 0 _ s1 H0 E0)
      as (a0 & Hv1 & _ & Hiff1 & _).
    destruct (checkpoint_decision m opt dl sizes g0 fs0 3 1 s1 s2 H1 E1)
      as (a1 & Hv2 & _ & Hiff2 & _).
    destruct (checkpoint_decision m opt dl sizes g0 fs0 3 2 s2 s3 H2 E2)
      as (a2 & Hv3 & _ & Hiff3 & Hcase3).
    simpl in Hv1. rewrite Hv1 in Hv2, Hiff2. simpl in Hv2.
    rewrite Hv2 in Hv3, Hiff3. simpl in Hv3. rewrite Hv3 in Haccs.
    apply Forall2_cons in Haccs as [Ha0 Haccs].
    apply Forall2_cons in Haccs as [Ha1 Haccs].
    apply Forall2_cons in Haccs as [Ha2 _].
    assert (Hn1 : n_saves F (trace F s1) = 1).
    { change 1 with (S (n_saves F (trace F (init_state F m opt g0 fs0)))).
      apply Hiff1. simpl. constructor. }
    assert (Hn2 : n_saves F (trace F s2) = 2).
    { rewrite <- Hn1. apply Hiff2. constructor; [|constructor].
      rewrite Ha0, Ha1. reflexivity. }
    exists s1, s2. split_and!; try done.
    destruct Hcase3 as [Hsame | Hmore]; [congruence|].
    apply Hiff3 in Hmore. apply Forall_cons in Hmore as [_ Hmore].
    apply Forall_cons in Hmore as [Hlt _].
    rewrite Ha1, Ha2 in Hlt. discriminate Hlt.
Qed.

(** When the block decides to checkpoint, the best metric becomes the new
    accuracy and the file holds the method object [model.state_dict], which
    is not the mapping [model.state_dict()]. *)
Lemma checkpoint_persists (acc : Q) st :
  (best_metric F st < acc)%Q ->
  best_metric F (save_if_best F Val acc st) = acc
  /\ files (fs F (save_if_best F Val acc st)) !! checkpoint_path
     = Some (BoundMethod (model F st) "state_dict")
  /\ files (fs F (save_if_best F Val acc st)) !! checkpoint_path
     <> Some (DictValue (state_dict (model F st))).
Proof.
  intros Hlt.
  destruct (save_if_best_Val acc st) as (_ & _ & _ & tr & _ & _ & _ & _ & Hcase).
  destruct Hcase as [(_ & _ & Hb & Hf) | (Hge & _)]; [|done].
  split_and!; [done | done | by rewrite Hf].
Qed.

(** C7.  The pass of the validation phase over its batches leaves every
    parameter, and the optimizer, as they were, whatever the batches.  A
    phase that completes has run every forward pass with gradient tracking
    on exactly when it is the training phase, and has taken one optimizer
    step per batch in the training phase and none in the validation phase;
    after the validation phase, checkpoint block included, every parameter
    is unchanged. *)
Theorem val_phase_frame (dl : phase -> nat -> list (Inputs F * Labels F))
    (sizes : phase -> nat) (epoch : nat) ph st :
  (forall bs (rl : Q) (rc : counter),
      parameters (model F (batch_loop F Val bs (set_mode F Val st) rl rc).1.1)
      = parameters (model F st)
      /\ optimizer F (batch_loop F Val bs (set_mode F Val st) rl rc).1.1
         = optimizer F st)
  /\ (forall st',
        phase_body F dl sizes epoch st ph = Ok st' ->
        exists tr,
          trace F st' = trace F st ++ tr
          /\ forward_flags F tr
             = replicate (length (dl ph epoch)) (bool_decide (ph = Train))
          /\ n_steps F tr
             = (if bool_decide (ph = Train) then length (dl ph epoch) else 0)
          /\ (ph = Val -> parameters (model F st') = parameters (model F st)
                          /\ optimizer F st' = optimizer F st)).
Proof.
  split.
  { intros bs rl rc.
    by destruct (batch_loop_state Val bs (set_mode F Val st) rl rc)
      as (_ & _ & _ & Hp); destruct (Hp eq_refl) as [-> ->]. }
  intros st' H. apply phase_body_Ok in H as (st1 & loss & acc & Hrun & ->).
  apply run_phase_state in Hrun as (_ & _ & Ht & Hp & _).
  destruct (pass_calls_observed ph (length (dl ph epoch))) as (_ & _ & Hff & Hns).
  destruct ph.
  - rewrite save_if_best_Train. eexists. split; [exact Ht|].
    rewrite !forward_flags_app, !n_steps_app, Hff, Hns.
    rewrite !n_steps_cons, !n_steps_nil. simpl.
    split_and!; [apply app_nil_r | lia | done].
  - destruct (save_if_best_Val acc st1) as (_ & Hm & Ho & tr & Htr & _ & Hf & Hs & _).
    eexists. split; [by rewrite Htr, Ht, <- app_assoc|].
    rewrite !forward_flags_app, !n_steps_app, Hff, Hns, Hf, Hs.
    rewrite !n_steps_cons, !n_steps_nil. simpl.
    split_and!; [by rewrite !app_nil_r | done |].
    intros _. rewrite Hm, Ho. by apply Hp.
Qed.

(** C8.  The best metric never decreases: no pass over the batches and no
    phase changes it, the checkpoint block sets it to the larger of its
    value and the validation accuracy of the epoch, and so over the epochs
    of a run it only grows. *)
Theorem best_metric_monotone (dl : phase -> nat -> list (Inputs F * Labels F))
    (sizes : phase -> nat) (N : nat) :
  (forall st (e : nat) st',
      epoch_body F dl sizes N st e = Ok st' ->
      exists acc,
        val_accs F (trace F st') = val_accs F (trace F st) ++ [acc]
        /\ best_metric F st' = Qmax (best_metric F st) acc
        /\ (best_metric F st <= best_metric F st')%Q)
  /\ (forall ph bs st (rl : Q) (rc : counter),
        best_metric F (batch_loop F ph bs st rl rc).1.1 = best_metric F st)
  /\ (forall (epoch : nat) ph st st1 (loss acc : Q),
        run_phase F dl sizes epoch ph st = Ok (st1, loss, acc) ->
        best_metric F st1 = best_metric F st)
  /\ (forall (acc : Q) st,
        best_metric F (save_if_best F Val acc st) = Qmax (best_metric F st) acc)
  /\ (forall st0 (j k : nat) sj sk,
        j <= k ->
        after_epochs F dl sizes N j st0 = Ok sj ->
        after_epochs F dl sizes N k st0 = Ok sk ->
        (best_metric F sj <= best_metric F sk)%Q).
Proof.
  split_and!.
  - intros st e st' H.
    apply epoch_body_summary in H as (acc & _ & Hva & Hmax & _).
    exists acc. split_and!; [done | done |]. rewrite Hmax. apply Q.le_max_l.
  - intros ph bs st rl rc. apply batch_loop_state.
  - intros epoch ph st st1 loss acc H. by apply run_phase_state in H as (? & _).
  - intros acc st. apply save_if_best_Val.
  - intros st0 j k sj sk Hjk Hj Hk.
    destruct (epochs_prefix dl sizes N j k st0 sk Hjk Hk) as (sj' & Hj' & Hrest).
    rewrite Hj in Hj'. injection Hj' as <-.
    by apply epochs_invariant in Hrest as (_ & _ & _ & _ & Hle & _).
Qed.

Lemma first_epoch_summary (m : Net (Tensor F)) (opt : Optimizer F)
    (dl : phase -> nat -> list (Inputs F * Labels F)) (sizes : phase -> nat)
    (g0 : Grads F) (fs0 : filesystem (Tensor F)) (N : nat) s1 :
  after_epochs F dl sizes N 1 (init_state F m opt g0 fs0) = Ok s1 ->
  exists acc,
    val_accs F (trace F s1) = [acc]
    /\ n_saves F (trace F s1) = 1
    /\ best_metric F s1 = acc
    /\ files (fs F s1) !! checkpoint_path
       = Some (BoundMethod (model F s1) "state_dict").
Proof.
  intros H. apply after_epochs_S_inv in H as (s0 & H0 & H).
  unfold after_epochs in H0. simplify_eq/=.
  apply epoch_body_summary in H as (acc & Hacc & Hva & _ & Hcase).
  exists acc. destruct Hcase as [(_ & Hn & Hb & Hf) | (Hge & _)].
  - by split_and!.
  - destruct Hge. by apply below_nonneg.
Qed.

Lemma after_epochs_step (dl : phase -> nat -> list (Inputs F * Labels F))
    (sizes : phase -> nat) (N k : nat) st0 s s' :
  after_epochs F dl sizes N k st0 = Ok s ->
  after_epochs F dl sizes N (S k) st0 = Ok s' ->
  epoch_body F dl sizes N s k = Ok s'.
Proof. intros Hk. by rewrite after_epochs_S, Hk. Qed.

(** C9.  The best metric starts at -1 and every accuracy is a count over a
    size, so it exceeds -1: a first epoch that completes has written a
    checkpoint, whatever its validation accuracy. *)
Theorem first_epoch_checkpoints (m : Net (Tensor F)) (opt : Optimizer F)
    (dl : phase -> nat -> list (Inputs F * Labels F)) (sizes : phase -> nat)
    (g0 : Grads F) (fs0 : filesystem (Tensor F)) (N : nat) :
  (forall s1,
      after_epochs F dl sizes N 1 (init_state F m opt g0 fs0) = Ok s1 ->
      exists acc,
        val_accs F (trace F s1) = [acc]
        /\ n_saves F (trace F s1) = 1
        /\ best_metric F s1 = acc
        /\ files (fs F s1) !! checkpoint_path
           = Some (BoundMethod (model F s1) "state_dict"))
  /\ (forall c size : nat,
        (best_metric F (init_state F m opt g0 fs0) < Qnat c / Qnat size)%Q).
Proof.
  split.
  - intros s1 H. by apply first_epoch_summary in H.
  - intros c size. cbn [init_state best_metric].
    apply below_nonneg, accuracy_nonneg.
Qed.

(** The loss a phase prints is the length-weighted mean of the losses of
    its batches over the size of its dataset. *)
Lemma run_phase_loss_weighted_mean (dl : phase -> nat -> list (Inputs F * Labels F))
    (sizes : phase -> nat) (epoch : nat) ph st st' (loss acc : Q) :
  run_phase F dl sizes epoch ph st = Ok (st', loss, acc) ->
  (loss == length_weighted_mean
             (batch_log_3d F ph (dl ph epoch) (set_mode F ph st)) (sizes ph))%Q.
Proof.
  intros H. apply run_phase_Ok in H as (_ & _ & _ & -> & _).
  unfold length_weighted_mean. rewrite batch_loop_running_loss.
  by rewrite Qplus_0_l.
Qed.

End Loop3DFacts.

(** ** The training loop of the 2D notebook *)

Section Loop2DFacts.
Import Xray2D.
Context (F : Framework).

Implicit Types (st : state F) (bs : list (Inputs F * Labels F)).

Lemma loss_sum_cons (b : batch_record) (log : list batch_record) :
  loss_sum (b :: log) = (b_loss b + loss_sum log)%Q.
Proof. reflexivity. Qed.

Lemma batch_body_2d_eq st (data : Inputs F * Labels F) (rl : Q) (rc : counter) :
  batch_body F st data rl rc
  = ((batch_body F st data 0%Q IntZero).1.1,
     (rl + b_loss (batch_record_2d F st data)
      + b_loss (batch_record_2d F st data)
        * Qnat (b_size (batch_record_2d F st data)))%Q,
     counter_add rc (b_corrects (batch_record_2d F st data))).
Proof.
  unfold batch_body, batch_record_2d.
  destruct (forward F (model F st) true data.1) as [outputs bufs].
  by destruct (step F _ _ _).
Qed.

Lemma batch_loop_2d_cons (data : Inputs F * Labels F) bs st (rl : Q) (rc : counter) :
  batch_loop F (data :: bs) st rl rc
  = batch_loop F bs (batch_body F st data 0%Q IntZero).1.1
      (rl + b_loss (batch_record_2d F st data)
       + b_loss (batch_record_2d F st data)
         * Qnat (b_size (batch_record_2d F st data)))%Q
      (counter_add rc (b_corrects (batch_record_2d F st data))).
Proof. cbn [batch_loop]. by rewrite batch_body_2d_eq. Qed.

(** Each batch enters the running loss twice: once as it is and once
    weighted by its size. *)
Lemma batch_loop_2d_running_loss bs st (rl : Q) (rc : counter) :
  ((batch_loop F bs st rl rc).1.2
   == rl + loss_sum (batch_log_2d F bs st)
      + weighted_loss_sum (batch_log_2d F bs st))%Q.
Proof.
  revert st rl rc. induction bs as [|data bs IH]; intros st rl rc.
  { simpl. ring. }
  rewrite batch_loop_2d_cons, IH. cbn [batch_log_2d].
  rewrite weighted_loss_sum_cons, loss_sum_cons. ring.
Qed.

Lemma batch_loop_2d_running_corrects bs st (rl : Q) (c : nat) :
  (batch_loop F bs st rl (TensorCount c)).2
  = TensorCount (c + corrects_seen (batch_log_2d F bs st)).
Proof.
  revert st rl c. induction bs as [|data bs IH]; intros st rl c.
  { simpl. by rewrite Nat.add_0_r. }
  rewrite batch_loop_2d_cons. cbn [counter_add]. rewrite IH.
  cbn [batch_log_2d]. by rewrite corrects_seen_cons, Nat.add_assoc.
Qed.

Lemma batch_loop_2d_corrects_from_zero bs st (rl : Q) :
  bs <> [] ->
  (batch_loop F bs st rl IntZero).2
  = TensorCount (corrects_seen (batch_log_2d F bs st)).
Proof.
  destruct bs as [|data bs]; [done|]. intros _.
  rewrite batch_loop_2d_cons. cbn [counter_add].
  by rewrite batch_loop_2d_running_corrects.
Qed.

Lemma epoch_body_2d_Ok (len_train_dataset : nat)
    (loader : nat -> list (Inputs F * Labels F)) st (lot : list Q) (epoch : nat)
    st' (lot' : list Q) :
  epoch_body F len_train_dataset loader (st, lot) epoch = Ok (st', lot') ->
  len_train_dataset <> 0
  /\ loader epoch <> []
  /\ exists loss acc,
       lot' = lot ++ [loss]
       /\ trace F st'
          = trace F (batch_loop F (loader epoch) st 0%Q IntZero).1.1
              ++ [Print_stats None loss acc]
       /\ loss = ((batch_loop F (loader epoch) st 0%Q IntZero).1.2
                  / Qnat len_train_dataset)%Q
       /\ acc = (Qnat (corrects_seen (batch_log_2d F (loader epoch) st))
                 / Qnat len_train_dataset)%Q.
Proof.
  unfold epoch_body. intros H.
  pose proof (batch_loop_2d_corrects_from_zero (loader epoch) st 0%Q) as Hc.
  destruct (batch_loop F (loader epoch) st 0%Q IntZero) as [[st1 rl] rc] eqn:Hloop.
  apply bind_inv_Ok in H as ([l a] & Hstats & H).
  injection H as <- <-.
  apply epoch_stats_Ok in Hstats as (Hsize & -> & c & -> & ->).
  assert (Hbs : loader epoch <> []).
  { intros Hnil. rewrite Hnil in Hloop. simpl in Hloop. congruence. }
  specialize (Hc Hbs). simpl in Hc. injection Hc as ->.
  split_and!; [done | done |]. by eexists _, _.
Qed.

(** The loss the 2D loop reports for an epoch. *)
Lemma epoch_body_2d_loss (len_train_dataset : nat)
    (loader : nat -> list (Inputs F * Labels F)) st (lot : list Q) (epoch : nat)
    st' (lot' : list Q) :
  epoch_body F len_train_dataset loader (st, lot) epoch = Ok (st', lot') ->
  exists loss,
    lot' = lot ++ [loss]
    /\ (loss == (loss_sum (batch_log_2d F (loader epoch) st)
                 + weighted_loss_sum (batch_log_2d F (loader epoch) st))
                / Qnat len_train_dataset)%Q.
Proof.
  intros H. apply epoch_body_2d_Ok in H as (_ & _ & loss & acc & -> & _ & -> & _).
  eexists. split; [done|].
  rewrite batch_loop_2d_running_loss. by rewrite Qplus_0_l.
Qed.

Lemma accuracy_differs (c len s : nat) :
  len <> 0 -> c <> 0 -> s <> len ->
  ~ (Qnat c / Qnat len == Qnat c / Qnat s)%Q.
Proof.
  intros Hlen Hc Hs Heq.
  pose proof (Qnat_nonzero len Hlen) as Hlen'.
  destruct (decide (s = 0)) as [->|Hs0].
  - assert (H0 : (Qnat c / Qnat 0 == 0)%Q) by (unfold Qdiv; apply Qmult_0_r).
    rewrite H0 in Heq.
    assert (Hc0 : (Qnat c == 0)%Q).
    { rewrite <- (Qmult_0_l (Qnat len)), <- Heq. field. done. }
    by apply (Qnat_inj c 0) in Hc0.
  - pose proof (Qnat_nonzero s Hs0) as Hs'.
    assert (Hx : (Qnat c * Qnat s == Qnat c * Qnat len)%Q).
    { transitivity ((Qnat c / Qnat len) * (Qnat len * Qnat s))%Q; [by field|].
      rewrite Heq. by field. }
    rewrite <- !Qnat_mult in Hx. apply Qnat_inj in Hx.
    apply Nat.mul_cancel_l in Hx; done.
Qed.

(** C10, amended.  The 2D loop divides its accumulated running loss and its
    count of correct predictions by the size of the global training
    dataset, whatever the loader yields.  The accuracy it reports is the
    true per-sample accuracy when the loader yields exactly that many
    samples, and is not when it yields another number of samples and at
    least one prediction is correct. *)
Theorem train_model_2d_divides_by_dataset_len (len_train_dataset : nat)
    (loader : nat -> list (Inputs F * Labels F)) st (lot : list Q) (epoch : nat)
    st' (lot' : list Q) :
  epoch_body F len_train_dataset loader (st, lot) epoch = Ok (st', lot') ->
  exists loss acc,
    lot' = lot ++ [loss]
    /\ last (trace F st') = Some (Print_stats None loss acc)
    /\ loss = ((batch_loop F (loader epoch) st 0%Q IntZero).1.2
               / Qnat len_train_dataset)%Q
    /\ acc = (Qnat (corrects_seen (batch_log_2d F (loader epoch) st))
              / Qnat len_train_dataset)%Q
    /\ (samples_seen (batch_log_2d F (loader epoch) st) = len_train_dataset ->
        acc = true_accuracy (batch_log_2d F (loader epoch) st))
    /\ (samples_seen (batch_log_2d F (loader epoch) st) <> len_train_dataset ->
        corrects_seen (batch_log_2d F (loader epoch) st) <> 0 ->
        ~ (acc == true_accuracy (batch_log_2d F (loader epoch) st))%Q).
Proof.
  intros H.
  apply epoch_body_2d_Ok in H as (Hlen & _ & loss & acc & -> & Htr & -> & ->).
  eexists _, _. split_and!; try done.
  - rewrite Htr. apply last_snoc.
  - intros Hs. unfold true_accuracy. by rewrite Hs.
  - intros Hs Hc. unfold true_accuracy. by apply accuracy_differs.
Qed.

Lemma train_model_2d_one_epoch (len_train_dataset : nat) (m : Net (Tensor F))
    (opt : Optimizer F) (loader : nat -> list (Inputs F * Labels F))
    (g0 : Grads F) :
  train_model F len_train_dataset m opt loader 1 g0
  = epoch_body F len_train_dataset loader (init_state F m opt g0, []) 0.
Proof. unfold train_model. cbn [seq for_each]. apply bind_ret_r. Qed.

End Loop2DFacts.

(** ** Concrete runs *)

Section Runs.
Import Toy.

Lemma scenario_states (k : nat) :
  k <= 3 -> scenario_after k = Ok (state_after k).
Proof.
  intros Hk. apply result_Ok_default.
  destruct k as [|[|[|[|k]]]]; [vm_compute; reflexivity.. | lia].
Qed.

Lemma scenario_step (k : nat) :
  k < 3 ->
  Mri3D.epoch_body toy scenario_loaders scenario_sizes 3 (state_after k) k
  = Ok (state_after (S k)).
Proof.
  intros Hk.
  assert (H1 : scenario_after k = Ok (state_after k)) by (apply scenario_states; lia).
  assert (H2 : scenario_after (S k) = Ok (state_after (S k)))
    by (apply scenario_states; lia).
  rewrite after_epochs_S, H1, bind_Ok in H2. exact H2.
Qed.

Lemma scenario_val_accs :
  Forall2 Qeq (Mri3D.val_accs toy (Mri3D.trace toy (state_after 3)))
          [(1 # 2)%Q; (7 # 10)%Q; (3 # 5)%Q].
Proof. vm_compute. repeat constructor. Qed.

Lemma checkpoint_iff_improves_witness :
  (exists acc,
      Mri3D.val_accs toy (Mri3D.trace toy (state_after 2))
      = Mri3D.val_accs toy (Mri3D.trace toy (state_after 1)) ++ [acc]
      /\ length (Mri3D.val_accs toy (Mri3D.trace toy (state_after 1))) = 1
      /\ (Mri3D.n_saves toy (Mri3D.trace toy (state_after 2))
          = S (Mri3D.n_saves toy (Mri3D.trace toy (state_after 1)))
          <-> Forall (fun a => (a < acc)%Q)
                     (Mri3D.val_accs toy (Mri3D.trace toy (state_after 1)))))
  /\ (exists s1 s2,
        scenario_after 1 = Ok s1
        /\ scenario_after 2 = Ok s2
        /\ Mri3D.n_saves toy (Mri3D.trace toy s1) = 1
        /\ Mri3D.n_saves toy (Mri3D.trace toy s2) = 2
        /\ Mri3D.n_saves toy (Mri3D.trace toy (state_after 3)) = 2).
Proof.
  destruct (checkpoint_iff_improves toy toy_net 0 scenario_loaders scenario_sizes
              0 empty_fs) as [Hgeneral Hscenario].
  split.
  - apply (Hgeneral 3 1 (state_after 1) (state_after 2)).
    + apply (scenario_states 1). lia.
    + apply (scenario_step 1). lia.
  - apply (Hscenario (state_after 3)).
    + apply (scenario_states 3). lia.
    + exact scenario_val_accs.
Defined.

(** The run of three epochs with validation accuracies 0.5, 0.7 and 0.6
    writes a checkpoint after its first epoch already, and two in all. *)
Lemma checkpoint_scenario_two_writes :
  scenario_after 1 = Ok (state_after 1)
  /\ scenario_after 3 = Ok (state_after 3)
  /\ Forall2 Qeq (Mri3D.val_accs toy (Mri3D.trace toy (state_after 3)))
             [(1 # 2)%Q; (7 # 10)%Q; (3 # 5)%Q]
  /\ Mri3D.n_saves toy (Mri3D.trace toy (state_after 1)) = 1
  /\ Mri3D.n_saves toy (Mri3D.trace toy (state_after 3)) = 2
  /\ Mri3D.n_saves toy (Mri3D.trace toy (state_after 3)) <> 1
  /\ (exists st, scenario_run = Ok st
                 /\ Mri3D.n_saves toy (Mri3D.trace toy st) = 2).
Proof.
  split_and!.
  - apply (scenario_states 1). lia.
  - apply (scenario_states 3). lia.
  - exact scenario_val_accs.
  - vm_compute. reflexivity.
  - vm_compute. reflexivity.
  - vm_compute. discriminate.
  - unfold Mri3D.train_model. rewrite (scenario_states 3) by lia. rewrite bind_Ok.
    eexists. split; [reflexivity|]. vm_compute. reflexivity.
Qed.

(** C3 at a failing input.  After the first epoch of the scenario one
    checkpoint is written; the file holds the method object
    [model.state_dict], bound to the model and not called, and it does not
    hold the mapping of names to values.  The best metric is the new
    accuracy, as the claim says. *)
Theorem checkpoint_saves_method_object :
  scenario_after 1 = Ok (state_after 1)
  /\ Mri3D.n_saves toy (Mri3D.trace toy (state_after 1)) = 1
  /\ Mri3D.files (Mri3D.fs toy (state_after 1)) !! Mri3D.checkpoint_path
     = Some (BoundMethod (Mri3D.model toy (state_after 1)) "state_dict")
  /\ Mri3D.files (Mri3D.fs toy (state_after 1)) !! Mri3D.checkpoint_path
     <> Some (DictValue (state_dict (Mri3D.model toy (state_after 1))))
  /\ (Mri3D.best_metric toy (state_after 1) == 1 # 2)%Q.
Proof.
  assert (H1 : scenario_after 1 = Ok (state_after 1)) by (apply scenario_states; lia).
  destruct (first_epoch_summary toy toy_net 0 scenario_loaders scenario_sizes
              0 empty_fs 3 (state_after 1) H1) as (acc & _ & Hn & _ & Hfile).
  split_and!; [exact H1 | exact Hn | exact Hfile | | vm_compute; reflexivity].
  rewrite Hfile. discriminate.
Qed.

Lemma val_phase_frame_witness :
  val_phase_run = Ok val_phase_state
  /\ exists tr,
       Mri3D.trace toy val_phase_state = Mri3D.trace toy scenario_init ++ tr
       /\ Mri3D.forward_flags toy tr
          = replicate (length (scenario_loaders Val 0)) (bool_decide (Val = Train))
       /\ Mri3D.n_steps toy tr
          = (if bool_decide (Val = Train) then length (scenario_loaders Val 0) else 0)
       /\ (Val = Val ->
           parameters (Mri3D.model toy val_phase_state)
           = parameters (Mri3D.model toy scenario_init)
           /\ Mri3D.optimizer toy val_phase_state = Mri3D.optimizer toy scenario_init).
Proof.
  assert (H : val_phase_run = Ok val_phase_state).
  { apply result_Ok_default. vm_compute. reflexivity. }
  split; [exact H|].
  exact (proj2 (val_phase_frame toy scenario_loaders scenario_sizes 0 Val scenario_init)
           val_phase_state H).
Defined.

Lemma best_metric_monotone_witness :
  (exists acc,
      Mri3D.val_accs toy (Mri3D.trace toy (state_after 2))
      = Mri3D.val_accs toy (Mri3D.trace toy (state_after 1)) ++ [acc]
      /\ Mri3D.best_metric toy (state_after 2)
         = Qmax (Mri3D.best_metric toy (state_after 1)) acc
      /\ (Mri3D.best_metric toy (state_after 1)
          <= Mri3D.best_metric toy (state_after 2))%Q)
  /\ (Mri3D.best_metric toy (state_after 1) <= Mri3D.best_metric toy (state_after 3))%Q.
Proof.
  destruct (best_metric_monotone toy scenario_loaders scenario_sizes 3)
    as (Hepoch & _ & _ & _ & Hrun).
  split.
  - apply (Hepoch (state_after 1) 1 (state_after 2)). apply (scenario_step 1). lia.
  - apply (Hrun scenario_init 1 3); [lia | apply (scenario_states 1); lia
                                    | apply (scenario_states 3); lia].
Defined.

Lemma first_epoch_checkpoints_witness :
  (exists acc,
      Mri3D.val_accs toy (Mri3D.trace toy (state_after 1)) = [acc]
      /\ Mri3D.n_saves toy (Mri3D.trace toy (state_after 1)) = 1
      /\ Mri3D.best_metric toy (state_after 1) = acc
      /\ Mri3D.files (Mri3D.fs toy (state_after 1)) !! Mri3D.checkpoint_path
         = Some (BoundMethod (Mri3D.model toy (state_after 1)) "state_dict"))
  /\ (Mri3D.best_metric toy scenario_init < Qnat 0 / Qnat 10)%Q.
Proof.
  destruct (first_epoch_checkpoints toy toy_net 0 scenario_loaders scenario_sizes
              0 empty_fs 3) as (Hwrites & Hbelow).
  split.
  - apply Hwrites. apply (scenario_states 1). lia.
  - apply (Hbelow 0 10).
Defined.

Lemma epoch_2d_states (loader : nat -> list (nat * (nat * Q))) :
  is_ok (epoch_2d loader) = true ->
  epoch_2d loader = Ok (state_2d loader, losses_2d loader).
Proof. apply result_Ok_pair. Qed.

(** C1 at a failing input.  A pass of the 2D loop over one batch of two
    samples with mean loss 1, on a dataset of two samples, reports the loss
    3/2; the length-weighted mean of the batch losses is 1.  The batch loss
    is added to the running loss once as it is and once more weighted. *)
Theorem train_model_2d_loss_not_weighted_mean :
  Xray2D.train_model toy 2 toy_net 0 one_batch_loader 1 0
  = Ok (state_2d one_batch_loader, [(3 # 2)%Q])
  /\ (length_weighted_mean (log_2d one_batch_loader) 2 == 1)%Q
  /\ ~ (3 # 2 == length_weighted_mean (log_2d one_batch_loader) 2)%Q.
Proof.
  assert (Hl : losses_2d one_batch_loader = [(3 # 2)%Q]) by (vm_compute; reflexivity).
  split_and!.
  - rewrite train_model_2d_one_epoch, epoch_2d_states by (vm_compute; reflexivity).
    by rewrite Hl.
  - vm_compute. reflexivity.
  - vm_compute. discriminate.
Qed.

Lemma train_model_2d_divides_by_dataset_len_witness :
  exists loss acc,
    losses_2d one_batch_loader = [] ++ [loss]
    /\ last (Xray2D.trace toy (state_2d one_batch_loader))
       = Some (Print_stats None loss acc)
    /\ acc = true_accuracy (log_2d one_batch_loader)
    /\ (loss == 3 # 2)%Q.
Proof.
  destruct (train_model_2d_divides_by_dataset_len toy 2 one_batch_loader
              init_2d [] 0 (state_2d one_batch_loader) (losses_2d one_batch_loader))
    as (loss & acc & Hlot & Hlast & _ & _ & Hsame & _).
  - apply epoch_2d_states. vm_compute. reflexivity.
  - exists loss, acc. split_and!; [exact Hlot | exact Hlast | |].
    + apply Hsame. vm_compute. reflexivity.
    + assert (Hl : losses_2d one_batch_loader = [(3 # 2)%Q]) by (vm_compute; reflexivity).
      rewrite Hl in Hlot. injection Hlot as <-. reflexivity.
Defined.

(** The averages of the 2D loop and the loader.  With a loader that yields
    exactly the two samples of the dataset, the loss reported is not the
    true per-sample mean.  With a loader that yields one sample of a
    dataset of two, the loss and the accuracy reported are the true
    per-sample averages all the same. *)
Lemma train_model_2d_averages_and_loader :
  (Xray2D.train_model toy 2 toy_net 0 one_batch_loader 1 0
   = Ok (state_2d one_batch_loader, [(3 # 2)%Q])
   /\ samples_seen (log_2d one_batch_loader) = 2
   /\ ~ (3 # 2 == true_mean_loss (log_2d one_batch_loader))%Q)
  /\ (Xray2D.train_model toy 2 toy_net 0 short_loader 1 0
      = Ok (state_2d short_loader, [(2 # 2)%Q])
      /\ last (Xray2D.trace toy (state_2d short_loader))
         = Some (Print_stats None (2 # 2) (0 # 2))
      /\ samples_seen (log_2d short_loader) = 1
      /\ (2 # 2 == true_mean_loss (log_2d short_loader))%Q
      /\ (0 # 2 == true_accuracy (log_2d short_loader))%Q).
Proof.
  assert (Hl1 : losses_2d one_batch_loader = [(3 # 2)%Q]) by (vm_compute; reflexivity).
  assert (Hl2 : losses_2d short_loader = [(2 # 2)%Q]) by (vm_compute; reflexivity).
  split; split_and!.
  - rewrite train_model_2d_one_epoch, epoch_2d_states by (vm_compute; reflexivity).
    by rewrite Hl1.
  - vm_compute. reflexivity.
  - vm_compute. discriminate.
  - rewrite train_model_2d_one_epoch, epoch_2d_states by (vm_compute; reflexivity).
    by rewrite Hl2.
  - vm_compute. reflexivity.
  - vm_compute. reflexivity.
  - vm_compute. reflexivity.
  - vm_compute. reflexivity.
Qed.

End Runs.

(** * Further properties *)

(** ** Version strings *)

Section VersionFacts.
Import Cells.

Lemma split_nonempty (sep : ascii) (s : string) : split sep s <> [].
Proof.
  destruct s as [|c rest]; simpl; [done|].
  case_decide; [done|]. by destruct (split sep rest).
Qed.

Lemma split_cons_sep (sep : ascii) (rest : string) :
  split sep (String sep rest) = EmptyString :: split sep rest.
Proof. simpl. by case_decide. Qed.

Lemma split_cons_other (sep c : ascii) (rest : string) :
  c <> sep ->
  exists piece pieces,
    split sep rest = piece :: pieces
    /\ split sep (String c rest) = String c piece :: pieces.
Proof.
  intros Hc. simpl. case_decide; [done|].
  pose proof (split_nonempty sep rest) as Hne.
  destruct (split sep rest) as [|piece pieces]; [done|]. eauto.
Qed.

Lemma append_nil_l (t : string) : EmptyString +:+ t = t.
Proof. reflexivity. Qed.

Lemma append_cons (c : ascii) (s t : string) :
  String c s +:+ t = String c (s +:+ t).
Proof. reflexivity. Qed.

Lemma join_cons_cons (sep p q : string) (rest : list string) :
  join sep (p :: q :: rest) = p +:+ sep +:+ join sep (q :: rest).
Proof. reflexivity. Qed.

Lemma join_head_char (sep : string) (c : ascii) (p : string) (rest : list string) :
  join sep (String c p :: rest) = String c (join sep (p :: rest)).
Proof. by destruct rest. Qed.

(** Joining the pieces of a split with the separator gives the string
    back. *)
Lemma join_split (sep : ascii) (s : string) :
  join (String sep EmptyString) (split sep s) = s.
Proof.
  induction s as [|c rest IH]; [done|].
  destruct (decide (c = sep)) as [->|Hc].
  - rewrite split_cons_sep.
    pose proof (split_nonempty sep rest) as Hne.
    destruct (split sep rest) as [|piece pieces]; [done|].
    rewrite join_cons_cons. simpl. by rewrite <- IH.
  - destruct (split_cons_other sep c rest Hc) as (piece & pieces & Hr & ->).
    rewrite join_head_char. by rewrite <- Hr, IH.
Qed.

Lemma split_length (sep : ascii) (s : string) :
  length (split sep s) = S (count_char sep s).
Proof.
  induction s as [|c rest IH]; [done|].
  destruct (decide (c = sep)) as [->|Hc].
  - rewrite split_cons_sep. simpl. case_decide; [|done]. by rewrite IH.
  - destruct (split_cons_other sep c rest Hc) as (piece & pieces & Hr & ->).
    rewrite Hr in IH. simpl in *. by case_decide.
Qed.

Lemma split_pieces_clean (sep : ascii) (s : string) :
  Forall (fun piece => count_char sep piece = 0) (split sep s).
Proof.
  induction s as [|c rest IH]; [by repeat constructor|].
  destruct (decide (c = sep)) as [->|Hc].
  - rewrite split_cons_sep. by constructor.
  - destruct (split_cons_other sep c rest Hc) as (piece & pieces & Hr & ->).
    rewrite Hr in IH. apply Forall_cons in IH as [Hp Hps].
    constructor; [|done]. simpl. by case_decide.
Qed.

Lemma count_char_app (c : ascii) (s t : string) :
  count_char c (s +:+ t) = count_char c s + count_char c t.
Proof. induction s as [|c' s IH]; simpl; [done|]. rewrite IH. lia. Qed.

Lemma count_char_join (sep : ascii) (parts : list string) :
  Forall (fun piece => count_char sep piece = 0) parts ->
  count_char sep (join (String sep EmptyString) parts) = pred (length parts).
Proof.
  induction parts as [|p [|q rest] IH]; intros Hall.
  - done.
  - apply Forall_cons in Hall as [Hp _]. by simpl.
  - apply Forall_cons in Hall as [Hp Hrest].
    rewrite join_cons_cons, !count_char_app, Hp, (IH Hrest). simpl.
    by case_decide.
Qed.

(** The first [n] pieces, joined, are the beginning of the string, and
    what follows is nothing or starts with the separator. *)
Lemma join_take_split (sep : ascii) (n : nat) (s : string) :
  exists rest,
    s = join (String sep EmptyString) (take n (split sep s)) +:+ rest
    /\ (0 < n -> rest = EmptyString
                 \/ exists rest', rest = String sep rest').
Proof.
  revert n. induction s as [|c s IH]; intros n.
  { exists EmptyString. destruct n as [|[|n]]; simpl; (split; [done | auto]). }
  destruct n as [|n]; [exists (String c s); split; [done | lia]|].
  destruct (decide (c = sep)) as [->|Hc].
  - rewrite split_cons_sep. cbn [take].
    destruct n as [|n].
    + exists (String sep s). simpl. split; [done | eauto].
    + destruct (IH (S n)) as (rest & Hs & Hrest).
      pose proof (split_nonempty sep s) as Hne.
      destruct (split sep s) as [|piece pieces]; [done|].
      exists rest. cbn [take] in *. rewrite join_cons_cons.
      split; [| intros _; apply Hrest; lia].
      rewrite ?append_nil_l, ?append_cons, ?append_nil_l. by rewrite <- Hs.
  - destruct (split_cons_other sep c s Hc) as (piece & pieces & Hr & ->).
    destruct (IH (S n)) as (rest & Hs & Hrest). rewrite Hr in Hs.
    exists rest. cbn [take] in *. rewrite join_head_char.
    split; [| done]. rewrite ?append_nil_l, ?append_cons, ?append_nil_l. by rewrite <- Hs.
Qed.

(** X1.  [TORCH_VERSION] is the beginning of the version string up to its
    second dot: it is a prefix of the version, what it leaves out is
    nothing or starts with a dot, it holds at most one dot, and a version
    with at most one dot is kept whole. *)
Theorem TORCH_VERSION_prefix (version : string) :
  (exists rest,
      version = TORCH_VERSION version +:+ rest
      /\ (rest = EmptyString \/ exists rest', rest = String "." rest'))
  /\ count_char "." (TORCH_VERSION version) = Nat.min 1 (count_char "." version)
  /\ (count_char "." version <= 1 -> TORCH_VERSION version = version).
Proof.
  unfold TORCH_VERSION. split_and!.
  - destruct (join_take_split "." 2 version) as (rest & Hs & Hrest).
    exists rest. split; [done | apply Hrest; lia].
  - rewrite count_char_join.
    + rewrite length_take, split_length. lia.
    + apply Forall_take, split_pieces_clean.
  - intros Hle. rewrite take_ge; [apply join_split|].
    rewrite split_length. lia.
Qed.

Lemma TORCH_VERSION_prefix_witness :
  TORCH_VERSION "1.13" = "1.13"%string
  /\ exists rest, "1.13.1+cu116"%string = TORCH_VERSION "1.13.1+cu116" +:+ rest.
Proof.
  split.
  - apply TORCH_VERSION_prefix. vm_compute. lia.
  - destruct (TORCH_VERSION_prefix "1.13.1+cu116") as ((rest & Hrest & _) & _).
    by exists rest.
Defined.

Lemma last_split (sep : ascii) (s : string) :
  exists p,
    last (split sep s) = Some p
    /\ count_char sep p = 0
    /\ (count_char sep s = 0 -> p = s)
    /\ (count_char sep s <> 0 -> exists pre, s = pre +:+ String sep p).
Proof.
  induction s as [|c s (p & Hlast & Hclean & Hwhole & Hcut)].
  { exists EmptyString. by split_and!. }
  destruct (decide (c = sep)) as [->|Hc].
  - rewrite split_cons_sep. exists p.
    pose proof (split_nonempty sep s) as Hne.
    split_and!.
    + destruct (split sep s) as [|piece pieces]; [done|]. exact Hlast.
    + done.
    + simpl. by case_decide.
    + intros _. destruct (decide (count_char sep s = 0)) as [H0|Hn0].
      * exists EmptyString. simpl. by rewrite (Hwhole H0).
      * destruct (Hcut Hn0) as (pre & ->). by exists (String sep pre).
  - destruct (split_cons_other sep c s Hc) as (piece & pieces & Hr & ->).
    pose proof (split_length sep s) as Hlen. rewrite Hr in Hlast, Hlen.
    destruct pieces as [|q pieces].
    + simpl in Hlast, Hlen. injection Hlast as <-.
      assert (H0 : count_char sep s = 0) by lia.
      exists (String c piece). simpl. case_decide; [done|].
      split_and!; [done | done | by rewrite (Hwhole H0) | lia].
    + exists p. simpl in Hlen. simpl count_char. case_decide; [done|].
      split_and!; [exact Hlast | done | lia |].
      intros _. destruct Hcut as (pre & ->); [lia|]. by exists (String c pre).
Qed.

(** X2.  [CUDA_VERSION] never fails; it is what follows the last plus sign
    of the version string, and the whole version string when there is no
    plus sign. *)
Theorem CUDA_VERSION_suffix (version : string) :
  exists p,
    CUDA_VERSION version = Ok p
    /\ count_char "+" p = 0
    /\ (count_char "+" version = 0 -> p = version)
    /\ (count_char "+" version <> 0 ->
        exists pre, version = pre +:+ String "+" p).
Proof.
  destruct (last_split "+" version) as (p & Hlast & Hrest).
  exists p. unfold CUDA_VERSION, last_item. by rewrite Hlast.
Qed.

Lemma CUDA_VERSION_suffix_witness :
  exists p pre,
    CUDA_VERSION "1.13.1+cu116" = Ok p
    /\ "1.13.1+cu116"%string = pre +:+ String "+" p.
Proof.
  destruct (CUDA_VERSION_suffix "1.13.1+cu116") as (p & Hp & _ & _ & Hplus).
  destruct Hplus as [pre Hpre]; [vm_compute; discriminate|].
  by exists p, pre.
Defined.

End VersionFacts.

(** ** The class mapping *)

Section MappingFacts.
Import Xray2D Cells.

Lemma dict_of_snoc `{Countable K} {V : Type} (items : list (K * V)) (k : K) (v : V) :
  dict_of (items ++ [(k, v)]) = <[k := v]> (dict_of items).
Proof. unfold dict_of. by rewrite foldl_app. Qed.

Lemma enumerate_snoc {A : Type} (l : list A) (x : A) :
  enumerate (l ++ [x]) = enumerate l ++ [(Z.of_nat (length l), x)].
Proof. unfold enumerate. rewrite imap_app. simpl. by rewrite Nat.add_0_r. Qed.

Lemma idx_to_class_of_snoc (l : list string) (c : string) :
  idx_to_class_of (l ++ [c]) = <[Z.of_nat (length l) := c]> (idx_to_class_of l).
Proof. unfold idx_to_class_of. by rewrite enumerate_snoc, dict_of_snoc. Qed.

Lemma class_to_idx_of_snoc (l : list string) (c : string) :
  class_to_idx_of (l ++ [c]) = <[c := Z.of_nat (length l)]> (class_to_idx_of l).
Proof.
  unfold class_to_idx_of. rewrite enumerate_snoc, map_app. cbn [map fst snd].
  by rewrite dict_of_snoc.
Qed.

(** [idx_to_class] holds the class names under their positions and nothing
    else. *)
Lemma idx_to_class_of_lookup (l : list string) (k : Z) :
  idx_to_class_of l !! k
  = if (k <? 0)%Z then None else l !! Z.to_nat k.
Proof.
  induction l as [|c l IH] using rev_ind.
  { unfold idx_to_class_of, dict_of. simpl. rewrite lookup_empty.
    by destruct (k <? 0)%Z. }
  rewrite idx_to_class_of_snoc.
  destruct (decide (k = Z.of_nat (length l))) as [->|Hk].
  - rewrite lookup_insert_eq. destruct (Z.ltb_spec (Z.of_nat (length l)) 0); [lia|].
    rewrite Nat2Z.id. symmetry. by apply list_lookup_middle.
  - rewrite lookup_insert_ne by done. rewrite IH.
    destruct (Z.ltb_spec k 0); [done|].
    destruct (decide (Z.to_nat k < length l)) as [Hlt|Hge].
    + by rewrite lookup_app_l.
    + rewrite !lookup_ge_None_2; [done | | lia].
      rewrite length_app. simpl. lia.
Qed.

(** Which index a class name gets. *)
Lemma class_to_idx_of_lookup_last (l : list string) (c : string) (k : Z) :
  class_to_idx_of l !! c = Some k
  <-> exists i, k = Z.of_nat i
                /\ l !! i = Some c
                /\ forall j, i < j -> l !! j <> Some c.
Proof.
  revert k. induction l as [|x l IH] using rev_ind; intros k.
  { unfold class_to_idx_of, dict_of. simpl. rewrite lookup_empty.
    split; [done | by intros (i & _ & ? & _)]. }
  rewrite class_to_idx_of_snoc.
  destruct (decide (c = x)) as [->|Hc].
  - rewrite lookup_insert_eq. split.
    + intros [= <-]. exists (length l). split_and!; [done | by apply list_lookup_middle |].
      intros j Hj. rewrite lookup_ge_None_2; [done|]. rewrite length_app. simpl. lia.
    + intros (i & -> & Hi & Hlast). f_equal. f_equal.
      destruct (decide (i = length l)) as [|Hne]; [done|].
      apply lookup_lt_Some in Hi as Hlt. rewrite length_app in Hlt. simpl in Hlt.
      destruct (Hlast (length l)); [lia | by apply list_lookup_middle].
  - rewrite lookup_insert_ne by done. rewrite IH. split.
    + intros (i & -> & Hi & Hlast). exists i.
      split_and!; [done | by apply lookup_app_l_Some |].
      intros j Hj Hjc. apply lookup_app_Some in Hjc as [Hjc | [_ Hjc]].
      * by apply (Hlast j).
      * destruct (j - length l) as [|n]; simpl in Hjc; [congruence | done].
    + intros (i & -> & Hi & Hlast). exists i.
      apply lookup_app_Some in Hi as [Hi | [_ Hi]].
      * split_and!; [done | done |]. intros j Hj Hjc.
        apply (Hlast j Hj). by apply lookup_app_l_Some.
      * destruct (i - length l) as [|n]; simpl in Hi; [congruence | done].
Qed.

(** X3.  The dictionary from class names to indices sends a name to the
    position of its last occurrence in the class list, and holds no other
    key: a name listed twice keeps its later index only. *)
Theorem class_to_idx_of_last (l : list string) (c : string) (k : Z) :
  class_to_idx_of l !! c = Some k
  <-> exists i, k = Z.of_nat i
                /\ l !! i = Some c
                /\ forall j, i < j -> l !! j <> Some c.
Proof. apply class_to_idx_of_lookup_last. Qed.

Lemma notebook_mappings :
  class_to_idx = class_to_idx_of classes
  /\ dict_of idx_to_class = idx_to_class_of classes.
Proof. split; reflexivity. Qed.

(** X4.  For class names that are all different the two dictionaries are
    inverse to each other: a name is sent to its position, a position in
    the list to its name, and the indices used are exactly those below the
    number of classes. *)
Theorem class_mappings_inverse (l : list string) :
  NoDup l ->
  (forall (i : nat) (c : string),
      l !! i = Some c <-> class_to_idx_of l !! c = Some (Z.of_nat i))
  /\ (forall (c : string) (k : Z),
         class_to_idx_of l !! c = Some k <-> idx_to_class_of l !! k = Some c)
  /\ (forall (c : string) (k : Z),
         class_to_idx_of l !! c = Some k -> (0 <= k < Z.of_nat (length l))%Z).
Proof.
  intros Hnd.
  assert (Hfwd : forall (i : nat) (c : string),
             l !! i = Some c <-> class_to_idx_of l !! c = Some (Z.of_nat i)).
  { intros i c. rewrite class_to_idx_of_lookup_last. split.
    - intros Hi. exists i. split_and!; [done | done |].
      intros j Hj Hjc. pose proof (NoDup_lookup l i j c Hnd Hi Hjc). lia.
    - intros (i' & Heq & Hi & _). by apply Nat2Z.inj in Heq as ->. }
  split_and!; [done | |].
  - intros c k. rewrite idx_to_class_of_lookup.
    destruct (Z.ltb_spec k 0) as [Hneg|Hpos].
    + split; [|done]. rewrite class_to_idx_of_lookup_last. intros (i & -> & _). lia.
    + rewrite (Hfwd (Z.to_nat k) c). by rewrite Z2Nat.id.
  - intros c k. rewrite class_to_idx_of_lookup_last. intros (i & -> & Hi & _).
    apply lookup_lt_Some in Hi. lia.
Qed.

Lemma class_mappings_inverse_witness :
  (forall (i : nat) (c : string),
      classes !! i = Some c <-> class_to_idx_of classes !! c = Some (Z.of_nat i))
  /\ (forall (c : string) (k : Z),
         class_to_idx_of classes !! c = Some k
         <-> idx_to_class_of classes !! k = Some c)
  /\ (forall (c : string) (k : Z),
         class_to_idx_of classes !! c = Some k
         -> (0 <= k < Z.of_nat (length classes))%Z).
Proof.
  apply (class_mappings_inverse classes).
  unfold classes. apply NoDup_cons. split; [|apply NoDup_singleton].
  rewrite list_elem_of_singleton. discriminate.
Defined.

End MappingFacts.

(** ** More on the dataset of the 2D notebook *)

Section MoreDatasetFacts.
Import Transforms Xray2D.

Lemma iloc_fits {A : Type} (df : list A) (idx : Z) :
  (- 2 ^ 63 <= idx < 2 ^ 63)%Z ->
  iloc df idx
  = (if ((if (idx <? 0)%Z then Z.of_nat (length df) + idx else idx) <? 0)%Z
     then Raise IndexError
     else match df !! Z.to_nat (if (idx <? 0)%Z then Z.of_nat (length df) + idx
                                else idx)%Z with
          | Some row => Ok row
          | None => Raise IndexError
          end).
Proof.
  intros Hidx. unfold iloc.
  by rewrite (proj2 (fits_int64_spec idx) Hidx).
Qed.

Lemma iloc_overflow {A : Type} (df : list A) (idx : Z) :
  (idx < - 2 ^ 63 \/ 2 ^ 63 <= idx)%Z ->
  iloc df idx = Raise OverflowError.
Proof.
  intros Hidx. unfold iloc.
  destruct (fits_int64 idx) eqn:Hfits; [|done].
  apply fits_int64_spec in Hfits. lia.
Qed.

Lemma iloc_negative {A : Type} (df : list A) (idx : Z) :
  (Z.of_nat (length df) <= 2 ^ 63)%Z ->
  (- Z.of_nat (length df) <= idx < 0)%Z ->
  iloc df idx = iloc df (Z.of_nat (length df) + idx).
Proof.
  intros Hlen Hidx. rewrite !iloc_fits by lia.
  destruct (Z.ltb_spec idx 0) as [_|?]; [|lia].
  destruct (Z.ltb_spec (Z.of_nat (length df) + idx) 0) as [?|_]; [lia|].
  destruct (Z.ltb_spec (Z.of_nat (length df) + idx) 0) as [?|_]; [lia|]. done.
Qed.

Lemma iloc_out_of_range {A : Type} (df : list A) (idx : Z) :
  (- 2 ^ 63 <= idx < 2 ^ 63)%Z ->
  (idx < - Z.of_nat (length df) \/ Z.of_nat (length df) <= idx)%Z ->
  iloc df idx = Raise IndexError.
Proof.
  intros Hfits Hidx. rewrite iloc_fits by done.
  destruct (Z.ltb_spec idx 0) as [Hneg|Hpos].
  - destruct (Z.ltb_spec (Z.of_nat (length df) + idx) 0) as [_|?]; [done|lia].
  - destruct (Z.ltb_spec idx 0) as [?|_]; [lia|].
    rewrite lookup_ge_None_2; [done | lia].
Qed.

Lemma iloc_Ok {A : Type} (df : list A) (idx : Z) (row : A) :
  iloc df idx = Ok row ->
  (- 2 ^ 63 <= idx < 2 ^ 63)%Z
  /\ (- Z.of_nat (length df) <= idx < Z.of_nat (length df))%Z.
Proof.
  intros H.
  destruct (decide (idx < - 2 ^ 63 \/ 2 ^ 63 <= idx)%Z) as [Hbig|Hfits].
  { by rewrite iloc_overflow in H. }
  split; [lia|].
  destruct (decide (idx < - Z.of_nat (length df) \/ Z.of_nat (length df) <= idx)%Z)
    as [Hout|Hin]; [|lia].
  rewrite iloc_out_of_range in H; [done | lia | done].
Qed.

Lemma getitem_iloc (disk : gmap string file) (ds : DicomDataset) (idx idx' : Z) :
  iloc (labels_df ds) idx = iloc (labels_df ds) idx' ->
  getitem disk ds idx = getitem disk ds idx'.
Proof. intros H. unfold getitem. by rewrite H. Qed.



(** X6.  An access reads one file only, the image of its row: two disks
    that agree on that path give the same result. *)
Theorem getitem_reads_one_file (disk disk' : gmap string file) (ds : DicomDataset)
    (idx : Z) (row : string * string) :
  iloc (labels_df ds) idx = Ok row ->
  disk !! os_path_join (data_dir ds) row.1 = disk' !! os_path_join (data_dir ds) row.1 ->
  getitem disk ds idx = getitem disk' ds idx.
Proof.
  intros Hrow Hfile. unfold getitem. rewrite Hrow. cbn [mbind result_bind].
  unfold dcmread. by rewrite Hfile.
Qed.

Lemma getitem_reads_one_file_witness :
  let ds :=
    {| labels_df := [("a.dcm", "Pneumothorax"); ("b.dcm", "No Pneumothorax");
                     ("c.dcm", "Effusion"); ("d.dcm", "Effusion")]%string;
       transform := Some (Compose data_transform None);
       data_dir := notebook_data_dir;
       ds_classes := ["Pneumothorax"; "No Pneumothorax"; "Effusion"]%string;
       classmapper := class_to_idx |} in
  getitem Toy.disk ds 0
  = getitem (delete "data/siim_small/b.dcm"%string Toy.disk) ds 0.
Proof.
  intros ds.
  apply (getitem_reads_one_file _ _ ds 0 ("a.dcm", "Pneumothorax")%string).
  - reflexivity.
  - vm_compute. reflexivity.
Defined.

Lemma unique_from_spec (seen l : list string) :
  NoDup (unique_from seen l)
  /\ forall x, x ∈ unique_from seen l <-> x ∈ l /\ x ∉ seen.
Proof.
  revert seen. induction l as [|y l IH]; intros seen.
  { split; [constructor|]. intros x. simpl. rewrite elem_of_nil. tauto. }
  simpl. destruct (decide (y ∈ seen)) as [Hy|Hy].
  - destruct (IH seen) as [Hnd Hin]. split; [done|].
    intros x. rewrite Hin, elem_of_cons. split.
    + intros [Hx Hs]. auto.
    + intros [[->|Hx] Hs]; [done | auto].
  - destruct (IH (y :: seen)) as [Hnd Hin]. split.
    + constructor; [|done]. rewrite Hin, not_elem_of_cons. tauto.
    + intros x. rewrite !elem_of_cons, Hin, not_elem_of_cons. split.
      * intros [->|(Hx & Hne & Hs)]; auto.
      * intros [[->|Hx] Hs]; [auto|].
        destruct (decide (x = y)) as [->|Hne]; auto.
Qed.

(** X7.  [__init__] succeeds exactly when the path holds a label index.
    The dataset then has one sample per row, and its [classes] list every
    label of the index once. *)
Theorem init_dataset (disk : gmap string file) (csv_path data_dir : string)
    (class_mapper : gmap string Z) (t : option (image -> result image)) :
  (forall ds,
      init disk csv_path data_dir class_mapper t = Ok ds ->
      disk !! csv_path = Some (CsvFile (labels_df ds))
      /\ len ds = length (labels_df ds)
      /\ NoDup (ds_classes ds)
      /\ (forall c, c ∈ ds_classes ds <-> exists path, (path, c) ∈ labels_df ds))
  /\ (forall rows,
         disk !! csv_path = Some (CsvFile rows) ->
         exists ds, init disk csv_path data_dir class_mapper t = Ok ds
                    /\ labels_df ds = rows)
  /\ (disk !! csv_path = None ->
      init disk csv_path data_dir class_mapper t = Raise (FileNotFoundError csv_path)).
Proof.
  unfold init, read_csv. split_and!.
  - intros ds H. destruct (disk !! csv_path) as [[px|rows|]|]; try done.
    cbn in H. injection H as <-. cbn [labels_df ds_classes len].
    destruct (unique_from_spec [] (map snd rows)) as [Hnd Hin].
    split_and!; [done | done | done |].
    intros c. rewrite Hin, list_elem_of_fmap. split.
    + intros [([path c'] & -> & Hrow) _]. by exists path.
    + intros (path & Hrow). split; [by exists (path, c) | apply not_elem_of_nil].
  - intros rows ->. by eexists.
  - by intros ->.
Qed.

Lemma init_dataset_witness :
  exists ds, train_dataset Toy.disk = Ok ds /\ len ds = 4.
Proof.
  destruct (init_dataset Toy.disk (os_path_join notebook_data_dir "labels.csv")
              notebook_data_dir class_to_idx (Some (Compose data_transform None)))
    as (_ & Hok & _).
  destruct (Hok [("a.dcm", "Pneumothorax"); ("b.dcm", "No Pneumothorax");
                 ("c.dcm", "Effusion"); ("d.dcm", "Effusion")]%string eq_refl)
    as (ds & Hds & Hrows).
  exists ds. split; [exact Hds|]. unfold len. by rewrite Hrows.
Defined.

Lemma iloc_elem_of {A : Type} (df : list A) (idx : Z) (row : A) :
  iloc df idx = Ok row -> row ∈ df.
Proof.
  unfold iloc. destruct (fits_int64 idx); [|done].
  cbv zeta. destruct (_ <? 0)%Z; [done|].
  destruct (df !! _) as [r|] eqn:Hr; [|done].
  intros [= <-]. by apply list_elem_of_lookup_2 in Hr.
Qed.

Lemma iloc_Raise {A : Type} (df : list A) (idx : Z) (e : exn) :
  iloc df idx = Raise e -> e = IndexError \/ e = OverflowError.
Proof.
  unfold iloc. destruct (fits_int64 idx); [|intros [= <-]; by right].
  cbv zeta. destruct (_ <? 0)%Z; [intros [= <-]; by left|].
  destruct (df !! _); [done | intros [= <-]; by left].
Qed.

Lemma dcmread_Raise (disk : gmap string file) (path : string) (e : exn) :
  dcmread disk path = Raise e ->
  e = FileNotFoundError path \/ e = InvalidDicomError path.
Proof.
  unfold dcmread. destruct (disk !! path) as [[px|rows|]|]; intros [= <-]; auto.
Qed.

(** X8.  The [classes] of a dataset tell whether its class mapping is
    complete.  If every one of them is a key of the mapping, no access
    raises [KeyError], whatever the index and the disk; if one of them is
    not, some valid index yields no sample on any disk. *)
Theorem classes_against_mapping (disk : gmap string file) (csv_path dir : string)
    (class_mapper : gmap string Z) (t : option (image -> result image))
    (ds : DicomDataset) :
  init disk csv_path dir class_mapper t = Ok ds ->
  (forall f img key, t = Some f -> f img <> Raise (KeyError key)) ->
  ((forall c, c ∈ ds_classes ds -> is_Some (class_mapper !! c)) ->
   forall disk' idx key, getitem disk' ds idx <> Raise (KeyError key))
  /\ (forall c, c ∈ ds_classes ds -> class_mapper !! c = None ->
        exists i, i < len ds
                  /\ forall disk', is_ok (getitem disk' ds (Z.of_nat i)) = false).
Proof.
  intros Hinit Ht.
  assert (Hcls : forall c, c ∈ ds_classes ds <-> exists path, (path, c) ∈ labels_df ds).
  { unfold init in Hinit. apply bind_inv_Ok in Hinit as (rows & _ & Hds).
    injection Hds as <-. cbn [labels_df ds_classes].
    destruct (unique_from_spec [] (map snd rows)) as [_ Hin].
    intros c. rewrite Hin, list_elem_of_fmap. split.
    - intros [([path c'] & -> & Hrow) _]. by exists path.
    - intros (path & Hrow). split; [by exists (path, c) | apply not_elem_of_nil]. }
  assert (Hmap : classmapper ds = class_mapper /\ transform ds = t).
  { unfold init in Hinit. apply bind_inv_Ok in Hinit as (rows & _ & Hds).
    by injection Hds as <-. }
  destruct Hmap as [Hmap Htr]. split.
  - intros Hall disk' idx key H.
    destruct (iloc (labels_df ds) idx) as [row|e] eqn:Hrow.
    + destruct (dcmread disk' (os_path_join (data_dir ds) row.1)) as [px|e] eqn:Hpx.
      * rewrite (getitem_decoded disk' ds idx row px Hrow Hpx) in H.
        rewrite Hmap, Htr in H.
        destruct (Hall row.2) as [k Hk].
        { apply Hcls. exists row.1. apply iloc_elem_of in Hrow. by destruct row. }
        rewrite Hk in H. cbn [mbind result_bind] in H.
        destruct t as [f|]; [|done].
        destruct (f (fromarray px)) as [img|e] eqn:Hf; [done|].
        cbn in H. injection H as ->. by apply (Ht f (fromarray px) key).
      * unfold getitem in H. rewrite Hrow in H. cbn [mbind result_bind] in H.
        rewrite Hpx in H. cbn in H. injection H as ->.
        apply dcmread_Raise in Hpx as [?|?]; done.
    + unfold getitem in H. rewrite Hrow in H. cbn in H. injection H as ->.
      by apply iloc_Raise in Hrow as [?|?].
  - intros c Hc Hnone. apply Hcls in Hc as (path & Hrow).
    apply list_elem_of_lookup in Hrow as (i & Hi).
    exists i. split; [by apply lookup_lt_Some in Hi|].
    intros disk'.
    destruct (decide (Z.of_nat i < 2 ^ 63)%Z) as [Hfits|Hbig].
    2:{ unfold getitem. rewrite iloc_overflow by lia. done. }
    pose proof (iloc_nat _ _ _ Hi Hfits) as Hiloc.
    destruct (dcmread disk' (os_path_join (data_dir ds) path)) as [px|e] eqn:Hpx.
    + rewrite (getitem_decoded disk' ds _ (path, c) px Hiloc Hpx).
      cbn [fst snd]. by rewrite Hmap, Hnone.
    + unfold getitem. rewrite Hiloc. cbn [mbind result_bind fst]. by rewrite Hpx.
Qed.

Lemma resized_Raise (size h w : nat) (e : exn) :
  resized size h w = Raise e -> e = ZeroDivisionError.
Proof. unfold resized. destruct (_ =? 0); [by intros [= <-] | done]. Qed.

Lemma tv_resize_Raise (size : nat) (im : image) (e : exn) :
  tv_resize size im = Raise e ->
  e = ZeroDivisionError \/ e = TypeError \/ e = ValueError.
Proof.
  unfold tv_resize.
  destruct (kind im); destruct (shape im) as [|a [|b [|c [|]]]];
    try (intros [= <-]; tauto);
    (destruct (resized size _ _) as [hw|e'] eqn:Hr;
     [done | intros [= <-]; apply resized_Raise in Hr; tauto]).
Qed.

Lemma tv_to_tensor_Raise (im : image) (e : exn) :
  tv_to_tensor im = Raise e -> e = TypeError \/ e = ValueError.
Proof.
  unfold tv_to_tensor, to_tensor_dtype.
  destruct (kind im), (dtype_of im); destruct (shape im) as [|a [|b [|c [|]]]];
    try done; intros [= <-]; tauto.
Qed.

Lemma tv_normalize_Raise (mean std : list Q) (im : image) (e : exn) :
  tv_normalize mean std im = Raise e ->
  e = TypeError \/ e = ValueError \/ e = RuntimeError.
Proof.
  unfold tv_normalize.
  destruct (kind im); try (intros [= <-]; tauto).
  destruct (is_floating_point _); [|intros [= <-]; tauto].
  destruct (_ <? 3); [intros [= <-]; tauto|].
  destruct (existsb _ _); [intros [= <-]; tauto|].
  destruct (_ && _); [done | intros [= <-]; tauto].
Qed.

Lemma Compose_data_transform_no_KeyError (r : draw) (im : image) (key : string) :
  Compose data_transform r im <> Raise (KeyError key).
Proof.
  unfold data_transform. cbn [Compose apply_step]. intros H.
  destruct (tv_resize 224 im) as [im1|e] eqn:H1.
  2:{ injection H as ->. by apply tv_resize_Raise in H1 as [?|[?|?]]. }
  cbn [mbind result_bind] in H.
  destruct (tv_to_tensor im1) as [im2|e] eqn:H2.
  2:{ injection H as ->. by apply tv_to_tensor_Raise in H2 as [?|?]. }
  cbn [mbind result_bind] in H.
  destruct (tv_normalize _ _ im2) as [im3|e] eqn:H3; [done|].
  injection H as ->. by apply tv_normalize_Raise in H3 as [?|[?|?]].
Qed.

Lemma classes_against_mapping_witness :
  exists ds,
    train_dataset Toy.disk = Ok ds
    /\ exists i, i < len ds
                 /\ forall disk', is_ok (getitem disk' ds (Z.of_nat i)) = false.
Proof.
  eexists. split; [reflexivity|].
  refine (proj2 (classes_against_mapping Toy.disk
            (os_path_join notebook_data_dir "labels.csv") notebook_data_dir
            class_to_idx (Some (Compose data_transform None)) _ eq_refl _)
          "Effusion"%string _ _).
  - intros f img key [= <-]. exact (Compose_data_transform_no_KeyError None img key).
  - cbn [ds_classes]. vm_compute unique_from. apply list_elem_of_In. simpl. tauto.
  - vm_compute. reflexivity.
Defined.

Lemma resized_Ok (size h w h' w' : nat) :
  resized size h w = Ok (h', w') -> Nat.min h' w' = size.
Proof.
  unfold resized.
  destruct (Nat.leb_spec w h) as [Hle|Hlt].
  - destruct (Nat.eqb_spec w 0) as [|Hw]; [done|]. intros [= <- <-].
    apply Nat.min_r.
    apply Nat.div_le_lower_bound; [done|]. rewrite Nat.mul_comm.
    by apply Nat.mul_le_mono_l.
  - destruct (Nat.eqb_spec h 0) as [|Hh]; [done|]. intros [= <- <-].
    apply Nat.min_l.
    apply Nat.div_le_lower_bound; [done|]. rewrite Nat.mul_comm.
    apply Nat.mul_le_mono_l. lia.
Qed.

(** What the 2D chain makes of a decoded image file, if anything. *)
Lemma data_transform_fromarray (r : draw) (px : pixel_array) (img : image) :
  Compose data_transform r (fromarray px) = Ok img ->
  format px <> Gray16
  /\ exists h w,
       resized 224 (Rows px) (Columns px) = Ok (h, w)
       /\ img = {| kind := TorchTensor; dtype_of := float32;
                   shape := [match format px with RGB8 => 3 | _ => 1 end; h; w] |}.
Proof.
  unfold data_transform, fromarray. cbn [Compose apply_step]. unfold tv_resize.
  destruct (format px); cbn [kind shape dtype_of];
    (destruct (resized 224 (Rows px) (Columns px)) as [[h w]|e]; [|done]);
    cbn; intros [= <-]; (split; [done|]); by exists h, w.
Qed.

(** X9.  Every sample the dataset of the 2D notebook returns is a float
    tensor whose smaller spatial edge is 224, with one channel when the
    file holds 8-bit gray pixels and three when it holds colour, together
    with the label 0 or 1.  A file of 16-bit pixels yields no sample. *)
Theorem train_dataset_samples (disk : gmap string file) (ds : DicomDataset)
    (idx : Z) (img : image) (k : Z) :
  train_dataset disk = Ok ds ->
  getitem disk ds idx = Ok (img, k) ->
  kind img = TorchTensor
  /\ dtype_of img = float32
  /\ (exists c h w, shape img = [c; h; w] /\ Nat.min h w = 224 /\ (c = 1 \/ c = 3))
  /\ (k = 0 \/ k = 1)%Z
  /\ (exists row px,
        iloc (labels_df ds) idx = Ok row
        /\ dcmread disk (os_path_join (data_dir ds) row.1) = Ok px
        /\ format px <> Gray16
        /\ (format px = Gray8 -> head (shape img) = Some 1)
        /\ (format px = RGB8 -> head (shape img) = Some 3)).
Proof.
  intros Hds H. apply train_dataset_fields in Hds as (Ht & _ & Hmap).
  unfold getitem in H.
  apply bind_inv_Ok in H as (row & Hrow & H).
  apply bind_inv_Ok in H as (px & Hpx & H).
  apply bind_inv_Ok in H as (row' & Hrow' & H).
  apply bind_inv_Ok in H as (k' & Hk & H).
  apply bind_inv_Ok in H as (img' & Himg & H). injection H as <- <-.
  rewrite Ht in Himg.
  apply data_transform_fromarray in Himg as (Hfmt & h & w & Hres & ->).
  apply resized_Ok in Hres. cbn [kind dtype_of shape head].
  split_and!; [done | done | | |].
  - eexists _, h, w. split_and!; [reflexivity | done |].
    destruct (format px); auto.
  - rewrite Hmap in Hk.
    destruct (class_to_idx !! row'.2) as [k''|] eqn:Hlook; [|done].
    injection Hk as <-. apply class_to_idx_range in Hlook as [_ Hrange].
    simpl in Hrange. lia.
  - exists row, px. split_and!; [done | done | done | |];
      by destruct (format px).
Qed.

Lemma train_dataset_samples_witness :
  kind {| kind := TorchTensor; dtype_of := float32; shape := [1; 448; 224] |}
  = TorchTensor
  /\ dtype_of {| kind := TorchTensor; dtype_of := float32; shape := [1; 448; 224] |}
     = float32
  /\ (exists c h w,
        shape {| kind := TorchTensor; dtype_of := float32; shape := [1; 448; 224] |}
        = [c; h; w]
        /\ Nat.min h w = 224 /\ (c = 1 \/ c = 3))
  /\ (0 = 0 \/ 0 = 1)%Z.
Proof.
  destruct (train_dataset_samples Toy.disk
    {| labels_df := [("a.dcm", "Pneumothorax"); ("b.dcm", "No Pneumothorax");
                     ("c.dcm", "Effusion"); ("d.dcm", "Effusion")]%string;
       transform := Some (Compose data_transform None);
       data_dir := notebook_data_dir;
       ds_classes := ["Pneumothorax"; "No Pneumothorax"; "Effusion"]%string;
       classmapper := class_to_idx |} 1
    {| kind := TorchTensor; dtype_of := float32; shape := [1; 448; 224] |} 0
    eq_refl eq_refl) as (H1 & H2 & H3 & H4 & _).
  by split_and!.
Defined.

End MoreDatasetFacts.

(** ** The split of the file lists of the 3D notebook *)

Section SplitFacts.
Import Cells.

Lemma train_part_take {A : Type} (l : list A) : train_part l = take 10 l.
Proof.
  unfold train_part, slice, slice_bound. cbn [Z.ltb Z.compare].
  rewrite Nat.sub_0_r, drop_0.
  assert (Hstop : Z.to_nat (Z.min 10 (Z.of_nat (length l))) = Nat.min 10 (length l))
    by lia.
  rewrite Hstop.
  destruct (decide (10 <= length l)) as [Hle|Hgt].
  - by rewrite Nat.min_l.
  - rewrite Nat.min_r by lia. by rewrite (take_ge l (length l)), (take_ge l 10) by lia.
Qed.

Lemma val_part_drop {A : Type} (l : list A) : val_part l = drop (length l - 10) l.
Proof.
  unfold val_part, slice, slice_bound. cbn [Z.ltb Z.compare].
  assert (Hstart : Z.to_nat (Z.max 0 (Z.of_nat (length l) + -10)) = length l - 10) by lia.
  rewrite Hstart. apply take_ge. rewrite length_drop. lia.
Qed.

Lemma train_part_lookup {A : Type} (l : list A) (i : nat) :
  train_part l !! i = if decide (i < 10) then l !! i else None.
Proof.
  rewrite train_part_take. case_decide.
  - by apply lookup_take_lt.
  - apply lookup_take_ge. lia.
Qed.

Lemma val_part_lookup {A : Type} (l : list A) (i : nat) :
  val_part l !! i = l !! (length l - 10 + i).
Proof. rewrite val_part_drop. apply lookup_drop. Qed.


Lemma dataset_sizes_min (files : list string) (ph : phase) :
  Cells.dataset_sizes files ph = Nat.min 10 (length files).
Proof.
  destruct ph; unfold Cells.dataset_sizes.
  - rewrite train_part_take, length_take. lia.
  - rewrite val_part_drop, length_drop. lia.
Qed.


(** X11.  The two datasets pair every file with its own label as long as
    there are as many labels as files: the training pairs always come from
    one position of the lists, the validation pairs do when the two lists
    are equally long. *)
Theorem split_keeps_pairs {A B : Type} (files : list A) (labs : list B)
    (i : nat) (f : A) (y : B) :
  (train_part files !! i = Some f -> train_part labs !! i = Some y ->
   files !! i = Some f /\ labs !! i = Some y)
  /\ (length files = length labs ->
      val_part files !! i = Some f -> val_part labs !! i = Some y ->
      exists j, files !! j = Some f /\ labs !! j = Some y)
  /\ (val_part files !! i = Some f -> val_part labs !! i = Some y ->
      files !! (length files - 10 + i) = Some f
      /\ labs !! (length labs - 10 + i) = Some y).
Proof.
  rewrite !train_part_lookup, !val_part_lookup. split_and!.
  - case_decide; [done | discriminate].
  - intros <- Hf Hy. eauto.
  - done.
Qed.

Lemma notebook_lists :
  length images = 20 /\ length labels = 20
  /\ Cells.dataset_sizes images Train = 10 /\ Cells.dataset_sizes images Val = 10.
Proof. by split_and!. Qed.

Lemma split_keeps_pairs_witness :
  exists j, images !! j = Some "data/ixi/IXI607-Guys-1097-T1.nii.gz"%string
            /\ labels !! j = Some 0%Z.
Proof.
  apply (proj1 (proj2 (split_keeps_pairs images labels 0
           "data/ixi/IXI607-Guys-1097-T1.nii.gz"%string 0%Z))); reflexivity.
Defined.

End SplitFacts.

(** ** Pixel values *)

Section PixelFacts.
Import Cells.
Local Open Scope Q_scope.

Lemma clip_range (lo hi x : Q) : lo <= hi -> lo <= clip lo hi x <= hi.
Proof.
  intros Hle. unfold clip. split.
  - apply Q.min_glb; [apply Q.le_max_r | done].
  - apply Q.le_min_r.
Qed.

(** All 256 pixel values, by computation. *)
Lemma pixel_round_trips :
  forallb
    (fun n =>
       let x := to_tensor_pixel (Z.of_nat n) in
       let y := normalize_pixel (1 # 2) (1 # 2) x in
       Qle_bool (-1) y && Qle_bool y 1
       && Qle_bool (Qabs (display_pixel y - x)) (Qpow2 (-26))
       && (if (n =? 0)%nat || (64 <=? n)%nat then Qeq_bool (display_pixel y) x
           else negb (Qeq_bool (display_pixel y) x)))
    (seq 0 256)
  = true.
Proof. vm_compute. reflexivity. Qed.

(** X12.  The pixels the model sees lie between -1 and 1.  The display
    code of [visualize_results] undoes the normalization up to the
    rounding of the floats: for an 8-bit pixel it shows the value
    [ToTensor] gave to within 2^-26, exactly that value for the pixel 0
    and the pixels from 64 on, and another value for the pixels 1 to 63.
    Whatever it is given, it shows a value between 0 and 1. *)
Theorem display_inverts_normalize (v : Z) :
  (0 <= v <= 255)%Z ->
  -1 <= normalize_pixel (1 # 2) (1 # 2) (to_tensor_pixel v) <= 1
  /\ Qabs (display_pixel (normalize_pixel (1 # 2) (1 # 2) (to_tensor_pixel v))
           - to_tensor_pixel v) <= Qpow2 (-26)
  /\ ((v = 0 \/ 64 <= v)%Z ->
      display_pixel (normalize_pixel (1 # 2) (1 # 2) (to_tensor_pixel v))
      == to_tensor_pixel v)
  /\ ((1 <= v <= 63)%Z ->
      ~ display_pixel (normalize_pixel (1 # 2) (1 # 2) (to_tensor_pixel v))
        == to_tensor_pixel v)
  /\ (forall x, 0 <= display_pixel x <= 1).
Proof.
  intros Hv.
  pose proof (proj1 (forallb_forall _ _) pixel_round_trips (Z.to_nat v)) as H.
  cbv beta zeta in H. rewrite Z2Nat.id in H by lia.
  specialize (H ltac:(apply in_seq; lia)).
  apply andb_prop in H as [H Hcase]. apply andb_prop in H as [H Herr].
  apply andb_prop in H as [Hlo Hhi].
  apply Qle_bool_iff in Hlo, Hhi, Herr.
  split_and!; [done | done | done | | |].
  - intros Hexact.
    assert (Hn : ((Z.to_nat v =? 0)%nat || (64 <=? Z.to_nat v)%nat) = true).
    { apply orb_true_iff. destruct Hexact as [->|Hge]; [by left | right].
      apply Nat.leb_le. lia. }
    rewrite Hn in Hcase. by apply Qeq_bool_iff.
  - intros Hsmall.
    assert (Hn : ((Z.to_nat v =? 0)%nat || (64 <=? Z.to_nat v)%nat) = false).
    { apply orb_false_iff. split; [apply Nat.eqb_neq | apply Nat.leb_gt]; lia. }
    rewrite Hn in Hcase. apply negb_true_iff in Hcase.
    intros Heq. apply Qeq_bool_iff in Heq. congruence.
  - intros x. by apply clip_range.
Qed.

Lemma display_inverts_normalize_witness :
  to_tensor_pixel 51 == 13421773 # 67108864
  /\ display_pixel (normalize_pixel (1 # 2) (1 # 2) (to_tensor_pixel 51))
     == 3355443 # 16777216
  /\ ~ display_pixel (normalize_pixel (1 # 2) (1 # 2) (to_tensor_pixel 51))
       == to_tensor_pixel 51
  /\ display_pixel (normalize_pixel (1 # 2) (1 # 2) (to_tensor_pixel 128))
     == to_tensor_pixel 128.
Proof.
  split_and!.
  - vm_compute. reflexivity.
  - vm_compute. reflexivity.
  - apply (display_inverts_normalize 51); lia.
  - apply (display_inverts_normalize 128); lia.
Defined.

End PixelFacts.

(** ** The display loops *)

Section DisplayFacts.
Import Transforms Cells.

Lemma for_each_ext {A S : Type} (l : list A) (body body' : S -> A -> result S) (s : S) :
  (forall s' x, body s' x = body' s' x) ->
  for_each l body s = for_each l body' s.
Proof.
  intros Hext. revert s. induction l as [|x l IH]; intros s; simpl; [done|].
  rewrite Hext. destruct (body' s x); simpl; [apply IH | done].
Qed.

(** A loop that draws one item per index, or stops at the first index
    whose item cannot be made. *)
Lemma for_each_collect {A B : Type} (make : A -> result B) (l : list A)
    (init out : list B) :
  for_each l (fun drawn idx => x ← make idx; Ok (drawn ++ [x])) init = Ok out
  <-> exists xs, Forall2 (fun idx x => make idx = Ok x) l xs /\ out = init ++ xs.
Proof.
  revert init. induction l as [|idx l IH]; intros init; simpl.
  - split.
    + intros [= <-]. exists []. split; [constructor | by rewrite app_nil_r].
    + intros (xs & Hall & ->). apply Forall2_nil_inv_l in Hall as ->.
      by rewrite app_nil_r.
  - destruct (make idx) as [x|e] eqn:Hmake; simpl.
    + rewrite IH. split.
      * intros (xs & Hall & ->). exists (x :: xs).
        split; [by constructor | by rewrite <- app_assoc].
      * intros (xs & Hall & ->).
        apply Forall2_cons_inv_l in Hall as (x' & xs' & Hx & Hall & ->).
        rewrite Hmake in Hx. injection Hx as <-.
        exists xs'. split; [done | by rewrite <- app_assoc].
    + split; [done|]. intros (xs & Hall & _).
      apply Forall2_cons_inv_l in Hall as (x' & xs' & Hx & _).
      by rewrite Hmake in Hx.
Qed.

Lemma add_subplot_Ok (nrows ncols index : nat) :
  add_subplot nrows ncols index = Ok ()
  <-> 1 <= index <= nrows * ncols.
Proof.
  unfold add_subplot.
  destruct (Nat.eqb_spec nrows 0), (Nat.eqb_spec ncols 0),
    (Nat.eqb_spec index 0), (Nat.ltb_spec (nrows * ncols) index);
    simpl; split; try done; try lia; intros; subst; lia.
Qed.

Lemma add_subplot_Raise (nrows ncols index : nat) (e : exn) :
  add_subplot nrows ncols index = Raise e -> e = ValueError.
Proof.
  unfold add_subplot.
  destruct (_ || _); [by intros [= <-]|]. destruct (_ || _); [by intros [= <-] | done].
Qed.

Lemma grid_holds_all (n : nat) :
  (forall idx, idx < n -> 1 <= idx + 1 <= 2 * (n / 2)) <-> Nat.even n = true.
Proof.
  rewrite Nat.even_spec. split.
  - intros Hall. destruct n as [|n]; [by exists 0|].
    specialize (Hall n (Nat.lt_succ_diag_r n)).
    exists (S n / 2).
    pose proof (Nat.div_mod_eq (S n) 2) as Hdm.
    pose proof (Nat.mod_upper_bound (S n) 2). lia.
  - intros [m ->] idx Hidx.
    replace (2 * m / 2) with m; [lia|].
    symmetry. rewrite Nat.mul_comm. by apply Nat.div_mul.
Qed.

Lemma show_batch_collect (d : gmap Z string) (batch_size : nat)
    (images : list image) (labels : list Z) :
  show_batch d batch_size images labels
  = for_each (seq 0 batch_size)
      (fun drawn idx => x ← batch_plot d batch_size images labels idx;
                        Ok (drawn ++ [x])) [].
Proof.
  unfold show_batch. apply for_each_ext. intros drawn idx. unfold batch_plot.
  destruct (add_subplot _ _ _); simpl; [|done].
  destruct (item images idx) as [im|]; simpl; [|done].
  destruct (imshow (squeeze (shape im))); simpl; [|done].
  destruct (item labels idx) as [label|]; simpl; [|done].
  by destruct (class_name d label).
Qed.


Lemma item_Ok {A : Type} (a : list A) (idx : nat) (x : A) :
  item a idx = Ok x <-> a !! idx = Some x.
Proof. unfold item. destruct (a !! idx); split; congruence. Qed.

Lemma class_name_Ok (d : gmap Z string) (k : Z) (name : string) :
  class_name d k = Ok name <-> d !! k = Some name.
Proof. unfold class_name. destruct (d !! k); split; congruence. Qed.

Lemma batch_plot_Ok (d : gmap Z string) (batch_size : nat)
    (images : list image) (labels : list Z) (idx : nat) (plot : subplot_drawn) :
  batch_plot d batch_size images labels idx = Ok plot
  <-> 1 <= idx + 1 <= 2 * (batch_size / 2)
      /\ (exists im, images !! idx = Some im /\ imshow (squeeze (shape im)) = Ok ())
      /\ exists label name,
           labels !! idx = Some label /\ d !! label = Some name
           /\ plot = {| place := idx + 1; title := name; green := false |}.
Proof.
  unfold batch_plot. split.
  - intros H.
    apply bind_inv_Ok in H as ([] & Hgrid & H). apply add_subplot_Ok in Hgrid.
    apply bind_inv_Ok in H as (im & Him & H). apply item_Ok in Him.
    apply bind_inv_Ok in H as ([] & Hshow & H).
    apply bind_inv_Ok in H as (label & Hlabel & H). apply item_Ok in Hlabel.
    apply bind_inv_Ok in H as (name & Hname & H). apply class_name_Ok in Hname.
    injection H as <-. split; [lia|]. split; [by exists im | by exists label, name].
  - intros (Hgrid & (im & Him & Hshow) & label & name & Hlabel & Hname & ->).
    apply add_subplot_Ok in Hgrid. rewrite Hgrid. cbn [mbind result_bind].
    apply item_Ok in Him, Hlabel. rewrite Him. cbn [mbind result_bind].
    rewrite Hshow. cbn [mbind result_bind]. rewrite Hlabel. cbn [mbind result_bind].
    apply class_name_Ok in Hname. by rewrite Hname.
Qed.

Lemma for_each_collect_ok {A B : Type} (make : A -> result B) (l : list A)
    (init : list B) :
  is_ok (for_each l (fun drawn idx => x ← make idx; Ok (drawn ++ [x])) init) = true
  <-> Forall (fun idx => is_ok (make idx) = true) l.
Proof.
  revert init. induction l as [|idx l IH]; intros init; simpl.
  - split; [constructor | done].
  - rewrite Forall_cons. destruct (make idx) as [x|e]; simpl.
    + rewrite IH. tauto.
    + split; [done | by intros [? _]].
Qed.

Lemma batch_plot_ok (d : gmap Z string) (batch_size : nat)
    (images : list image) (labels : list Z) (idx : nat) :
  is_ok (batch_plot d batch_size images labels idx) = true
  <-> 1 <= idx + 1 <= 2 * (batch_size / 2)
      /\ (exists im, images !! idx = Some im /\ imshow (squeeze (shape im)) = Ok ())
      /\ exists label, labels !! idx = Some label /\ is_Some (d !! label).
Proof.
  split.
  - destruct (batch_plot d batch_size images labels idx) as [plot|e] eqn:H; [|done].
    intros _. apply batch_plot_Ok in H as (Hgrid & Him & label & name & Hl & Hn & _).
    split; [lia|]. split; [done|]. exists label. by rewrite Hn.
  - intros (Hgrid & Him & label & Hl & name & Hn).
    assert (H : batch_plot d batch_size images labels idx
                = Ok {| place := idx + 1; title := name; green := false |}).
    { apply batch_plot_Ok. split; [lia|]. split; [done | by exists label, name]. }
    by rewrite H.
Qed.

Lemma imshow_Ok (s : list nat) :
  imshow s = Ok ()
  <-> exists a b rest,
        s = a :: b :: rest /\ (rest = [] \/ rest = [1] \/ rest = [3] \/ rest = [4]).
Proof.
  unfold imshow. destruct s as [|a [|b [|c [|x rest]]]].
  - split; [done | by intros (? & ? & ? & ? & _)].
  - split; [done | by intros (? & ? & ? & ? & _)].
  - split; [intros _; exists a, b, []; auto | done].
  - destruct (Nat.eqb_spec c 1) as [->|H1]; simpl.
    { split; [intros _; exists a, b, [1]; auto | done]. }
    destruct (Nat.eqb_spec c 3) as [->|H3]; simpl.
    { split; [intros _; exists a, b, [3]; auto | done]. }
    destruct (Nat.eqb_spec c 4) as [->|H4]; simpl.
    { split; [intros _; exists a, b, [4]; auto 6 | done]. }
    split; [done|]. intros (? & ? & ? & [= <- <- <-] & [?|[?|[?|?]]]); congruence.
  - split; [done|]. intros (? & ? & ? & [= <- <- <-] & [?|[?|[?|?]]]); congruence.
Qed.

Lemma squeeze_no_1 (s : list nat) : 1 ∉ squeeze s.
Proof. unfold squeeze. intros H. by apply list_elem_of_filter in H as [? _]. Qed.

(** Of a squeezed array [imshow] takes a grid of scalars or of pixels of
    three or four values. *)
Lemma imshow_squeeze_Ok (s : list nat) :
  imshow (squeeze s) = Ok ()
  <-> exists a b rest,
        squeeze s = a :: b :: rest /\ (rest = [] \/ rest = [3] \/ rest = [4]).
Proof.
  rewrite imshow_Ok. split.
  - intros (a & b & rest & Hs & [Hr|[Hr|[Hr|Hr]]]);
      [exists a, b, rest; auto | | exists a, b, rest; auto..].
    pose proof (squeeze_no_1 s) as H1. rewrite Hs, Hr in H1.
    destruct H1. rewrite !elem_of_cons. auto.
  - intros (a & b & rest & Hs & [?|[?|?]]); exists a, b, rest; auto.
Qed.

(** X13.  The cell that plots the first batch draws all of it exactly when
    the batch size is even, the batch holds that many images, each of them
    is, once its axes of extent 1 are dropped, a grid of scalars or of
    pixels of three or four values, and every label is a key of the class
    dictionary; the subplots are then placed in order and titled with the
    class names.  A batch of one-channel images is such a batch; a batch
    of images with three channels in front is not, and the cell fails with
    [TypeError].  For a batch size of 1 the grid is empty and the cell
    fails with [ValueError]. *)
Theorem show_batch_completes (d : gmap Z string) (batch_size : nat)
    (images : list image) (labels : list Z) :
  (is_ok (show_batch d batch_size images labels) = true
   <-> Nat.even batch_size = true
       /\ forall idx, idx < batch_size ->
            (exists im a b rest,
                images !! idx = Some im
                /\ squeeze (shape im) = a :: b :: rest
                /\ (rest = [] \/ rest = [3] \/ rest = [4]))
            /\ exists label, labels !! idx = Some label /\ is_Some (d !! label))
  /\ (forall plots,
         show_batch d batch_size images labels = Ok plots ->
         length plots = batch_size
         /\ forall idx plot,
              plots !! idx = Some plot ->
              place plot = idx + 1
              /\ exists label, labels !! idx = Some label
                               /\ d !! label = Some (title plot))
  /\ (batch_size = 1 -> show_batch d batch_size images labels = Raise ValueError)
  /\ (forall h w, 1 < h -> 1 < w ->
        imshow (squeeze [1; h; w]) = Ok ()
        /\ (w <> 3 -> w <> 4 -> imshow (squeeze [3; h; w]) = Raise TypeError)).
Proof.
  rewrite show_batch_collect. split_and!.
  - rewrite for_each_collect_ok, Forall_seq.
    setoid_rewrite batch_plot_ok. setoid_rewrite imshow_squeeze_Ok. split.
    + intros Hall. split.
      * apply grid_holds_all. intros idx Hidx. apply (Hall idx). lia.
      * intros idx Hidx.
        destruct (Hall idx) as (_ & (im & Him & a & b & rest & Hs & Hrest) & Hlab);
          [lia|].
        split; [by exists im, a, b, rest | done].
    + intros (Heven & Hall) idx Hidx.
      destruct (Hall idx) as ((im & a & b & rest & Him & Hs & Hrest) & Hlab); [lia|].
      split; [|split].
      * apply grid_holds_all; [done | lia].
      * exists im. split; [done|]. by exists a, b, rest.
      * done.
  - intros plots H. apply for_each_collect in H as (xs & Hall & ->).
    rewrite app_nil_l.
    apply Forall2_same_length_lookup in Hall as [Hlen Hall].
    rewrite length_seq in Hlen. split; [done|].
    intros idx plot Hplot.
    assert (Hidx : seq 0 batch_size !! idx = Some idx).
    { apply lookup_seq. split; [done|]. apply lookup_lt_Some in Hplot. lia. }
    apply (Hall idx idx plot Hidx) in Hplot.
    apply batch_plot_Ok in Hplot as (_ & _ & label & name & Hl & Hn & ->).
    split; [done|]. by exists label.
  - intros ->. reflexivity.
  - intros h w Hh Hw. unfold squeeze.
    assert (Hh1 : h <> 1) by lia. assert (Hw1 : w <> 1) by lia.
    rewrite !filter_cons, filter_nil.
    rewrite (decide_False (P := 1 <> 1)) by auto.
    rewrite (decide_True (P := h <> 1)), (decide_True (P := w <> 1)) by done.
    rewrite (decide_True (P := 3 <> 1)) by lia.
    split; [done|]. intros H3 H4. unfold imshow.
    destruct (Nat.eqb_spec w 1); [done|].
    destruct (Nat.eqb_spec w 3); [done|]. by destruct (Nat.eqb_spec w 4).
Qed.

Lemma show_batch_completes_witness :
  is_ok (show_batch (idx_to_class_of Xray2D.classes) 2
           [{| kind := NdArray; dtype_of := float32; shape := [1; 224; 224] |};
            {| kind := NdArray; dtype_of := float32; shape := [1; 224; 224] |}]
           [1%Z; 0%Z]) = true
  /\ show_batch (idx_to_class_of Xray2D.classes) 1
       [{| kind := NdArray; dtype_of := float32; shape := [1; 224; 224] |}] [0%Z]
     = Raise ValueError
  /\ imshow (squeeze [3; 224; 224]) = Raise TypeError.
Proof.
  split_and!.
  - apply show_batch_completes. split; [reflexivity|].
    intros [|[|idx]] Hidx; [| |lia].
    + split.
      * eexists _, 224, 224, []. split_and!; [reflexivity | reflexivity | by left].
      * exists 1%Z. split; [reflexivity | eexists; vm_compute; reflexivity].
    + split.
      * eexists _, 224, 224, []. split_and!; [reflexivity | reflexivity | by left].
      * exists 0%Z. split; [reflexivity | eexists; vm_compute; reflexivity].
  - by apply show_batch_completes.
  - apply (show_batch_completes ∅ 0 [] []); lia.
Defined.

Lemma visualize_results_collect (d : gmap Z string) (n : nat)
    (images : list image) (preds labels : list Z) :
  squeezed_len preds = Ok n ->
  visualize_results d images preds labels
  = for_each (seq 0 n)
      (fun drawn idx => x ← result_plot d n images preds labels idx;
                        Ok (drawn ++ [x])) [].
Proof.
  intros Hn. unfold visualize_results. rewrite Hn. cbn [mbind result_bind].
  apply for_each_ext. intros drawn idx. unfold result_plot.
  destruct (add_subplot _ _ _); simpl; [|done].
  destruct (item images idx) as [im|]; simpl; [|done].
  destruct (permute_1_2_0 (shape im)) as [sh|]; simpl; [|done].
  destruct (imshow sh); simpl; [|done].
  destruct (item preds idx) as [pred|]; simpl; [|done].
  destruct (class_name d pred); simpl; [|done].
  destruct (item labels idx) as [label|]; simpl; [|done].
  by destruct (class_name d label).
Qed.

(** What [imshow] takes of a tensor whose channels were moved last. *)
Lemma permute_imshow_Ok (s : list nat) :
  (exists s', permute_1_2_0 s = Ok s' /\ imshow s' = Ok ())
  <-> exists c h w, s = [c; h; w] /\ (c = 1 \/ c = 3 \/ c = 4).
Proof.
  split.
  - intros (s' & Hp & Hshow). unfold permute_1_2_0 in Hp.
    destruct s as [|c [|h [|w [|x rest]]]]; try done. injection Hp as <-.
    exists c, h, w. split; [done|]. unfold imshow in Hshow.
    destruct (Nat.eqb_spec c 1); [auto|]. destruct (Nat.eqb_spec c 3); [auto|].
    destruct (Nat.eqb_spec c 4); [auto | done].
  - intros (c & h & w & -> & Hc). exists [h; w; c]. split; [done|].
    by destruct Hc as [-> | [-> | ->]].
Qed.

Lemma squeezed_len_Ok (preds : list Z) (n : nat) :
  squeezed_len preds = Ok n <-> n = length preds /\ length preds <> 1.
Proof.
  unfold squeezed_len. destruct preds as [|p [|q preds]]; simpl.
  - split; [by intros [= <-] | by intros [-> _]].
  - split; [done | by intros [_ ?]].
  - split; [by intros [= <-] | by intros [-> _]].
Qed.

Lemma result_plot_Ok (d : gmap Z string) (n : nat)
    (images : list image) (preds labels : list Z) (idx : nat) (plot : subplot_drawn) :
  result_plot d n images preds labels idx = Ok plot
  <-> 1 <= idx + 1 <= 2 * (n / 2)
      /\ (exists im c h w, images !! idx = Some im /\ shape im = [c; h; w]
                           /\ (c = 1 \/ c = 3 \/ c = 4))
      /\ exists pred pred_name label label_name,
           preds !! idx = Some pred /\ d !! pred = Some pred_name
           /\ labels !! idx = Some label /\ d !! label = Some label_name
           /\ plot = {| place := idx + 1;
                        title := pred_name +:+ " (" +:+ label_name +:+ ")";
                        green := bool_decide (pred = label) |}.
Proof.
  unfold result_plot. split.
  - intros H.
    apply bind_inv_Ok in H as ([] & Hgrid & H). apply add_subplot_Ok in Hgrid.
    apply bind_inv_Ok in H as (im & Him & H). apply item_Ok in Him.
    apply bind_inv_Ok in H as (sh & Hsh & H).
    apply bind_inv_Ok in H as ([] & Hshow & H).
    assert (Hshape : exists c h w, shape im = [c; h; w] /\ (c = 1 \/ c = 3 \/ c = 4)).
    { apply permute_imshow_Ok. by exists sh. }
    destruct Hshape as (c & h & w & Hs & Hc).
    apply bind_inv_Ok in H as (pred & Hpred & H). apply item_Ok in Hpred.
    apply bind_inv_Ok in H as (pname & Hpname & H). apply class_name_Ok in Hpname.
    apply bind_inv_Ok in H as (label & Hlabel & H). apply item_Ok in Hlabel.
    apply bind_inv_Ok in H as (lname & Hlname & H). apply class_name_Ok in Hlname.
    injection H as <-. split; [lia|]. split; [by exists im, c, h, w|].
    by exists pred, pname, label, lname.
  - intros (Hgrid & (im & c & h & w & Him & Hs & Hc)
            & pred & pname & label & lname & Hp & Hpn & Hl & Hln & ->).
    apply add_subplot_Ok in Hgrid. rewrite Hgrid. cbn [mbind result_bind].
    apply item_Ok in Him, Hp, Hl. rewrite Him. cbn [mbind result_bind].
    assert (Hshow : exists s', permute_1_2_0 (shape im) = Ok s' /\ imshow s' = Ok ()).
    { apply permute_imshow_Ok. by exists c, h, w. }
    destruct Hshow as (s' & -> & Hshow). cbn [mbind result_bind].
    rewrite Hshow. cbn [mbind result_bind]. rewrite Hp. cbn [mbind result_bind].
    apply class_name_Ok in Hpn, Hln. rewrite Hpn. cbn [mbind result_bind].
    rewrite Hl. cbn [mbind result_bind]. by rewrite Hln.
Qed.

Lemma result_plot_ok (d : gmap Z string) (n : nat)
    (images : list image) (preds labels : list Z) (idx : nat) :
  is_ok (result_plot d n images preds labels idx) = true
  <-> 1 <= idx + 1 <= 2 * (n / 2)
      /\ (exists im c h w, images !! idx = Some im /\ shape im = [c; h; w]
                           /\ (c = 1 \/ c = 3 \/ c = 4))
      /\ exists pred label,
           preds !! idx = Some pred /\ is_Some (d !! pred)
           /\ labels !! idx = Some label /\ is_Some (d !! label).
Proof.
  split.
  - destruct (result_plot d n images preds labels idx) as [plot|e] eqn:H; [|done].
    intros _.
    apply result_plot_Ok in H
      as (Hgrid & Him & pred & pname & label & lname & Hp & Hpn & Hl & Hln & _).
    split; [lia|]. split; [done|]. exists pred, label. by rewrite Hpn, Hln.
  - intros (Hgrid & Him & pred & label & Hp & [pname Hpn] & Hl & [lname Hln]).
    assert (H : result_plot d n images preds labels idx
                = Ok {| place := idx + 1;
                        title := pname +:+ " (" +:+ lname +:+ ")";
                        green := bool_decide (pred = label) |}).
    { apply result_plot_Ok. split; [lia|]. split; [done|].
      by exists pred, pname, label, lname. }
    by rewrite H.
Qed.

(** X14.  The plotting loop of [visualize_results] draws the whole batch
    exactly when the number of predictions is even, the batch holds an
    image for each of them, each image has three axes of which the first
    has one, three or four channels, and all predictions and labels are
    keys of the class dictionary; a title is green exactly when the
    prediction is the label.  A batch of one prediction fails with
    [TypeError], the squeezed predictions having no length. *)
Theorem visualize_results_completes (d : gmap Z string)
    (images : list image) (preds labels : list Z) :
  (is_ok (visualize_results d images preds labels) = true
   <-> Nat.even (length preds) = true
       /\ forall idx pred,
            preds !! idx = Some pred ->
            (exists im c h w, images !! idx = Some im /\ shape im = [c; h; w]
                              /\ (c = 1 \/ c = 3 \/ c = 4))
            /\ is_Some (d !! pred)
            /\ exists label, labels !! idx = Some label /\ is_Some (d !! label))
  /\ (forall plots,
         visualize_results d images preds labels = Ok plots ->
         length plots = length preds
         /\ forall idx plot,
              plots !! idx = Some plot ->
              place plot = idx + 1
              /\ exists pred label,
                   preds !! idx = Some pred /\ labels !! idx = Some label
                   /\ green plot = bool_decide (pred = label))
  /\ (length preds = 1 -> visualize_results d images preds labels = Raise TypeError).
Proof.
  split_and!.
  - destruct (decide (length preds = 1)) as [H1|H1].
    { split.
      - destruct preds as [|p [|q preds]]; done.
      - intros [Heven _]. by rewrite H1 in Heven. }
    rewrite (visualize_results_collect d (length preds)) by (by apply squeezed_len_Ok).
    rewrite for_each_collect_ok, Forall_seq.
    setoid_rewrite result_plot_ok. split.
    + intros Hall. split.
      * apply grid_holds_all. intros idx Hidx. apply (Hall idx). lia.
      * intros idx pred Hp.
        destruct (Hall idx) as (_ & Him & pred' & label & Hp' & Hpk & Hl & Hlk).
        { apply lookup_lt_Some in Hp. lia. }
        rewrite Hp in Hp'. injection Hp' as <-.
        split; [done|]. split; [done | by exists label].
    + intros (Heven & Hkeys) idx Hidx.
      destruct (lookup_lt_is_Some_2 preds idx) as [pred Hp]; [lia|].
      destruct (Hkeys idx pred Hp) as (Him & Hpk & label & Hl & Hlk).
      split; [|split].
      * apply grid_holds_all; [done | lia].
      * done.
      * by exists pred, label.
  - intros plots H.
    destruct (squeezed_len preds) as [n|e] eqn:Hn;
      [|unfold visualize_results in H; by rewrite Hn in H].
    rewrite (visualize_results_collect d n) in H by done.
    apply squeezed_len_Ok in Hn as [-> _].
    apply for_each_collect in H as (xs & Hall & ->). rewrite app_nil_l.
    apply Forall2_same_length_lookup in Hall as [Hlen Hall].
    rewrite length_seq in Hlen. split; [done|].
    intros idx plot Hplot.
    assert (Hidx : seq 0 (length preds) !! idx = Some idx).
    { apply lookup_seq. split; [done|]. apply lookup_lt_Some in Hplot. lia. }
    apply (Hall idx idx plot Hidx) in Hplot.
    apply result_plot_Ok in Hplot
      as (_ & _ & pred & pname & label & lname & Hp & _ & Hl & _ & ->).
    split; [done|]. by exists pred, label.
  - intros H1. destruct preds as [|p [|q preds]]; done.
Qed.

Lemma visualize_results_completes_witness :
  is_ok (visualize_results (idx_to_class_of Xray2D.classes)
           [{| kind := TorchTensor; dtype_of := float32; shape := [1; 224; 224] |};
            {| kind := TorchTensor; dtype_of := float32; shape := [1; 224; 224] |}]
           [1%Z; 0%Z] [1%Z; 1%Z]) = true
  /\ visualize_results (idx_to_class_of Xray2D.classes)
       [{| kind := TorchTensor; dtype_of := float32; shape := [1; 224; 224] |}] [0%Z] [0%Z]
     = Raise TypeError.
Proof.
  split.
  - apply visualize_results_completes. split; [reflexivity|].
    intros [|[|idx]] pred Hp; [| |done]; injection Hp as <-.
    + split; [eexists _, 1, 224, 224; split_and!; [reflexivity | reflexivity | by left]|].
      split; [eexists; vm_compute; reflexivity|].
      exists 1%Z. split; [reflexivity | eexists; vm_compute; reflexivity].
    + split; [eexists _, 1, 224, 224; split_and!; [reflexivity | reflexivity | by left]|].
      split; [eexists; vm_compute; reflexivity|].
      exists 1%Z. split; [reflexivity | eexists; vm_compute; reflexivity].
  - by apply visualize_results_completes.
Defined.

(** A batch of images with two channels has an image for every prediction
    and keys for all predictions and labels, and is not drawn. *)
Lemma visualize_results_two_channels :
  visualize_results (idx_to_class_of Xray2D.classes)
    [{| kind := TorchTensor; dtype_of := float32; shape := [2; 224; 224] |};
     {| kind := TorchTensor; dtype_of := float32; shape := [2; 224; 224] |}]
    [1%Z; 0%Z] [1%Z; 1%Z]
  = Raise TypeError.
Proof. reflexivity. Qed.

End DisplayFacts.

(** ** Whole runs of the 2D training loop *)

Lemma for_each_seq_S {St : Type} (body : St -> nat -> result St) (s : St) (e n : nat) :
  for_each (seq e (S n)) body s
  = (for_each (seq e n) body s ≫= fun s' => body s' (e + n)).
Proof. by rewrite seq_S, for_each_snoc. Qed.

Lemma total_batches_S {B : Type} (loader : nat -> list B) (k : nat) :
  Cells.total_batches loader (S k)
  = Cells.total_batches loader k + length (loader k).
Proof.
  unfold Cells.total_batches.
  rewrite seq_S, map_app, sum_list_with_app. simpl. lia.
Qed.

Section Train2DFacts.
Import Xray2D Cells.
Context (F : Framework).

Implicit Types (st : state F) (bs : list (Inputs F * Labels F)).

Lemma batch_body_2d_state st (data : Inputs F * Labels F) :
  let st' := (batch_body F st data 0%Q IntZero).1.1 in
  trace F st' = trace F st ++ Mri3D.batch_calls F Train
  /\ training (model F st') = training (model F st).
Proof.
  unfold batch_body, Mri3D.batch_calls.
  destruct (forward F (model F st) true data.1) as [outputs bufs].
  by destruct (step F _ _ _).
Qed.

(** A pass of the 2D loop makes the framework calls of a training pass of
    the 3D loop and leaves the mode of the model alone. *)
Lemma batch_loop_2d_state bs st (rl : Q) (rc : counter) :
  let st' := (batch_loop F bs st rl rc).1.1 in
  trace F st' = trace F st ++ Mri3D.pass_calls F Train (length bs)
  /\ training (model F st') = training (model F st).
Proof.
  revert st rl rc. induction bs as [|data bs IH]; intros st rl rc.
  { simpl. by rewrite app_nil_r. }
  rewrite batch_loop_2d_cons. cbv zeta.
  destruct (IH (batch_body F st data 0%Q IntZero).1.1
               (rl + b_loss (batch_record_2d F st data)
                + b_loss (batch_record_2d F st data)
                  * Qnat (b_size (batch_record_2d F st data)))%Q
               (counter_add rc (b_corrects (batch_record_2d F st data))))
    as [IHt IHm].
  destruct (batch_body_2d_state st data) as [Ht Hm].
  split.
  - rewrite IHt, Ht. cbn [length Mri3D.pass_calls]. by rewrite <- app_assoc.
  - by rewrite IHm.
Qed.

Lemma epoch_body_2d_trace (len_train_dataset : nat)
    (loader : nat -> list (Inputs F * Labels F)) st (lot : list Q) (epoch : nat)
    st' (lot' : list Q) :
  epoch_body F len_train_dataset loader (st, lot) epoch = Ok (st', lot') ->
  length lot' = S (length lot)
  /\ training (model F st') = training (model F st)
  /\ exists loss acc,
       trace F st'
       = trace F st ++ Mri3D.pass_calls F Train (length (loader epoch))
                    ++ [Print_stats None loss acc].
Proof.
  intros H.
  pose proof (batch_loop_2d_state (loader epoch) st 0%Q IntZero) as [Ht Hm].
  unfold epoch_body in H.
  destruct (batch_loop F (loader epoch) st 0%Q IntZero) as [[st1 rl] rc].
  apply bind_inv_Ok in H as ([l a] & _ & H). injection H as <- <-.
  simpl in *. split_and!.
  - rewrite length_app. simpl. lia.
  - done.
  - exists l, a. by rewrite Ht, <- app_assoc.
Qed.

(** What a run of [k] epochs leaves behind, from any state. *)
Lemma epochs_2d_invariant (len_train_dataset : nat)
    (loader : nat -> list (Inputs F * Labels F)) (k : nat)
    st0 (lot0 : list Q) st (lot : list Q) :
  for_each (seq 0 k) (epoch_body F len_train_dataset loader) (st0, lot0)
  = Ok (st, lot) ->
  length lot = length lot0 + k
  /\ training (model F st) = training (model F st0)
  /\ exists tr,
       trace F st = trace F st0 ++ tr
       /\ Mri3D.n_steps F tr = total_batches loader k
       /\ Mri3D.forward_flags F tr = replicate (total_batches loader k) true
       /\ Mri3D.n_saves F tr = 0
       /\ (Call_eval ∉ tr) /\ (Call_train ∉ tr).
Proof.
  revert st lot. induction k as [|k IH]; intros st lot H.
  { injection H as <- <-. split_and!; [lia | done |].
    exists []. rewrite app_nil_r. split_and!; try done; apply not_elem_of_nil. }
  rewrite for_each_seq_S in H.
  apply bind_inv_Ok in H as ([s1 lot1] & Hk & H).
  destruct (IH s1 lot1 Hk) as (Hlen & Hmode & tr & Htr & Hsteps & Hflags & Hsaves & He & Ht).
  apply epoch_body_2d_trace in H as (Hlen' & Hmode' & loss & acc & Htr').
  split_and!; [lia | congruence |].
  exists (tr ++ Mri3D.pass_calls F Train (length (loader k)) ++ [Print_stats None loss acc]).
  destruct (pass_calls_observed F Train (length (loader k))) as (_ & Hs & Hf & Hn).
  rewrite total_batches_S. split_and!.
  - rewrite Htr', Htr. by rewrite <- !app_assoc.
  - rewrite !n_steps_app, Hsteps, Hn. simpl. rewrite n_steps_cons, n_steps_nil. simpl. lia.
  - rewrite !forward_flags_app, Hflags, Hf. simpl.
    rewrite app_nil_r. by rewrite replicate_add.
  - rewrite !n_saves_app, Hsaves, Hs. rewrite n_saves_cons, n_saves_nil. simpl. lia.
  - rewrite !not_elem_of_app. split_and!; [done | | by rewrite list_elem_of_singleton].
    clear. induction (length (loader k)) as [|n IHn]; [apply not_elem_of_nil|].
    cbn [Mri3D.pass_calls Mri3D.batch_calls]. simpl.
    rewrite !not_elem_of_cons. by split_and!.
  - rewrite !not_elem_of_app. split_and!; [done | | by rewrite list_elem_of_singleton].
    clear. induction (length (loader k)) as [|n IHn]; [apply not_elem_of_nil|].
    cbn [Mri3D.pass_calls Mri3D.batch_calls]. simpl.
    rewrite !not_elem_of_cons. by split_and!.
Qed.

Lemma epochs_2d_Ok (len_train_dataset : nat)
    (loader : nat -> list (Inputs F * Labels F)) (k : nat)
    (acc acc' : state F * list Q) :
  for_each (seq 0 k) (epoch_body F len_train_dataset loader) acc = Ok acc' ->
  k = 0 \/ (len_train_dataset <> 0 /\ forall e, e < k -> loader e <> []).
Proof.
  revert acc'. induction k as [|k IH]; intros acc' H; [by left|]. right.
  rewrite for_each_seq_S in H.
  apply bind_inv_Ok in H as ([s1 lot1] & Hk & H). destruct acc' as [s' lot'].
  apply epoch_body_2d_Ok in H as (Hlen & Hbs & _). split; [done|].
  intros e He. destruct (decide (e = k)) as [->|Hne]; [done|].
  destruct (IH _ Hk) as [->|[_ Hall]]; [lia|]. apply Hall. lia.
Qed.

(** X15.  How a call of the 2D [train_model] ends.  With no epochs it
    returns an empty loss history.  A call that completes returns one loss
    per epoch, and if it ran an epoch then the dataset was not empty and
    the loader yielded a batch in every pass: the divisions at the end of
    a pass raise [ZeroDivisionError] for an empty dataset, and
    [running_corrects], which a pass without a batch leaves at the integer
    0, has no [double], which raises [AttributeError]. *)
Theorem train_model_2d_outcome (len_train_dataset : nat) (m : Net (Tensor F))
    (opt : Optimizer F) (loader : nat -> list (Inputs F * Labels F))
    (n_epochs : nat) (g0 : Grads F) :
  (n_epochs = 0 ->
   train_model F len_train_dataset m opt loader n_epochs g0
   = Ok (init_state F m opt g0, []))
  /\ (forall st loss_over_time,
        train_model F len_train_dataset m opt loader n_epochs g0
        = Ok (st, loss_over_time) ->
        length loss_over_time = n_epochs
        /\ (n_epochs = 0
            \/ (len_train_dataset <> 0
                /\ forall e, e < n_epochs -> loader e <> [])))
  /\ (forall (running_loss : Q) (running_corrects : counter),
        epoch_stats running_loss running_corrects 0 = Raise ZeroDivisionError)
  /\ (forall (running_loss : Q) (size : nat),
        size <> 0 -> epoch_stats running_loss IntZero size = Raise AttributeError)
  /\ (forall st (running_loss : Q),
        (batch_loop F [] st running_loss IntZero).2 = IntZero).
Proof.
  unfold train_model. split_and!.
  - by intros ->.
  - intros st lot H. split.
    + by apply epochs_2d_invariant in H as (Hlen & _).
    + by apply epochs_2d_Ok in H.
  - done.
  - intros rl size Hsize. unfold epoch_stats.
    by destruct (Nat.eqb_spec size 0).
  - done.
Qed.

(** X16.  What a completed run of the 2D [train_model] has done: one
    loss per epoch, one optimizer update per batch the loader yielded, each
    forward pass with gradient tracking; the model is left in training
    mode, is never put in evaluation mode, and nothing is saved. *)
Theorem train_model_2d_calls (len_train_dataset : nat) (m : Net (Tensor F))
    (opt : Optimizer F) (loader : nat -> list (Inputs F * Labels F))
    (n_epochs : nat) (g0 : Grads F) st (loss_over_time : list Q) :
  train_model F len_train_dataset m opt loader n_epochs g0
  = Ok (st, loss_over_time) ->
  length loss_over_time = n_epochs
  /\ training (model F st) = true
  /\ Mri3D.n_steps F (trace F st) = total_batches loader n_epochs
  /\ Mri3D.forward_flags F (trace F st)
     = replicate (total_batches loader n_epochs) true
  /\ Mri3D.n_saves F (trace F st) = 0
  /\ (Call_eval ∉ trace F st).
Proof.
  unfold train_model. intros H.
  apply epochs_2d_invariant in H
    as (Hlen & Hmode & tr & Htr & Hsteps & Hflags & Hsaves & Heval & _).
  rewrite Htr. cbn [init_state trace].
  rewrite n_steps_app, forward_flags_app, n_saves_app, Hsteps, Hflags, Hsaves.
  split_and!; try done.
  rewrite not_elem_of_app, list_elem_of_singleton. by split.
Qed.

End Train2DFacts.

(** ** Whole runs of the 3D training loop *)

Section Train3DFacts.
Import Mri3D Cells.
Context (F : Framework).

Implicit Types (st : state F) (ph : phase) (bs : list (Inputs F * Labels F)).
Implicit Types (tr : list (event (Tensor F))).

Lemma n_mkdirs_app tr1 tr2 : n_mkdirs (tr1 ++ tr2) = n_mkdirs tr1 + n_mkdirs tr2.
Proof. unfold n_mkdirs. by rewrite filter_app, length_app. Qed.

Lemma n_mkdirs_cons (e : event (Tensor F)) tr :
  n_mkdirs (e :: tr) = (if is_mkdir e then 1 else 0) + n_mkdirs tr.
Proof.
  unfold n_mkdirs. rewrite filter_cons.
  destruct (is_mkdir e); by rewrite ?decide_True, ?decide_False by done.
Qed.

Lemma n_mkdirs_nil : n_mkdirs (@nil (event (Tensor F))) = 0.
Proof. reflexivity. Qed.

Lemma pass_calls_no_mkdir ph (n : nat) : n_mkdirs (pass_calls F ph n) = 0.
Proof.
  induction n as [|n IH]; [done|].
  cbn [pass_calls]. rewrite n_mkdirs_app, IH. by destruct ph.
Qed.

(** *** The batch counters *)

Lemma batch_body_iter ph st (data : Inputs F * Labels F) :
  iter_num F (batch_body F ph st data 0%Q IntZero).1.1
  = alter S (phase_name ph) (iter_num F st).
Proof.
  unfold batch_body.
  destruct (forward F (model F st) (bool_decide (ph = Train)) data.1) as [outputs bufs].
  destruct ph; simpl; [|done]. by destruct (step F _ _ _).
Qed.

Lemma batch_loop_iter ph bs st (rl : Q) (rc : counter) (key : string) :
  iter_num F (batch_loop F ph bs st rl rc).1.1 !! key
  = if decide (key = phase_name ph)
    then (fun n => n + length bs) <$> iter_num F st !! key
    else iter_num F st !! key.
Proof.
  revert st rl rc. induction bs as [|data bs IH]; intros st rl rc.
  { simpl. destruct (decide (key = phase_name ph)); [|done].
    destruct (iter_num F st !! key); simpl; [f_equal; lia | done]. }
  rewrite batch_loop_cons, IH, batch_body_iter.
  destruct (decide (key = phase_name ph)) as [->|Hne].
  - rewrite lookup_alter_eq.
    destruct (iter_num F st !! phase_name ph); simpl; [f_equal; lia | done].
  - by rewrite lookup_alter_ne.
Qed.

Lemma run_phase_iter (dl : phase -> nat -> list (Inputs F * Labels F))
    (sizes : phase -> nat) (epoch : nat) ph st st' (loss acc : Q) :
  run_phase F dl sizes epoch ph st = Ok (st', loss, acc) ->
  forall key,
    iter_num F st' !! key
    = if decide (key = phase_name ph)
      then (fun n => n + length (dl ph epoch)) <$> iter_num F st !! key
      else iter_num F st !! key.
Proof.
  intros H key. apply run_phase_Ok in H as (_ & _ & -> & _).
  cbn [print iter_num]. by rewrite batch_loop_iter.
Qed.

(** *** Which runs complete *)

Lemma epochs_3d_Ok (dl : phase -> nat -> list (Inputs F * Labels F))
    (sizes : phase -> nat) (N k : nat) st0 s :
  after_epochs F dl sizes N k st0 = Ok s ->
  k = 0
  \/ (sizes Train <> 0 /\ sizes Val <> 0
      /\ forall e, e < k -> dl Train e <> [] /\ dl Val e <> []).
Proof.
  revert s. induction k as [|k IH]; intros s H; [by left|]. right.
  apply after_epochs_S_inv in H as (s1 & Hk & H).
  apply epoch_body_Ok in H as (st1 & l1 & a1 & st2 & l2 & acc & Hrun1 & Hrun2 & _).
  apply run_phase_Ok in Hrun1 as (Hst & Hlt & _).
  apply run_phase_Ok in Hrun2 as (Hsv & Hlv & _).
  split_and!; [done | done |].
  intros e He. destruct (decide (e = k)) as [->|Hne]; [done|].
  destruct (IH s1 Hk) as [->|(_ & _ & Hall)]; [lia|]. apply Hall. lia.
Qed.

(** X17.  A call of the 3D [train_model] that completes had no epoch to
    run, or both dataset sizes were not zero and each loader yielded a
    batch in every epoch.  With no epoch it completes, prints a best
    accuracy of -1 and leaves the model and the file system as they
    were. *)
Theorem train_model_3d_completes (m : Net (Tensor F)) (opt : Optimizer F)
    (dl : phase -> nat -> list (Inputs F * Labels F)) (num_epochs : nat)
    (sizes : phase -> nat) (g0 : Grads F) (fs0 : filesystem (Tensor F)) :
  (forall st,
      train_model F m opt dl num_epochs sizes g0 fs0 = Ok st ->
      num_epochs = 0
      \/ (sizes Train <> 0 /\ sizes Val <> 0
          /\ forall e, e < num_epochs -> dl Train e <> [] /\ dl Val e <> []))
  /\ (num_epochs = 0 ->
      exists st,
        train_model F m opt dl num_epochs sizes g0 fs0 = Ok st
        /\ trace F st = [Print_complete (-1)%Q]
        /\ model F st = m /\ fs F st = fs0).
Proof.
  unfold train_model. split.
  - intros st H. apply bind_inv_Ok in H as (s & H & _).
    by apply epochs_3d_Ok in H.
  - intros ->. eexists. split; [reflexivity|]. done.
Qed.

(** *** The accuracy the run reports *)

(** One epoch: the validation accuracy it prints, and what the checkpoint
    block then does with the state the two phases leave. *)
Lemma epoch_body_effects (dl : phase -> nat -> list (Inputs F * Labels F))
    (sizes : phase -> nat) (N : nat) st (epoch : nat) st' :
  epoch_body F dl sizes N st epoch = Ok st' ->
  exists st2 acc,
    st' = save_if_best F Val acc st2
    /\ (0 <= acc)%Q
    /\ best_metric F st2 = best_metric F st
    /\ fs F st2 = fs F st
    /\ val_accs F (trace F st2) = val_accs F (trace F st) ++ [acc]
    /\ n_saves F (trace F st2) = n_saves F (trace F st)
    /\ n_mkdirs (trace F st2) = n_mkdirs (trace F st)
    /\ n_steps F (trace F st2) = n_steps F (trace F st) + length (dl Train epoch)
    /\ (forall key,
          iter_num F st2 !! key
          = if decide (key = "train"%string)
            then (fun n => n + length (dl Train epoch)) <$> iter_num F st !! key
            else if decide (key = "val"%string)
                 then (fun n => n + length (dl Val epoch)) <$> iter_num F st !! key
                 else iter_num F st !! key).
Proof.
  intros H.
  apply epoch_body_Ok in H as (st1 & l1 & a1 & st2 & l2 & acc & Hrun1 & Hrun2 & ->).
  exists st2, acc.
  pose proof (run_phase_iter dl sizes epoch Train _ _ _ _ Hrun1) as Hi1.
  pose proof (run_phase_iter dl sizes epoch Val _ _ _ _ Hrun2) as Hi2.
  apply run_phase_state in Hrun1 as (Hb1 & Hf1 & Ht1 & _ & _).
  apply run_phase_state in Hrun2 as (Hb2 & Hf2 & Ht2 & _ & Hacc).
  cbn [print best_metric trace fs iter_num] in Hb1, Hf1, Ht1, Hi1.
  destruct (pass_calls_observed F Train (length (dl Train epoch))) as (Va1 & Sa1 & _ & Na1).
  destruct (pass_calls_observed F Val (length (dl Val epoch))) as (Va2 & Sa2 & _ & Na2).
  split_and!; try done; try congruence.
  - rewrite Ht2, Ht1. rewrite !val_accs_app, Va1, Va2. cbn. by rewrite !app_nil_r.
  - rewrite Ht2, Ht1. rewrite !n_saves_app, Sa1, Sa2.
    rewrite !n_saves_cons, !n_saves_nil. simpl. lia.
  - rewrite Ht2, Ht1. rewrite !n_mkdirs_app, !pass_calls_no_mkdir.
    rewrite !n_mkdirs_cons, !n_mkdirs_nil. simpl. lia.
  - rewrite Ht2, Ht1. rewrite !n_steps_app, Na1, Na2.
    rewrite !n_steps_cons, !n_steps_nil. simpl. lia.
  - intros key. rewrite Hi2, Hi1. cbn [phase_name].
    destruct (decide (key = "val"%string)) as [->|Hv].
    + by rewrite decide_False by done.
    + done.
Qed.

Lemma save_if_best_cases (acc : Q) st :
  let st' := save_if_best F Val acc st in
  ((best_metric F st < acc)%Q
   /\ best_metric F st' = acc
   /\ val_accs F (trace F st') = val_accs F (trace F st)
   /\ n_saves F (trace F st') = S (n_saves F (trace F st))
   /\ n_steps F (trace F st') = n_steps F (trace F st)
   /\ iter_num F st' = iter_num F st
   /\ fs F st'
      = torch_save (if os_path_exists (fs F st) models_dir then fs F st
                    else os_mkdir (fs F st) models_dir)
                   (BoundMethod (model F st) "state_dict") checkpoint_path
   /\ n_mkdirs (trace F st')
      = n_mkdirs (trace F st)
        + (if os_path_exists (fs F st) models_dir then 0 else 1))
  \/ (~ (best_metric F st < acc)%Q /\ st' = st).
Proof.
  assert (Hno : (best_metric F st ?= acc)%Q <> Lt -> ~ (best_metric F st < acc)%Q).
  { intros Hne Hlt. by apply Qlt_alt in Hlt. }
  unfold save_if_best.
  rewrite (bool_decide_eq_true_2 (Val = Val)) by done. cbv zeta.
  destruct (best_metric F st ?= acc)%Q eqn:Hcmp.
  - right. split; [by apply Hno | done].
  - left. apply Qlt_alt in Hcmp. cbn [best_metric trace iter_num fs].
    rewrite !val_accs_app, !n_saves_app, !n_steps_app, !n_mkdirs_app.
    destruct (os_path_exists (fs F st) models_dir); cbn [app];
      rewrite ?n_saves_cons, ?n_steps_cons, ?n_mkdirs_cons,
              ?n_saves_nil, ?n_steps_nil, ?n_mkdirs_nil;
      cbn; rewrite ?app_nil_r; split_and!; try done; lia.
  - right. split; [by apply Hno | done].
Qed.

(** The best metric of a run is one of its validation accuracies, unless
    it is the one the run started from. *)
Lemma epochs_best_attained (dl : phase -> nat -> list (Inputs F * Labels F))
    (sizes : phase -> nat) (N k : nat) st0 s :
  after_epochs F dl sizes N k st0 = Ok s ->
  exists accs,
    val_accs F (trace F s) = val_accs F (trace F st0) ++ accs
    /\ length accs = k
    /\ Forall (fun a => (0 <= a)%Q) accs
    /\ Forall (fun a => (a <= best_metric F s)%Q) accs
    /\ (best_metric F st0 <= best_metric F s)%Q
    /\ (best_metric F s = best_metric F st0 \/ best_metric F s ∈ accs).
Proof.
  revert s. induction k as [|k IH]; intros s H.
  { injection H as <-. exists []. rewrite app_nil_r.
    split_and!; try done; [apply Qle_refl | by left]. }
  apply after_epochs_S_inv in H as (s1 & Hk & H).
  destruct (IH s1 Hk) as (accs & Hva & Hlen & Hpos & Hle & Hmono & Hin).
  apply epoch_body_effects in H
    as (st2 & acc & -> & Hacc & Hb2 & _ & Hva2 & _).
  exists (accs ++ [acc]).
  destruct (save_if_best_cases acc st2) as [(Hlt & Hb & Hv & _)|(Hge & ->)].
  - rewrite Hb, Hv, Hva2, Hva, <- app_assoc. rewrite Hb2 in Hlt.
    split_and!.
    + done.
    + rewrite length_app. simpl. lia.
    + apply Forall_app. split; [done | by constructor].
    + apply Forall_app. split.
      * eapply Forall_impl; [exact Hle|]. intros a Ha. simpl in Ha.
        eapply Qle_trans; [exact Ha | by apply Qlt_le_weak].
      * constructor; [apply Qle_refl | constructor].
    + eapply Qle_trans; [exact Hmono | by apply Qlt_le_weak].
    + right. apply elem_of_app. right. by apply list_elem_of_singleton.
  - rewrite Hva2, Hva, <- app_assoc, Hb2. rewrite Hb2 in Hge.
    split_and!.
    + done.
    + rewrite length_app. simpl. lia.
    + apply Forall_app. split; [done | by constructor].
    + apply Forall_app. split; [done|].
      constructor; [by apply Qnot_lt_le | constructor].
    + done.
    + destruct Hin as [Heq|Hin]; [by left|].
      right. apply elem_of_app. by left.
Qed.

(** X18.  The accuracy a completed run reports in its last line is the
    best metric it returns with, and is the greatest of the validation
    accuracies the run printed, one per epoch: it is one of them, and none
    is greater.  A run of no epoch reports -1. *)
Theorem train_model_3d_reports_best (m : Net (Tensor F)) (opt : Optimizer F)
    (dl : phase -> nat -> list (Inputs F * Labels F)) (num_epochs : nat)
    (sizes : phase -> nat) (g0 : Grads F) (fs0 : filesystem (Tensor F)) st :
  train_model F m opt dl num_epochs sizes g0 fs0 = Ok st ->
  last (trace F st) = Some (Print_complete (best_metric F st))
  /\ length (val_accs F (trace F st)) = num_epochs
  /\ Forall (fun a => (a <= best_metric F st)%Q) (val_accs F (trace F st))
  /\ (num_epochs <> 0 -> best_metric F st ∈ val_accs F (trace F st))
  /\ (num_epochs = 0 -> best_metric F st = (-1)%Q).
Proof.
  unfold train_model. intros H.
  apply bind_inv_Ok in H as (s & Hrun & H). injection H as <-.
  cbn [print trace best_metric].
  apply epochs_best_attained in Hrun
    as (accs & Hva & Hlen & Hpos & Hle & _ & Hin).
  cbn [init_state trace best_metric] in Hva, Hin. cbn [val_accs omap] in Hva.
  rewrite last_snoc, val_accs_app, Hva. cbn. rewrite app_nil_r.
  split_and!; try done.
  - intros Hne. destruct Hin as [Heq|Hin]; [|done].
    destruct accs as [|a accs]; [done|].
    apply Forall_cons in Hpos as [Ha _]. apply Forall_cons in Hle as [Hb _].
    rewrite Heq in Hb. exfalso.
    apply (Qlt_irrefl (-1)). eapply Qlt_le_trans; [|exact Hb].
    by apply below_nonneg.
  - intros ->. destruct accs; [|done]. destruct Hin as [Heq|Hin]; [done|].
    by apply elem_of_nil in Hin.
Qed.

(** *** The batch counters over a run *)

Lemma epochs_counters (dl : phase -> nat -> list (Inputs F * Labels F))
    (sizes : phase -> nat) (N k : nat) st0 s :
  after_epochs F dl sizes N k st0 = Ok s ->
  n_steps F (trace F s) = n_steps F (trace F st0) + total_batches (dl Train) k
  /\ forall key,
       iter_num F s !! key
       = if decide (key = "train"%string)
         then (fun n => n + total_batches (dl Train) k) <$> iter_num F st0 !! key
         else if decide (key = "val"%string)
              then (fun n => n + total_batches (dl Val) k) <$> iter_num F st0 !! key
              else iter_num F st0 !! key.
Proof.
  revert s. induction k as [|k IH]; intros s H.
  { injection H as <-. split; [unfold total_batches; simpl; lia|].
    intros key. unfold total_batches. simpl.
    repeat case_decide; try done;
      destruct (iter_num F st0 !! key); simpl; try done; f_equal; lia. }
  apply after_epochs_S_inv in H as (s1 & Hk & H).
  destruct (IH s1 Hk) as [Hsteps Hiter].
  apply epoch_body_effects in H
    as (st2 & acc & -> & _ & _ & _ & _ & _ & _ & Hsteps2 & Hiter2).
  assert (Hsame : n_steps F (trace F (save_if_best F Val acc st2)) = n_steps F (trace F st2)
                  /\ iter_num F (save_if_best F Val acc st2) = iter_num F st2).
  { destruct (save_if_best_cases acc st2)
      as [(_ & _ & _ & _ & Hn & Hi & _)|(_ & ->)]; [by split | done]. }
  destruct Hsame as [-> ->]. rewrite !total_batches_S. split; [lia|].
  intros key. rewrite Hiter2, Hiter.
  repeat case_decide; try done;
    destruct (iter_num F st0 !! key); simpl; try done; f_equal; lia.
Qed.

(** X19.  [iter_num], which the loop keeps to track the total number of
    iterations, holds at the end, for each phase, the number of batches
    the loader of the phase yielded in all the epochs; it has no other
    key.  The optimizer has been updated once for each training batch and
    never for a validation batch. *)
Theorem iter_num_counts_batches (m : Net (Tensor F)) (opt : Optimizer F)
    (dl : phase -> nat -> list (Inputs F * Labels F)) (num_epochs : nat)
    (sizes : phase -> nat) (g0 : Grads F) (fs0 : filesystem (Tensor F)) st :
  train_model F m opt dl num_epochs sizes g0 fs0 = Ok st ->
  iter_num F st !! "train"%string = Some (total_batches (dl Train) num_epochs)
  /\ iter_num F st !! "val"%string = Some (total_batches (dl Val) num_epochs)
  /\ (forall key, key <> "train"%string -> key <> "val"%string ->
        iter_num F st !! key = None)
  /\ n_steps F (trace F st) = total_batches (dl Train) num_epochs.
Proof.
  unfold train_model. intros H.
  apply bind_inv_Ok in H as (s & Hrun & H). injection H as <-.
  cbn [print trace iter_num].
  apply epochs_counters in Hrun as [Hsteps Hiter].
  cbn [init_state trace iter_num] in Hsteps, Hiter.
  rewrite n_steps_app, Hsteps, n_steps_nil, n_steps_cons, n_steps_nil.
  split_and!.
  - rewrite Hiter. rewrite decide_True by done. by rewrite lookup_insert_eq.
  - rewrite Hiter. rewrite decide_False, decide_True by done.
    by rewrite lookup_insert_ne, lookup_insert_eq by done.
  - intros key Ht Hv. rewrite Hiter. rewrite !decide_False by done.
    by rewrite !lookup_insert_ne, lookup_empty by done.
  - simpl. lia.
Qed.

(** *** The files a run touches *)

Lemma os_path_exists_spec (fs1 : filesystem (Tensor F)) (path : string) :
  os_path_exists fs1 path = true
  <-> path ∈ dirs fs1 \/ is_Some (files fs1 !! path).
Proof.
  unfold os_path_exists. by rewrite orb_true_iff, !bool_decide_eq_true.
Qed.

Lemma os_path_exists_false (fs1 : filesystem (Tensor F)) (path : string) :
  os_path_exists fs1 path = false
  <-> (path ∉ dirs fs1) /\ files fs1 !! path = None.
Proof.
  rewrite <- not_true_iff_false, os_path_exists_spec, eq_None_not_Some. tauto.
Qed.

Lemma epochs_files (dl : phase -> nat -> list (Inputs F * Labels F))
    (sizes : phase -> nat) (N k : nat) st0 s :
  after_epochs F dl sizes N k st0 = Ok s ->
  (forall path, path <> checkpoint_path ->
     files (fs F s) !! path = files (fs F st0) !! path)
  /\ ((dirs (fs F s) = dirs (fs F st0)
       /\ n_mkdirs (trace F s) = n_mkdirs (trace F st0))
      \/ (dirs (fs F s) = {[models_dir]} ∪ dirs (fs F st0)
          /\ n_mkdirs (trace F s) = S (n_mkdirs (trace F st0))
          /\ os_path_exists (fs F st0) models_dir = false))
  /\ ((n_saves F (trace F s) = n_saves F (trace F st0)
       /\ fs F s = fs F st0
       /\ best_metric F s = best_metric F st0)
      \/ (n_saves F (trace F st0) < n_saves F (trace F s)
          /\ is_Some (files (fs F s) !! checkpoint_path)
          /\ os_path_exists (fs F s) models_dir = true)).
Proof.
  revert s. induction k as [|k IH]; intros s H.
  { injection H as <-. split_and!; [done | by left | by left]. }
  apply after_epochs_S_inv in H as (s1 & Hk & H).
  destruct (IH s1 Hk) as (Hfiles & Hdirs & Hsaved).
  apply epoch_body_effects in H
    as (st2 & acc & -> & _ & Hb2 & Hf2 & _ & Hns2 & Hmk2 & _).
  assert (Hle : n_saves F (trace F st0) <= n_saves F (trace F s1)).
  { destruct Hsaved as [(-> & _)|(Hlt & _)]; lia. }
  destruct (save_if_best_cases acc st2)
    as [(_ & _ & _ & Hns & _ & _ & Hfs & Hmk)|(_ & ->)].
  - rewrite Hfs, Hns, Hmk, Hf2, Hns2, Hmk2.
    destruct (os_path_exists (fs F s1) models_dir) eqn:Hex.
    + cbn [torch_save files dirs]. split_and!.
      * intros path Hne. rewrite lookup_insert_ne by done. by apply Hfiles.
      * destruct Hdirs as [[-> Hn]|(-> & Hn & Hnot)].
        -- left. split; [done | lia].
        -- right. split_and!; [done | lia | done].
      * right. split_and!; [lia | by rewrite lookup_insert_eq |].
        apply os_path_exists_spec. cbn [torch_save files dirs].
        apply os_path_exists_spec in Hex as [Hd|Hf]; [by left | right].
        by rewrite lookup_insert_ne.
    + cbn [torch_save os_mkdir files dirs]. split_and!.
      * intros path Hne. rewrite lookup_insert_ne by done. by apply Hfiles.
      * apply os_path_exists_false in Hex as [Hd Hf].
        destruct Hdirs as [[Heq Hn]|(Heq & _)].
        -- right. rewrite Heq. split_and!; [done | lia |].
           apply os_path_exists_false. rewrite <- Heq. split; [done|].
           by rewrite <- Hfiles.
        -- exfalso. apply Hd. rewrite Heq.
           apply elem_of_union. left. by apply elem_of_singleton.
      * right. split_and!; [lia | by rewrite lookup_insert_eq |].
        apply os_path_exists_spec. cbn [torch_save os_mkdir files dirs].
        left. apply elem_of_union. left. by apply elem_of_singleton.
  - rewrite Hf2, Hns2, Hmk2, Hb2. by split_and!.
Qed.

(** X20.  The only file a run writes is the checkpoint, and the only
    directory it makes is [./models], at most once and only if nothing of
    that name existed.  A run of at least one epoch leaves a checkpoint
    behind; a run of no epoch leaves the file system as it was. *)
Theorem train_model_3d_files (m : Net (Tensor F)) (opt : Optimizer F)
    (dl : phase -> nat -> list (Inputs F * Labels F)) (num_epochs : nat)
    (sizes : phase -> nat) (g0 : Grads F) (fs0 : filesystem (Tensor F)) st :
  train_model F m opt dl num_epochs sizes g0 fs0 = Ok st ->
  (forall path, path <> checkpoint_path ->
     files (fs F st) !! path = files fs0 !! path)
  /\ (if os_path_exists fs0 models_dir
      then dirs (fs F st) = dirs fs0 /\ n_mkdirs (trace F st) = 0
      else (dirs (fs F st) = dirs fs0 /\ n_mkdirs (trace F st) = 0 /\ num_epochs = 0)
           \/ (dirs (fs F st) = {[models_dir]} ∪ dirs fs0
               /\ n_mkdirs (trace F st) = 1 /\ num_epochs <> 0))
  /\ (num_epochs = 0 -> fs F st = fs0)
  /\ (num_epochs <> 0 ->
      is_Some (files (fs F st) !! checkpoint_path)
      /\ os_path_exists (fs F st) models_dir = true).
Proof.
  unfold train_model. intros H.
  apply bind_inv_Ok in H as (s & Hrun & H). injection H as <-.
  cbn [print trace fs].
  rewrite n_mkdirs_app, n_mkdirs_cons, !n_mkdirs_nil.
  destruct num_epochs as [|n].
  { injection Hrun as <-. cbn [init_state trace fs]. rewrite n_mkdirs_nil.
    split_and!; try done.
    destruct (os_path_exists fs0 models_dir); [done | by left]. }
  destruct (epochs_best_attained _ _ _ _ _ _ Hrun)
    as (accs & _ & Hlen & Hpos & Hle & _ & Hin).
  apply epochs_files in Hrun as (Hfiles & Hdirs & Hsaved).
  cbn [init_state trace fs best_metric] in Hfiles, Hdirs, Hsaved, Hin.
  rewrite n_mkdirs_nil in Hdirs.
  assert (Hcp : is_Some (files (fs F s) !! checkpoint_path)
                /\ os_path_exists (fs F s) models_dir = true).
  { destruct Hsaved as [(_ & _ & Hbest)|(_ & Hc & Hm)]; [|done].
    exfalso. destruct Hin as [Heq|Hel].
    - destruct accs as [|a accs]; [done|].
      apply Forall_cons in Hpos as [Ha _]. apply Forall_cons in Hle as [Hb _].
      rewrite Heq in Hb. apply (Qlt_irrefl (-1)).
      eapply Qlt_le_trans; [|exact Hb]. by apply below_nonneg.
    - rewrite Hbest in Hel.
      apply list_elem_of_lookup in Hel as [i Hi].
      eapply Forall_lookup_1 in Hpos; [|exact Hi]. by simpl in Hpos. }
  split_and!; try done.
  destruct (os_path_exists fs0 models_dir) eqn:Hex.
  - destruct Hdirs as [[-> ->]|(_ & _ & Hno)]; [by split | done].
  - destruct Hdirs as [[Hd Hn]|(Hd & Hn & _)].
    + exfalso. destruct Hcp as [_ Hm].
      apply os_path_exists_spec in Hm. apply os_path_exists_false in Hex as [Hnd Hnf].
      rewrite Hd, Hfiles, Hnf in Hm by done.
      destruct Hm as [?|[? ?]]; done.
    + right. rewrite Hd, Hn. by split_and!.
Qed.

(** *** The averages of a phase *)

(** X21.  The loss a phase of the 3D loop prints is the sum of the batch
    losses, each weighted by the size of its batch, over the dataset size
    of the phase, and the accuracy is the number of correct predictions
    over that size.  When the loader yields as many samples as the
    dataset size says, both are the true per-sample averages. *)
Theorem run_phase_true_averages (dl : phase -> nat -> list (Inputs F * Labels F))
    (sizes : phase -> nat) (epoch : nat) ph st st' (loss acc : Q) :
  run_phase F dl sizes epoch ph st = Ok (st', loss, acc) ->
  (loss == length_weighted_mean
             (batch_log_3d F ph (dl ph epoch) (set_mode F ph st)) (sizes ph))%Q
  /\ acc = (Qnat (corrects_seen (batch_log_3d F ph (dl ph epoch) (set_mode F ph st)))
            / Qnat (sizes ph))%Q
  /\ (samples_seen (batch_log_3d F ph (dl ph epoch) (set_mode F ph st)) = sizes ph ->
      (loss == true_mean_loss (batch_log_3d F ph (dl ph epoch) (set_mode F ph st)))%Q
      /\ acc = true_accuracy (batch_log_3d F ph (dl ph epoch) (set_mode F ph st))).
Proof.
  intros H. apply run_phase_Ok in H as (_ & _ & _ & Hloss & Hacc).
  assert (Hmean : (loss == length_weighted_mean
                     (batch_log_3d F ph (dl ph epoch) (set_mode F ph st)) (sizes ph))%Q).
  { rewrite Hloss. unfold length_weighted_mean. rewrite batch_loop_running_loss.
    by rewrite Qplus_0_l. }
  split_and!; [done | done |].
  intros Hseen. unfold true_mean_loss, true_accuracy. rewrite Hseen. by split.
Qed.

End Train3DFacts.

(** ** Whole runs of the small framework instance *)

Section WholeRuns.
Import Toy ToyRuns.

Lemma scenario_run_final : scenario_run = Ok final_state.
Proof.
  unfold Mri3D.train_model. by rewrite (scenario_states 3) by lia.
Qed.

Lemma train_2d_run_final :
  Xray2D.train_model toy 2 toy_net 0 one_batch_loader 1 0
  = Ok (state_2d one_batch_loader, losses_2d one_batch_loader).
Proof.
  rewrite train_model_2d_one_epoch. apply epoch_2d_states. vm_compute. reflexivity.
Qed.

Lemma train_model_2d_outcome_witness :
  (length (losses_2d one_batch_loader) = 1
   /\ (1 = 0 \/ (2 <> 0 /\ forall e, e < 1 -> one_batch_loader e <> [])))
  /\ Xray2D.train_model toy 2 toy_net 0 one_batch_loader 0 0
     = Ok (Xray2D.init_state toy toy_net 0 0, [])
  /\ epoch_stats 0 IntZero 2 = Raise AttributeError.
Proof.
  destruct (train_model_2d_outcome toy 2 toy_net 0 one_batch_loader 1 0)
    as (_ & Hdone & _ & Hdouble & _).
  split; [|split].
  - apply (Hdone (state_2d one_batch_loader)). exact train_2d_run_final.
  - by apply train_model_2d_outcome.
  - apply Hdouble. lia.
Defined.

Lemma train_model_2d_calls_witness :
  length (losses_2d one_batch_loader) = 1
  /\ training (Xray2D.model toy (state_2d one_batch_loader)) = true
  /\ Mri3D.n_steps toy (Xray2D.trace toy (state_2d one_batch_loader))
     = Cells.total_batches one_batch_loader 1
  /\ Mri3D.forward_flags toy (Xray2D.trace toy (state_2d one_batch_loader))
     = replicate (Cells.total_batches one_batch_loader 1) true
  /\ Mri3D.n_saves toy (Xray2D.trace toy (state_2d one_batch_loader)) = 0
  /\ (Call_eval ∉ Xray2D.trace toy (state_2d one_batch_loader)).
Proof.
  apply (train_model_2d_calls toy 2 toy_net 0 one_batch_loader 1 0).
  exact train_2d_run_final.
Defined.

Lemma train_model_3d_completes_witness :
  (3 = 0
   \/ (scenario_sizes Train <> 0 /\ scenario_sizes Val <> 0
       /\ forall e, e < 3 -> scenario_loaders Train e <> []
                             /\ scenario_loaders Val e <> []))
  /\ exists st,
       Mri3D.train_model toy toy_net 0 scenario_loaders 0 scenario_sizes 0 empty_fs
       = Ok st
       /\ Mri3D.trace toy st = [Print_complete (-1)%Q]
       /\ Mri3D.model toy st = toy_net /\ Mri3D.fs toy st = empty_fs.
Proof.
  split.
  - destruct (train_model_3d_completes toy toy_net 0 scenario_loaders 3
                scenario_sizes 0 empty_fs) as [Hdone _].
    apply (Hdone final_state). exact scenario_run_final.
  - by apply train_model_3d_completes.
Defined.

Lemma train_model_3d_reports_best_witness :
  last (Mri3D.trace toy final_state)
  = Some (Print_complete (Mri3D.best_metric toy final_state))
  /\ length (Mri3D.val_accs toy (Mri3D.trace toy final_state)) = 3
  /\ Forall (fun a => (a <= Mri3D.best_metric toy final_state)%Q)
            (Mri3D.val_accs toy (Mri3D.trace toy final_state))
  /\ Mri3D.best_metric toy final_state
     ∈ Mri3D.val_accs toy (Mri3D.trace toy final_state).
Proof.
  destruct (train_model_3d_reports_best toy toy_net 0 scenario_loaders 3
              scenario_sizes 0 empty_fs final_state scenario_run_final)
    as (Hlast & Hlen & Hall & Hin & _).
  split_and!; [done | done | done | by apply Hin].
Defined.

Lemma iter_num_counts_batches_witness :
  Mri3D.iter_num toy final_state !! "train"%string = Some 15
  /\ Mri3D.iter_num toy final_state !! "val"%string = Some 15
  /\ Mri3D.n_steps toy (Mri3D.trace toy final_state) = 15.
Proof.
  destruct (iter_num_counts_batches toy toy_net 0 scenario_loaders 3
              scenario_sizes 0 empty_fs final_state scenario_run_final)
    as (Ht & Hv & _ & Hs).
  split_and!; [exact Ht | exact Hv | exact Hs].
Defined.

Lemma train_model_3d_files_witness :
  (forall path, path <> Mri3D.checkpoint_path ->
     Mri3D.files (Mri3D.fs toy final_state) !! path = None)
  /\ Mri3D.dirs (Mri3D.fs toy final_state) = {[Mri3D.models_dir]} ∪ ∅
  /\ Cells.n_mkdirs (Mri3D.trace toy final_state) = 1
  /\ is_Some (Mri3D.files (Mri3D.fs toy final_state) !! Mri3D.checkpoint_path).
Proof.
  destruct (train_model_3d_files toy toy_net 0 scenario_loaders 3
              scenario_sizes 0 empty_fs final_state scenario_run_final)
    as (Hfiles & Hdirs & _ & Hcp).
  split_and!.
  - intros path Hne. by rewrite Hfiles.
  - by destruct Hdirs as [(_ & _ & ?)|(? & _)].
  - by destruct Hdirs as [(_ & _ & ?)|(_ & ? & _)].
  - by apply Hcp.
Defined.

Lemma run_phase_true_averages_witness :
  exists st' loss acc,
    Mri3D.run_phase toy scenario_loaders scenario_sizes 0 Val scenario_init
    = Ok (st', loss, acc)
    /\ (loss == true_mean_loss
                  (batch_log_3d toy Val (scenario_loaders Val 0)
                     (Mri3D.set_mode toy Val scenario_init)))%Q
    /\ acc = true_accuracy
               (batch_log_3d toy Val (scenario_loaders Val 0)
                  (Mri3D.set_mode toy Val scenario_init)).
Proof.
  destruct (run_phase_total toy scenario_loaders scenario_sizes 0 Val scenario_init)
    as (st' & loss & acc & H); [unfold scenario_sizes; lia | discriminate |].
  exists st', loss, acc. split; [exact H|].
  apply (run_phase_true_averages toy scenario_loaders scenario_sizes 0 Val
           scenario_init st' loss acc H).
  vm_compute. reflexivity.
Defined.

End WholeRuns.

(** ** The model set-up of the 2D notebook *)

Section SetupFacts.
Import Cells.

Implicit Types (ps : gmap string parameter) (m : network) (name child : string).

Lemma lookup_filter_under child ps name :
  filter (fun kv : string * parameter => under child kv.1 = false) ps !! name
  = if under child name then None else ps !! name.
Proof.
  destruct (under child name) eqn:Hu.
  - apply map_lookup_filter_None. right. intros p _. simpl. congruence.
  - destruct (ps !! name) as [p|] eqn:Hm.
    + by apply map_lookup_filter_Some.
    + apply map_lookup_filter_None. by left.
Qed.

Lemma set_child_conv1 m :
  params (set_child "conv1" (Conv2d 1 64 7) m)
  = <["conv1.weight"%string := {| p_shape := [64; 1; 7; 7]; requires_grad := true |}]>
      (filter (fun kv : string * parameter => under "conv1" kv.1 = false) (params m)).
Proof. reflexivity. Qed.

Lemma set_child_fc (num_ftrs : nat) m :
  params (set_child "fc" (Linear num_ftrs 2) m)
  = <["fc.weight"%string := {| p_shape := [2; num_ftrs]; requires_grad := true |}]>
      (<["fc.bias"%string := {| p_shape := [2]; requires_grad := true |}]>
         (filter (fun kv : string * parameter => under "fc" kv.1 = false) (params m))).
Proof. reflexivity. Qed.

Lemma fc_in_features_Ok m (n : nat) :
  fc_in_features m = Ok n <-> in_features m !! "fc"%string = Some n.
Proof.
  unfold fc_in_features. destruct (in_features m !! "fc"%string); split; congruence.
Qed.

(** The attribute of the last layer as the first replacement leaves it. *)
Lemma conv1_keeps_fc (pretrained : network) :
  in_features (set_child "conv1" (Conv2d 1 64 7) (freeze pretrained)) !! "fc"%string
  = in_features pretrained !! "fc"%string.
Proof.
  unfold set_child, Conv2d, freeze. cbn [layer_in_features in_features].
  by rewrite lookup_delete_ne.
Qed.



End SetupFacts.
